(** * Irish capital-gains calculator: a shallow embedding and its properties

    The development follows the Python sources
    [src/tax_calculations.py], [src/ticker_utils.py] and
    [src/improved_calculator.py].

    Conventions of the embedding.
    - Python floats are idealised as exact rationals ([Q]); equalities
      between computed amounts are stated with [==].  A cell that the
      code tests with [pd.isna] is an [option] ([None] is NaN / missing).
    - Python [str] values that only carry ASCII data (tickers, type
      strings, currency codes) are [string]; the free-text amount cells,
      whose cleaning depends on non-ASCII symbols, are lists of Unicode
      code points.
    - Code that raises returns a [result]; code that reads or updates the
      calculator object, the cache file or the instrument service runs in
      the state-and-exception monad [M] over an explicit [World].
    - The clock is an argument: every [datetime.now()] of one run reads
      the same instant [now].
    - A data frame is the list of its rows; [sort_values] keeps the input
      order of rows with equal dates. *)

From Stdlib Require Import QArith Qabs Qminmax Lqa ZArith List String Ascii Bool.
From stdpp Require Import gmap strings list fin_maps sorting.

Local Open Scope string_scope.
Local Open Scope Q_scope.

(* ===================================================================== *)
(** * Numbers *)
(* ===================================================================== *)

Module Num.

(** Python's [x < y] and [x <= y] on numbers. *)
Definition Qltb (x y : Q) : bool := negb (Qle_bool y x).
Definition Qleb (x y : Q) : bool := Qle_bool x y.

(** Python's two-argument [min] and [max]: the first argument is kept
    unless the second is strictly better. *)
Definition pymin (a b : Q) : Q := if Qltb b a then b else a.
Definition pymax (a b : Q) : Q := if Qltb a b then b else a.

End Num.
Export Num.

Notation "x <? y" := (Qltb x y) : Q_scope.
Notation "x <=? y" := (Qleb x y) : Q_scope.

(* ===================================================================== *)
(** * Exceptions *)
(* ===================================================================== *)

(** The only exception the modelled code raises on its own. *)
Inductive exn : Type :=
| ValueError.

Inductive result (A : Type) : Type :=
| Ok (a : A)
| Raise (e : exn).
Arguments Ok {A} a.
Arguments Raise {A} e.

(** [try: body except ValueError: handler]. *)
Definition try_except {A : Type} (body : result A) (handler : A) : result A :=
  match body with
  | Ok a => Ok a
  | Raise ValueError => Ok handler
  end.

(* ===================================================================== *)
(** * tax_calculations.py *)
(* ===================================================================== *)

Module TaxCalculations.

(** [apply_cgt_with_loss_carry_forward]; the result is the tuple
    [(taxable_gains, cgt_liability, carry_forward_used,
    accumulated_losses)]. *)
Definition apply_cgt_with_loss_carry_forward
    (stock_realized accumulated_losses cgt_exemption : Q) : Q * Q * Q * Q :=
  (* Step 1 *)
  let after_exemption :=
    if 0 <? stock_realized
    then stock_realized - pymin stock_realized cgt_exemption
    else stock_realized in
  (* Step 2 *)
  let '(carry_forward_used, accumulated_losses, after_exemption) :=
    if (0 <? after_exemption) && (0 <? accumulated_losses) then
      let carry_forward_used := pymin after_exemption accumulated_losses in
      (carry_forward_used,
       accumulated_losses - carry_forward_used,
       after_exemption - carry_forward_used)
    else (0, accumulated_losses, after_exemption) in
  (* Step 3 *)
  let taxable_gains := pymax 0 after_exemption in
  let cgt_liability := taxable_gains * (33 # 100) in
  (* Step 4 *)
  let accumulated_losses :=
    if after_exemption <? 0
    then accumulated_losses + Qabs after_exemption
    else accumulated_losses in
  (taxable_gains, cgt_liability, carry_forward_used, accumulated_losses).

(** [calculate_etf_exit_tax]: [(total_taxable, exit_tax_liability)]. *)
Definition calculate_etf_exit_tax (etf_realized etf_dividends etf_deemed : Q)
    : Q * Q :=
  let total_taxable := etf_realized + etf_dividends + etf_deemed in
  let exit_tax_liability := total_taxable * (41 # 100) in
  (total_taxable, exit_tax_liability).

(** The dictionary built by [calculate_dividend_income_tax] and by
    [calculate_dividend_taxes]. *)
Record DividendTax : Type := {
  gross_dividend_income : Q;
  irish_dividends : Q;
  foreign_dividends : Q;
  irish_dwt_credit : Q;
  foreign_withholding_credit : Q;
  total_credits : Q;
  income_tax_due : Q;
  net_tax_due : Q;
  refund_due : Q;
  margin_rate : Q
}.

(** [calculate_dividend_income_tax]; Python's [None] is [None]. *)
Definition calculate_dividend_income_tax
    (dividend_income margin_rate irish_dividends foreign_dividends : Q)
    : option DividendTax :=
  if dividend_income <=? 0 then None
  else
    let irish_dwt_credit := irish_dividends * (25 # 100) in
    let foreign_withholding_credit := foreign_dividends * (15 # 100) in
    let total_credits := irish_dwt_credit + foreign_withholding_credit in
    let income_tax_due := dividend_income * (margin_rate / 100) in
    let net_tax_due := pymax 0 (income_tax_due - total_credits) in
    let refund_due := pymax 0 (total_credits - income_tax_due) in
    Some {| gross_dividend_income := dividend_income;
            irish_dividends := irish_dividends;
            foreign_dividends := foreign_dividends;
            irish_dwt_credit := irish_dwt_credit;
            foreign_withholding_credit := foreign_withholding_credit;
            total_credits := total_credits;
            income_tax_due := income_tax_due;
            net_tax_due := net_tax_due;
            refund_due := refund_due;
            margin_rate := margin_rate |}.

(** [get_exemption_applied]. *)
Definition get_exemption_applied (realized_gains exemption_amount : Q) : Q :=
  if 0 <? realized_gains then pymin realized_gains exemption_amount else 0.

End TaxCalculations.

(* ===================================================================== *)
(** * Python strings *)
(* ===================================================================== *)

Module PyStr.

(** [str.upper] on ASCII text. *)
Definition upper_ascii (c : ascii) : ascii :=
  let n := nat_of_ascii c in
  if ((97 <=? n) && (n <=? 122))%nat then ascii_of_nat (n - 32) else c.

Fixpoint upper (s : string) : string :=
  match s with
  | EmptyString => EmptyString
  | String c s' => String (upper_ascii c) (upper s')
  end.

Fixpoint starts_with (p s : string) : bool :=
  match p, s with
  | EmptyString, _ => true
  | String a p', String b s' => bool_decide (a = b) && starts_with p' s'
  | String _ _, EmptyString => false
  end.

(** [needle in hay]. *)
Fixpoint contains (needle hay : string) : bool :=
  starts_with needle hay ||
  match hay with
  | EmptyString => false
  | String _ hay' => contains needle hay'
  end.

(** Code points of an ASCII literal. *)
Definition codepoints (s : string) : list N :=
  map N_of_ascii (list_ascii_of_string s).

End PyStr.
Export PyStr.

(* ===================================================================== *)
(** * Amount cells: [parse_amount] and [convert_to_eur] *)
(* ===================================================================== *)

Module Amounts.

(** Code points named by the patterns of [parse_amount]. *)
Definition cp_euro : N := 8364.      (* U+20AC *)
Definition cp_dollar : N := 36.
Definition cp_pound : N := 163.
Definition cp_yen : N := 165.
Definition cp_rupee : N := 8377.     (* U+20B9 *)
Definition cp_a_circ : N := 226.     (* U+00E2 *)
Definition cp_not : N := 172.        (* U+00AC *)
Definition cp_underscore : N := 95.
Definition cp_x : N := 120.
Definition cp_minus : N := 45.
Definition cp_dot : N := 46.

(** [\d], on the ASCII digits. *)
Definition is_digit (c : N) : bool := ((48 <=? c) && (c <=? 57))%N.

(** [[0-9A-Fa-f]]. *)
Definition is_hex (c : N) : bool :=
  (((48 <=? c) && (c <=? 57)) || ((65 <=? c) && (c <=? 70))
   || ((97 <=? c) && (c <=? 102)))%N.

Definition is_currency_symbol (c : N) : bool :=
  ((c =? cp_euro) || (c =? cp_dollar) || (c =? cp_pound)
   || (c =? cp_yen) || (c =? cp_rupee))%N.

(** [re.sub(r'[€$£¥₹]', '', s)]. *)
Definition sub_currency_symbols (s : list N) : list N :=
  List.filter (fun c => negb (is_currency_symbol c)) s.

(** Number of characters that [[^\d]*¬] matches at the start of [s]:
    the star is greedy and backtracks, so the match ends at the last
    [¬] of the leading run of non-digits. *)
Fixpoint match_nondigits_not (s : list N) : option nat :=
  match s with
  | [] => None
  | c :: s' =>
      if is_digit c then None
      else match match_nondigits_not s' with
           | Some n => Some (S n)
           | None => if (c =? cp_not)%N then Some 1%nat else None
           end
  end.

(** [re.sub(r'â[^\d]*¬', '', s)]; [skip] counts the characters of the
    current match that are still to be dropped. *)
Fixpoint sub_euro_encodings_from (skip : nat) (s : list N) : list N :=
  match s with
  | [] => []
  | c :: s' =>
      match skip with
      | S k => sub_euro_encodings_from k s'
      | O =>
          if (c =? cp_a_circ)%N then
            match match_nondigits_not s' with
            | Some n => sub_euro_encodings_from n s'
            | None => c :: sub_euro_encodings_from O s'
            end
          else c :: sub_euro_encodings_from O s'
      end
  end.

Definition sub_euro_encodings (s : list N) : list N :=
  sub_euro_encodings_from O s.

(** Length of the leading run of characters satisfying [p]. *)
Fixpoint run_length (p : N -> bool) (s : list N) : nat :=
  match s with
  | c :: s' => if p c then S (run_length p s') else O
  | [] => O
  end.

(** Number of characters that [x[0-9A-Fa-f]+_] matches at the start of
    [s] (the leading underscore has been read). *)
Definition match_hex_escape (s : list N) : option nat :=
  match s with
  | c :: s' =>
      if (c =? cp_x)%N then
        let n := run_length is_hex s' in
        match n, drop n s' with
        | S _, u :: _ =>
            if (u =? cp_underscore)%N then Some (S (S n)) else None
        | _, _ => None
        end
      else None
  | [] => None
  end.

(** [re.sub(r'_x[0-9A-Fa-f]+_', '', s)]. *)
Fixpoint sub_hex_encodings_from (skip : nat) (s : list N) : list N :=
  match s with
  | [] => []
  | c :: s' =>
      match skip with
      | S k => sub_hex_encodings_from k s'
      | O =>
          if (c =? cp_underscore)%N then
            match match_hex_escape s' with
            | Some n => sub_hex_encodings_from n s'
            | None => c :: sub_hex_encodings_from O s'
            end
          else c :: sub_hex_encodings_from O s'
      end
  end.

Definition sub_hex_encodings (s : list N) : list N :=
  sub_hex_encodings_from O s.

(** The text that [-?\d+\.?\d*] matches at the start of [s]. *)
Definition match_number (s : list N) : option (list N) :=
  let '(sign, s1) :=
    match s with
    | c :: s' => if (c =? cp_minus)%N then ([c], s') else ([], s)
    | [] => ([], s)
    end in
  let n := run_length is_digit s1 in
  match n with
  | O => None
  | S _ =>
      let s2 := drop n s1 in
      let '(dot, s3) :=
        match s2 with
        | c :: s' => if (c =? cp_dot)%N then ([c], s') else ([], s2)
        | [] => ([], s2)
        end in
      Some (sign ++ take n s1 ++ dot ++ take (run_length is_digit s3) s3)%list
  end.

(** [re.findall(r'-?\d+\.?\d*', s)]; [skip] as above. *)
Fixpoint findall_number_from (skip : nat) (s : list N) : list (list N) :=
  match s with
  | [] => []
  | _ :: s' =>
      match skip with
      | S k => findall_number_from k s'
      | O =>
          match match_number s with
          | Some m => m :: findall_number_from (length m - 1) s'
          | None => findall_number_from O s'
          end
      end
  end.

Definition findall_number (s : list N) : list (list N) :=
  findall_number_from O s.

(** Value of a run of decimal digits. *)
Definition digits_value (ds : list N) : N :=
  fold_left (fun acc d => (acc * 10 + (d - 48))%N) ds 0%N.

(** [float(text)] on the texts of the shape [-?\d+\.?\d*]; any other
    text raises [ValueError] here. *)
Definition float_of_text (t : list N) : result Q :=
  let '(negative, t1) :=
    match t with
    | c :: t' => if (c =? cp_minus)%N then (true, t') else (false, t)
    | [] => (false, t)
    end in
  let n := run_length is_digit t1 in
  match n with
  | O => Raise ValueError
  | S _ =>
      let int_part := take n t1 in
      let t2 := drop n t1 in
      let frac_part :=
        match t2 with
        | c :: t' =>
            if (c =? cp_dot)%N then Some (take (run_length is_digit t') t')
            else None
        | [] => Some []
        end in
      match frac_part with
      | Some fr =>
          if (length t =? (if negative then 1 else 0) + n
                            + (match t2 with [] => 0 | _ => 1 end)
                            + length fr)%nat
          then
            let magnitude :=
              inject_Z (Z.of_N (digits_value int_part))
              + inject_Z (Z.of_N (digits_value fr))
                / inject_Z (10 ^ Z.of_nat (length fr)) in
            Ok (if negative then - magnitude else magnitude)
          else Raise ValueError
      | None => Raise ValueError
      end
  end.

(** [parse_amount]; the cell is [None] when [pd.isna] holds of it and
    otherwise carries the text [str(amount_str)]. *)
Definition parse_amount (amount_str : option (list N)) : result Q :=
  match amount_str with
  | None => Ok 0
  | Some amount_str =>
      let amount_str := sub_currency_symbols amount_str in
      let amount_str := sub_euro_encodings amount_str in
      let amount_str := sub_hex_encodings amount_str in
      let matches := findall_number amount_str in
      match matches with
      | m :: _ => try_except (float_of_text m) 0
      | [] => Ok 0
      end
  end.

(** The string [amount_str] as the patterns see it once the symbol and
    encoding noise is removed. *)
Definition cleaned (amount_str : list N) : list N :=
  sub_hex_encodings (sub_euro_encodings (sub_currency_symbols amount_str)).

(** [convert_to_eur]; [currency] and [fx_rate] are cells of the input
    frame, [None] when missing. *)
Definition convert_to_eur (amount : Q) (currency : option string)
    (fx_rate : option Q) : result Q :=
  if bool_decide (currency = Some "EUR"%string) then Ok amount
  else
    match fx_rate with
    | Some rate =>
        if bool_decide (currency = Some "USD"%string) && (0 <? rate)
        then Ok (amount / rate)
        else Raise ValueError
    | None => Raise ValueError
    end.

End Amounts.
Export Amounts.

(* ===================================================================== *)
(** * Dates *)
(* ===================================================================== *)

Module Calendar.

(** A [pandas.Timestamp] / [datetime] without time zone, in seconds
    since 1970-01-01T00:00. *)
Definition Timestamp : Type := Z.

(** Proleptic Gregorian year of a day number (days since 1970-01-01). *)
Definition civil_year (days : Z) : Z :=
  let z := (days + 719468)%Z in
  let era := (z / 146097)%Z in
  let doe := (z - era * 146097)%Z in
  let yoe := ((doe - doe / 1460 + doe / 36524 - doe / 146096) / 365)%Z in
  let doy := (doe - (365 * yoe + yoe / 4 - yoe / 100))%Z in
  let mp := ((5 * doy + 2) / 153)%Z in
  let y := (yoe + era * 400)%Z in
  if (mp <? 10)%Z then y else (y + 1)%Z.

(** [.dt.year] and [datetime.year]. *)
Definition year_of (t : Timestamp) : Z := civil_year (t / 86400)%Z.

(** [(a - b).days]. *)
Definition days_between (a b : Timestamp) : Z := ((a - b) / 86400)%Z.

End Calendar.
Export Calendar.

(* ===================================================================== *)
(** * Data model *)
(* ===================================================================== *)

Module Data.

(** One entry of [ticker_cache.json].  A key that the code reads with
    [.get] may be absent ([None]); JSON [null] is [None] as well. *)
Record TickerInfo : Type := {
  ti_type : string;
  ti_currency : option string;
  ti_active : option bool;
  ti_merged_into : option string;
  ti_conversion_ratio : option Q;
  ti_withholding_tax_deducted : option bool;
  ti_domicile : option string
}.

(** The keys of [yfinance.Ticker(t).info] that [ticker_utils] reads. *)
Record YfInfo : Type := {
  yf_quoteType : option string;
  yf_currency : option string;
  yf_country : option string
}.

(** A row of the input frame. *)
Record RawRow : Type := {
  Date : Timestamp;
  Ticker : option string;
  Type_ : option string;
  Quantity : Q;
  Price_per_share : option (list N);
  Total_Amount : option (list N);
  Currency : option string;
  FX_Rate : option Q
}.

(** A row of the working frame of [process_transactions]: the input
    columns and the columns the function adds.  A column holds a
    placeholder until the statement that assigns it has run. *)
Record Row : Type := {
  raw : RawRow;
  Year : Z;
  TransactionType : string;
  NormalizedTicker : option string;
  IsETF : bool;
  IsActive : bool;
  TotalAmountFloat : Q;
  PricePerShareFloat : Q;
  TotalAmountEUR : Q;
  PricePerShareEUR : Q;
  FeesEUR : Q
}.

Definition set_TransactionType (v : string) (r : Row) : Row :=
  {| raw := raw r; Year := Year r; TransactionType := v;
     NormalizedTicker := NormalizedTicker r; IsETF := IsETF r;
     IsActive := IsActive r; TotalAmountFloat := TotalAmountFloat r;
     PricePerShareFloat := PricePerShareFloat r;
     TotalAmountEUR := TotalAmountEUR r;
     PricePerShareEUR := PricePerShareEUR r; FeesEUR := FeesEUR r |}.

Definition set_NormalizedTicker (v : option string) (r : Row) : Row :=
  {| raw := raw r; Year := Year r; TransactionType := TransactionType r;
     NormalizedTicker := v; IsETF := IsETF r;
     IsActive := IsActive r; TotalAmountFloat := TotalAmountFloat r;
     PricePerShareFloat := PricePerShareFloat r;
     TotalAmountEUR := TotalAmountEUR r;
     PricePerShareEUR := PricePerShareEUR r; FeesEUR := FeesEUR r |}.

Definition set_IsETF (v : bool) (r : Row) : Row :=
  {| raw := raw r; Year := Year r; TransactionType := TransactionType r;
     NormalizedTicker := NormalizedTicker r; IsETF := v;
     IsActive := IsActive r; TotalAmountFloat := TotalAmountFloat r;
     PricePerShareFloat := PricePerShareFloat r;
     TotalAmountEUR := TotalAmountEUR r;
     PricePerShareEUR := PricePerShareEUR r; FeesEUR := FeesEUR r |}.

Definition set_IsActive (v : bool) (r : Row) : Row :=
  {| raw := raw r; Year := Year r; TransactionType := TransactionType r;
     NormalizedTicker := NormalizedTicker r; IsETF := IsETF r;
     IsActive := v; TotalAmountFloat := TotalAmountFloat r;
     PricePerShareFloat := PricePerShareFloat r;
     TotalAmountEUR := TotalAmountEUR r;
     PricePerShareEUR := PricePerShareEUR r; FeesEUR := FeesEUR r |}.

Definition set_TotalAmountFloat (v : Q) (r : Row) : Row :=
  {| raw := raw r; Year := Year r; TransactionType := TransactionType r;
     NormalizedTicker := NormalizedTicker r; IsETF := IsETF r;
     IsActive := IsActive r; TotalAmountFloat := v;
     PricePerShareFloat := PricePerShareFloat r;
     TotalAmountEUR := TotalAmountEUR r;
     PricePerShareEUR := PricePerShareEUR r; FeesEUR := FeesEUR r |}.

Definition set_PricePerShareFloat (v : Q) (r : Row) : Row :=
  {| raw := raw r; Year := Year r; TransactionType := TransactionType r;
     NormalizedTicker := NormalizedTicker r; IsETF := IsETF r;
     IsActive := IsActive r; TotalAmountFloat := TotalAmountFloat r;
     PricePerShareFloat := v;
     TotalAmountEUR := TotalAmountEUR r;
     PricePerShareEUR := PricePerShareEUR r; FeesEUR := FeesEUR r |}.

Definition set_TotalAmountEUR (v : Q) (r : Row) : Row :=
  {| raw := raw r; Year := Year r; TransactionType := TransactionType r;
     NormalizedTicker := NormalizedTicker r; IsETF := IsETF r;
     IsActive := IsActive r; TotalAmountFloat := TotalAmountFloat r;
     PricePerShareFloat := PricePerShareFloat r;
     TotalAmountEUR := v;
     PricePerShareEUR := PricePerShareEUR r; FeesEUR := FeesEUR r |}.

Definition set_PricePerShareEUR (v : Q) (r : Row) : Row :=
  {| raw := raw r; Year := Year r; TransactionType := TransactionType r;
     NormalizedTicker := NormalizedTicker r; IsETF := IsETF r;
     IsActive := IsActive r; TotalAmountFloat := TotalAmountFloat r;
     PricePerShareFloat := PricePerShareFloat r;
     TotalAmountEUR := TotalAmountEUR r;
     PricePerShareEUR := v; FeesEUR := FeesEUR r |}.

Definition set_FeesEUR (v : Q) (r : Row) : Row :=
  {| raw := raw r; Year := Year r; TransactionType := TransactionType r;
     NormalizedTicker := NormalizedTicker r; IsETF := IsETF r;
     IsActive := IsActive r; TotalAmountFloat := TotalAmountFloat r;
     PricePerShareFloat := PricePerShareFloat r;
     TotalAmountEUR := TotalAmountEUR r;
     PricePerShareEUR := PricePerShareEUR r; FeesEUR := v |}.

(** A [defaultdict(float)] keyed by year. *)
Definition yearly_get (m : gmap Z Q) (year : Z) : Q := default 0 (m !! year).

(** [m[year] += x]. *)
Definition yearly_add (m : gmap Z Q) (year : Z) (x : Q) : gmap Z Q :=
  <[year := yearly_get m year + x]> m.

(** [results['ticker_detail'][ticker]]; the yearly dictionaries are
    kept under their keys in [td_yearly]. *)
Record TickerDetail : Type := {
  asset_type : string;
  td_yearly : gmap string (gmap Z Q);
  current_holdings : Q;
  avg_cost_basis : Q;
  deemed_disposal_liability : Q;
  buy_transactions : list Row;
  currency : option string
}.

(** The value the [defaultdict] of ticker details creates on a miss. *)
Definition td_default : TickerDetail :=
  {| asset_type := "";
     td_yearly :=
       <["realized_gains"%string := ∅]>
       (<["unrealized_gains"%string := ∅]>
       (<["dividends"%string := ∅]>
       (<["dividends_irish"%string := ∅]>
       (<["dividends_foreign"%string := ∅]> ∅))));
     current_holdings := 0;
     avg_cost_basis := 0;
     deemed_disposal_liability := 0;
     buy_transactions := [];
     currency := None |}.

(** The dictionary returned by [process_transactions]. *)
Record Results : Type := {
  summary : gmap string (gmap string (gmap Z Q));
  ticker_detail : gmap string TickerDetail
}.

End Data.
Export Data.

(* ===================================================================== *)
(** * The world of a run and its monad *)
(* ===================================================================== *)

Module Monad.

(** What a run reads and writes besides its arguments: the calculator's
    [ticker_cache] attribute, the JSON cache file (an absent or
    unreadable file is the empty dictionary), the answers of the
    instrument service, and the [transaction_history] attribute (absent
    until first assigned). *)
Record World : Type := {
  ticker_cache : gmap string TickerInfo;
  cache_file : gmap string TickerInfo;
  yfinance : string -> YfInfo;
  transaction_history : option (list Row)
}.

Definition set_ticker_cache (c : gmap string TickerInfo) (w : World) : World :=
  {| ticker_cache := c; cache_file := cache_file w;
     yfinance := yfinance w;
     transaction_history := transaction_history w |}.

Definition set_cache_file (c : gmap string TickerInfo) (w : World) : World :=
  {| ticker_cache := ticker_cache w; cache_file := c;
     yfinance := yfinance w;
     transaction_history := transaction_history w |}.

Definition set_transaction_history (h : option (list Row)) (w : World) : World :=
  {| ticker_cache := ticker_cache w; cache_file := cache_file w;
     yfinance := yfinance w;
     transaction_history := h |}.

(** Computations that may raise and that thread the world. *)
Definition M (A : Type) : Type := World -> result A * World.

Definition ret {A : Type} (a : A) : M A := fun w => (Ok a, w).

Definition raise {A : Type} (e : exn) : M A := fun w => (Raise e, w).

Definition bind {A B : Type} (m : M A) (k : A -> M B) : M B :=
  fun w =>
    match m w with
    | (Ok a, w') => k a w'
    | (Raise e, w') => (Raise e, w')
    end.

Definition lift {A : Type} (r : result A) : M A := fun w => (r, w).

Definition get_world : M World := fun w => (Ok w, w).

Definition modify_world (f : World -> World) : M unit :=
  fun w => (Ok tt, f w).

End Monad.
Export Monad.

Notation "x <- m ;; k" := (bind m (fun x => k))
  (at level 100, m at next level, right associativity).
Notation "m ;; k" := (bind m (fun _ => k))
  (at level 100, right associativity).

Module Loops.

(** A column computed row by row: [df.apply(f, axis=1)]. *)
Fixpoint mapM {A B : Type} (f : A -> M B) (l : list A) : M (list B) :=
  match l with
  | [] => ret []
  | a :: l' => b <- f a ;; bs <- mapM f l' ;; ret (b :: bs)
  end.

(** A [for] loop that updates local state. *)
Fixpoint foldM {A S : Type} (f : S -> A -> M S) (s : S) (l : list A) : M S :=
  match l with
  | [] => ret s
  | a :: l' => s' <- f s a ;; foldM f s' l'
  end.

End Loops.
Export Loops.

(* ===================================================================== *)
(** * ticker_utils.py and the resolver methods of the calculator *)
(* ===================================================================== *)

Module Resolver.

(** [domicile_map.get(country, 'US')]. *)
Definition domicile_of_country (country : string) : string :=
  if bool_decide (country = "Ireland") then "IE"
  else if bool_decide (country = "United States") then "US"
  else if bool_decide (country = "Germany") then "DE"
  else if bool_decide (country = "United Kingdom") then "GB"
  else if bool_decide (country = "Netherlands") then "NL"
  else if bool_decide (country = "France") then "FR"
  else if bool_decide (country = "Switzerland") then "CH"
  else "US".

(** The entry [add_missing_ticker_to_cache] derives from the service's
    answer. *)
Definition entry_of_yfinance (info : YfInfo) : TickerInfo :=
  let quote_type := upper (default "" (yf_quoteType info)) in
  let is_etf := bool_decide (quote_type = "ETF") in
  let currency := default "USD" (yf_currency info) in
  let country := default "United States" (yf_country info) in
  let domicile := domicile_of_country country in
  {| ti_type := if is_etf then "etf" else "stock";
     ti_currency := Some currency;
     ti_active := Some true;
     ti_merged_into := None;
     ti_conversion_ratio := Some 1;
     ti_withholding_tax_deducted := Some false;
     ti_domicile := Some domicile |}.

(** [add_missing_ticker_to_cache(ticker, cache_file)]. *)
Definition add_missing_ticker_to_cache (ticker : string) : M TickerInfo :=
  w <- get_world ;;
  let cache := cache_file w in
  match cache !! ticker with
  | Some entry => ret entry
  | None =>
      let entry := entry_of_yfinance (yfinance w ticker) in
      modify_world (set_cache_file (<[ticker := entry]> cache)) ;;
      ret entry
  end.

(** [get_ticker_info]. *)
Definition get_ticker_info (ticker : option string) : M (option TickerInfo) :=
  match ticker with
  | None => ret None
  | Some ticker =>
      if bool_decide (ticker = "") then ret None
      else
        let ticker_str := upper ticker in
        if bool_decide (ticker_str = "NONE") || bool_decide (ticker_str = "NAN")
        then ret None
        else
          w <- get_world ;;
          match ticker_cache w !! ticker_str with
          | Some info => ret (Some info)
          | None =>
              ticker_info <- add_missing_ticker_to_cache ticker_str ;;
              modify_world
                     (fun w => set_ticker_cache
                                 (<[ticker_str := ticker_info]> (ticker_cache w)) w) ;;
              ret (Some ticker_info)
          end
  end.

(** Truth value of [ticker_info.get('merged_into')]. *)
Definition merged_target (info : TickerInfo) : option string :=
  match ti_merged_into info with
  | Some target => if bool_decide (target = "") then None else Some target
  | None => None
  end.

(** [normalize_ticker]. *)
Definition normalize_ticker (ticker : option string) : M (option string) :=
  match ticker with
  | None => ret None
  | Some ticker =>
      if bool_decide (ticker = "") || bool_decide (upper ticker = "NAN")
      then ret None
      else
        let ticker := upper ticker in
        ticker_info <- get_ticker_info (Some ticker) ;;
        match ticker_info with
        | None => ret None
        | Some info =>
            match merged_target info with
            | Some target => ret (Some target)
            | None => ret (Some ticker)
            end
        end
  end.

(** [get_conversion_ratio]. *)
Definition get_conversion_ratio (ticker : option string) : M Q :=
  ticker_info <- get_ticker_info ticker ;;
  match ticker_info with
  | None => raise ValueError
  | Some info => ret (default 1 (ti_conversion_ratio info))
  end.

(** [is_etf]. *)
Definition is_etf (ticker : option string) : M bool :=
  ticker_info <- get_ticker_info ticker ;;
  match ticker_info with
  | None => raise ValueError
  | Some info => ret (bool_decide (ti_type info = "etf"))
  end.

(** [is_active]. *)
Definition is_active (ticker : option string) : M bool :=
  ticker_info <- get_ticker_info ticker ;;
  match ticker_info with
  | None => raise ValueError
  | Some info => ret (default true (ti_active info))
  end.

(** [get_domicile]. *)
Definition get_domicile (ticker : option string) : M string :=
  ticker_info <- get_ticker_info ticker ;;
  match ticker_info with
  | None => raise ValueError
  | Some info => ret (default "Unknown" (ti_domicile info))
  end.

End Resolver.
Export Resolver.

(* ===================================================================== *)
(** * Classification of the free-text type *)
(* ===================================================================== *)

Module Classify.

(** [classify_transaction_type]. *)
Definition classify_transaction_type (type_str : option string) : string :=
  match type_str with
  | None => "ignore"
  | Some type_str =>
      let type_str := upper type_str in
      if contains "BUY" type_str then "buy"
      else if contains "SELL" type_str then "sell"
      else if contains "DIVIDEND" type_str then "dividend"
      else if contains "MERGER" type_str then
        if contains "STOCK" type_str then "merger_stock"
        else if contains "CASH" type_str then "merger_cash"
        else "merger"
      else if contains "TRANSFER" type_str
              && contains "REVOLUT TRADING LTD TO REVOLUT SECURITIES EUROPE UAB" type_str
      then "transfer_broker"
      else if contains "TRANSFER" type_str then "ignore"
      else if existsb (fun ignore_type => contains ignore_type type_str)
                ["TRANSFER"; "CASH TOP-UP"; "CASH WITHDRAWAL"; "CUSTODY FEE"]
      then "ignore"
      else "ignore"
  end.

End Classify.
Export Classify.

(* ===================================================================== *)
(** * The FIFO lot ledger of one instrument *)
(* ===================================================================== *)

Module Ledger.

(** A [buy_transaction] dictionary of the queue. *)
Record Lot : Type := {
  quantity : Q;
  price_per_share_eur : Q;
  year : Z
}.

(** The locals [buy_queue], [total_shares] and [total_cost] of the
    replay of one ticker. *)
Record LedgerState : Type := {
  buy_queue : list Lot;
  total_shares : Q;
  total_cost : Q
}.

Definition empty_ledger : LedgerState :=
  {| buy_queue := []; total_shares := 0; total_cost := 0 |}.

(** The branch [trans_type == 'buy'], once the conversion ratio of the
    original ticker has been looked up. *)
Definition apply_buy (conversion_ratio : Q) (transaction : Row)
    (led : LedgerState) : LedgerState :=
  let quantity := Quantity (raw transaction) in
  let price_per_share_eur := PricePerShareEUR transaction in
  let converted_quantity := quantity * conversion_ratio in
  let converted_price :=
    if 0 <? conversion_ratio then price_per_share_eur / conversion_ratio
    else price_per_share_eur in
  let buy_transaction :=
    {| quantity := converted_quantity;
       price_per_share_eur := converted_price;
       year := Year transaction |} in
  let share_cost := price_per_share_eur * quantity in
  {| buy_queue := buy_queue led ++ [buy_transaction];
     total_shares := total_shares led + converted_quantity;
     total_cost := total_cost led + share_cost |}.

(** The locals of the consumption loop of a sell. *)
Record SellLoop : Type := {
  sl_ledger : LedgerState;
  remaining_to_sell : Q;
  total_cost_basis : Q
}.

(** [while remaining_to_sell > 0 and buy_queue: ...] of the sell
    branch.  After a partial consumption [remaining_to_sell] is 0, so
    the next test of the loop condition leaves the loop. *)
Fixpoint sell_loop (buy_queue : list Lot)
    (remaining_to_sell total_cost_basis total_shares total_cost : Q)
    : SellLoop :=
  match buy_queue with
  | [] =>
      {| sl_ledger := {| buy_queue := []; total_shares := total_shares;
                         total_cost := total_cost |};
         remaining_to_sell := remaining_to_sell;
         total_cost_basis := total_cost_basis |}
  | buy_transaction :: rest =>
      if 0 <? remaining_to_sell then
        if quantity buy_transaction <=? remaining_to_sell then
          let sold_quantity := quantity buy_transaction in
          let cost_basis :=
            sold_quantity * price_per_share_eur buy_transaction in
          sell_loop rest
            (remaining_to_sell - sold_quantity)
            (total_cost_basis + cost_basis)
            (total_shares - sold_quantity)
            (total_cost - cost_basis)
        else
          let sold_quantity := remaining_to_sell in
          let cost_basis :=
            sold_quantity * price_per_share_eur buy_transaction in
          let buy_transaction :=
            {| quantity := quantity buy_transaction - sold_quantity;
               price_per_share_eur := price_per_share_eur buy_transaction;
               year := year buy_transaction |} in
          {| sl_ledger := {| buy_queue := buy_transaction :: rest;
                             total_shares := total_shares - sold_quantity;
                             total_cost := total_cost - cost_basis |};
             remaining_to_sell := 0;
             total_cost_basis := total_cost_basis + cost_basis |}
      else
        {| sl_ledger := {| buy_queue := buy_queue;
                           total_shares := total_shares;
                           total_cost := total_cost |};
           remaining_to_sell := remaining_to_sell;
           total_cost_basis := total_cost_basis |}
  end.

(** The branch [trans_type == 'sell']: the ledger after the sale and
    the realized gain. *)
Definition apply_sell (conversion_ratio : Q) (transaction : Row)
    (led : LedgerState) : LedgerState * Q :=
  let quantity := Quantity (raw transaction) in
  let converted_quantity := quantity * conversion_ratio in
  let loop :=
    sell_loop (buy_queue led) converted_quantity 0
      (total_shares led) (total_cost led) in
  let share_proceeds := PricePerShareEUR transaction * quantity in
  let realized_gain := share_proceeds - total_cost_basis loop in
  (sl_ledger loop, realized_gain).

(** [while remaining_to_remove > 0 and buy_queue: ...] of the merger
    branch; the result carries [remaining_to_remove]. *)
Fixpoint remove_loop (buy_queue : list Lot)
    (remaining_to_remove total_shares total_cost : Q) : LedgerState * Q :=
  match buy_queue with
  | [] =>
      ({| buy_queue := []; total_shares := total_shares;
          total_cost := total_cost |}, remaining_to_remove)
  | buy_transaction :: rest =>
      if 0 <? remaining_to_remove then
        if quantity buy_transaction <=? remaining_to_remove then
          let removed_quantity := quantity buy_transaction in
          let cost_basis :=
            removed_quantity * price_per_share_eur buy_transaction in
          remove_loop rest
            (remaining_to_remove - removed_quantity)
            (total_shares - removed_quantity)
            (total_cost - cost_basis)
        else
          let removed_quantity := remaining_to_remove in
          let cost_basis :=
            removed_quantity * price_per_share_eur buy_transaction in
          let buy_transaction :=
            {| quantity := quantity buy_transaction - removed_quantity;
               price_per_share_eur := price_per_share_eur buy_transaction;
               year := year buy_transaction |} in
          ({| buy_queue := buy_transaction :: rest;
              total_shares := total_shares - removed_quantity;
              total_cost := total_cost - cost_basis |}, 0)
      else
        ({| buy_queue := buy_queue; total_shares := total_shares;
            total_cost := total_cost |}, remaining_to_remove)
  end.

(** The branch [trans_type in ['merger_stock', 'merger']]. *)
Definition apply_merger (transaction : Row) (led : LedgerState)
    : LedgerState :=
  let quantity := Quantity (raw transaction) in
  if quantity <? 0 then
    let shares_to_remove := Qabs quantity in
    fst (remove_loop (buy_queue led) shares_to_remove
           (total_shares led) (total_cost led))
  else led.

(** The ledger part of the branch [trans_type == 'transfer_merger']. *)
Definition apply_transfer (transaction : Row) (led : LedgerState)
    : LedgerState :=
  let quantity := Quantity (raw transaction) in
  if 0 <? quantity then
    let buy_transaction :=
      {| quantity := quantity; price_per_share_eur := 0;
         year := Year transaction |} in
    {| buy_queue := buy_queue led ++ [buy_transaction];
       total_shares := total_shares led + quantity;
       total_cost := total_cost led |}
  else led.

(** The totals after "Handle inactive stocks as losses": the queue is
    not touched by that block. *)
Definition write_off (led : LedgerState) : LedgerState :=
  {| buy_queue := buy_queue led; total_shares := 0; total_cost := 0 |}.

(** [sum(lot.quantity for lot in queue)] and
    [sum(lot.quantity * lot.unit_cost for lot in queue)]. *)
Definition queue_quantity (q : list Lot) : Q :=
  fold_right (fun lot acc => quantity lot + acc) 0 q.

Definition queue_cost (q : list Lot) : Q :=
  fold_right
    (fun lot acc => quantity lot * price_per_share_eur lot + acc) 0 q.

End Ledger.
Export Ledger.

#[global] Arguments queue_quantity : simpl never.
#[global] Arguments queue_cost : simpl never.

(* ===================================================================== *)
(** * The result dictionaries *)
(* ===================================================================== *)

Module ResultsOps.

Definition set_asset_type (v : string) (d : TickerDetail) : TickerDetail :=
  {| asset_type := v; td_yearly := td_yearly d;
     current_holdings := current_holdings d;
     avg_cost_basis := avg_cost_basis d;
     deemed_disposal_liability := deemed_disposal_liability d;
     buy_transactions := buy_transactions d; currency := currency d |}.

Definition set_td_yearly (v : gmap string (gmap Z Q)) (d : TickerDetail)
    : TickerDetail :=
  {| asset_type := asset_type d; td_yearly := v;
     current_holdings := current_holdings d;
     avg_cost_basis := avg_cost_basis d;
     deemed_disposal_liability := deemed_disposal_liability d;
     buy_transactions := buy_transactions d; currency := currency d |}.

Definition set_current_holdings (v : Q) (d : TickerDetail) : TickerDetail :=
  {| asset_type := asset_type d; td_yearly := td_yearly d;
     current_holdings := v;
     avg_cost_basis := avg_cost_basis d;
     deemed_disposal_liability := deemed_disposal_liability d;
     buy_transactions := buy_transactions d; currency := currency d |}.

Definition set_avg_cost_basis (v : Q) (d : TickerDetail) : TickerDetail :=
  {| asset_type := asset_type d; td_yearly := td_yearly d;
     current_holdings := current_holdings d;
     avg_cost_basis := v;
     deemed_disposal_liability := deemed_disposal_liability d;
     buy_transactions := buy_transactions d; currency := currency d |}.

Definition set_deemed_disposal_liability (v : Q) (d : TickerDetail)
    : TickerDetail :=
  {| asset_type := asset_type d; td_yearly := td_yearly d;
     current_holdings := current_holdings d;
     avg_cost_basis := avg_cost_basis d;
     deemed_disposal_liability := v;
     buy_transactions := buy_transactions d; currency := currency d |}.

Definition set_buy_transactions (v : list Row) (d : TickerDetail)
    : TickerDetail :=
  {| asset_type := asset_type d; td_yearly := td_yearly d;
     current_holdings := current_holdings d;
     avg_cost_basis := avg_cost_basis d;
     deemed_disposal_liability := deemed_disposal_liability d;
     buy_transactions := v; currency := currency d |}.

Definition set_currency (v : option string) (d : TickerDetail)
    : TickerDetail :=
  {| asset_type := asset_type d; td_yearly := td_yearly d;
     current_holdings := current_holdings d;
     avg_cost_basis := avg_cost_basis d;
     deemed_disposal_liability := deemed_disposal_liability d;
     buy_transactions := buy_transactions d; currency := v |}.

(** The literal assigned to [results] in [process_transactions]. *)
Definition initial_results : Results :=
  {| summary :=
       <["stocks" :=
           <["realized_gains" := ∅]>
           (<["unrealized_gains" := ∅]>
           (<["dividends" := ∅]>
           (<["dividends_irish" := ∅]>
           (<["dividends_foreign" := ∅]> ∅))))]>
       (<["etfs" :=
           <["realized_gains" := ∅]>
           (<["unrealized_gains" := ∅]>
           (<["dividends" := ∅]>
           (<["dividends_irish" := ∅]>
           (<["dividends_foreign" := ∅]>
           (<["deemed_disposal_gains" := ∅]> ∅)))))]> ∅);
     ticker_detail := ∅ |}.

(** The dictionary [d[key]] of a dictionary of yearly dictionaries. *)
Definition yearly_of (d : gmap string (gmap Z Q)) (key : string) : gmap Z Q :=
  default ∅ (d !! key).

(** [results['summary'][asset_type][key]]. *)
Definition summary_of (results : Results) (asset_type key : string)
    : gmap Z Q :=
  yearly_of (default ∅ (summary results !! asset_type)) key.

(** [results['summary'][asset_type][key][year] += x]. *)
Definition summary_add (asset_type key : string) (year : Z) (x : Q)
    (results : Results) : Results :=
  let per_asset := default ∅ (summary results !! asset_type) in
  {| summary :=
       <[asset_type :=
           <[key := yearly_add (yearly_of per_asset key) year x]> per_asset]>
       (summary results);
     ticker_detail := ticker_detail results |}.

(** [results['ticker_detail'][ticker]], read. *)
Definition detail_of (results : Results) (ticker : string) : TickerDetail :=
  default td_default (ticker_detail results !! ticker).

(** An update of [results['ticker_detail'][ticker]] in place. *)
Definition detail_update (ticker : string)
    (f : TickerDetail -> TickerDetail) (results : Results) : Results :=
  {| summary := summary results;
     ticker_detail :=
       <[ticker := f (detail_of results ticker)]> (ticker_detail results) |}.

(** [results['ticker_detail'][ticker][key][year] += x]. *)
Definition detail_add (ticker key : string) (year : Z) (x : Q)
    (results : Results) : Results :=
  detail_update ticker
    (fun d =>
       set_td_yearly
         (<[key := yearly_add (yearly_of (td_yearly d) key) year x]>
            (td_yearly d)) d)
    results.

(** The same amount booked in the summary and in the ticker detail. *)
Definition book (asset_type ticker key : string) (year : Z) (x : Q)
    (results : Results) : Results :=
  detail_add ticker key year x (summary_add asset_type key year x results).

End ResultsOps.
Export ResultsOps.

(* ===================================================================== *)
(** * improved_calculator.py: the replay and the aggregation *)
(* ===================================================================== *)

Module Calculator.

(** [x in xs] on strings. *)
Definition str_in (x : string) (xs : list string) : bool :=
  existsb (fun y => bool_decide (x = y)) xs.

(** [get_weighted_fx_rate]. *)
Definition get_weighted_fx_rate (ticker_transactions : list Row) : result Q :=
  let totals :=
    fold_left
      (fun (acc : Q * Q) tx =>
         let '(total_amount_original, total_amount_eur) := acc in
         if str_in (TransactionType tx) ["buy"; "sell"]
            && negb (bool_decide (Currency (raw tx) = Some "EUR"))
         then
           match FX_Rate (raw tx) with
           | Some fx_rate =>
               if 0 <? fx_rate then
                 let amount_eur := TotalAmountEUR tx in
                 let amount_original := amount_eur * fx_rate in
                 (total_amount_original + amount_original,
                  total_amount_eur + amount_eur)
               else acc
           | None => acc
           end
         else acc)
      ticker_transactions (0, 0) in
  let '(total_amount_original, total_amount_eur) := totals in
  if 0 <? total_amount_eur
  then Ok (total_amount_original / total_amount_eur)
  else Raise ValueError.

(** An entry of the list [deemed_disposals]. *)
Record DeemedDisposal : Type := {
  dd_ticker : string;
  dd_purchase_date : Timestamp;
  dd_years_held : Q;
  dd_cost_basis : Q;
  dd_estimated_value : Q;
  dd_taxable_gain : Q
}.

(** [calculate_deemed_disposal_liability]; [current_date] is the
    reading of the clock. *)
Definition calculate_deemed_disposal_liability (ticker : string)
    (buy_transactions : list Row) (current_date : Timestamp)
    : M (Q * Q * list DeemedDisposal) :=
  etf <- is_etf (Some ticker) ;;
  if negb etf then ret (0, 0, [])
  else
    let '(total_taxable_gain, deemed_disposals) :=
      fold_left
        (fun (acc : Q * list DeemedDisposal) tx =>
           let '(total_taxable_gain, deemed_disposals) := acc in
           let purchase_date := Date (raw tx) in
           let years_held :=
             inject_Z (days_between current_date purchase_date)
             / (36525 # 100) in
           if 8 <=? years_held then
             let cost_basis := PricePerShareEUR tx * Quantity (raw tx) in
             let estimated_current_value := cost_basis * (12 # 10) in
             let taxable_gain := estimated_current_value - cost_basis in
             (total_taxable_gain + taxable_gain,
              (deemed_disposals ++
               [{| dd_ticker := ticker;
                   dd_purchase_date := purchase_date;
                   dd_years_held := years_held;
                   dd_cost_basis := cost_basis;
                   dd_estimated_value := estimated_current_value;
                   dd_taxable_gain := taxable_gain |}])%list)
           else acc)
        buy_transactions (0, []) in
    let tax_liability := total_taxable_gain * (41 # 100) in
    ret (total_taxable_gain, tax_liability, deemed_disposals).

(** [results['ticker_detail'][ticker]['buy_transactions'].append(tx)]. *)
Definition remember_buy (ticker : string) (transaction : Row)
    (results : Results) : Results :=
  detail_update ticker
    (fun d => set_buy_transactions (buy_transactions d ++ [transaction])%list d)
    results.

(** The body of [for _, transaction in ticker_data.iterrows()]. *)
Definition process_row (ticker asset_type : string) (is_etf : bool)
    (state : Results * LedgerState) (transaction : Row)
    : M (Results * LedgerState) :=
  let '(results, led) := state in
  let year := Year transaction in
  let trans_type := TransactionType transaction in
  let quantity := Quantity (raw transaction) in
  let amount_eur := TotalAmountEUR transaction in
  if bool_decide (trans_type = "dividend") then
    let results := book asset_type ticker "dividends" year amount_eur results in
    domicile <- get_domicile (Some ticker) ;;
    if bool_decide (domicile = "IE")
    then ret (book asset_type ticker "dividends_irish" year amount_eur results, led)
    else ret (book asset_type ticker "dividends_foreign" year amount_eur results, led)
  else if bool_decide (trans_type = "buy") then
    let original_ticker := Ticker (raw transaction) in
    conversion_ratio <- get_conversion_ratio original_ticker ;;
    let results :=
      if is_etf then remember_buy ticker transaction results else results in
    ret (results, apply_buy conversion_ratio transaction led)
  else if bool_decide (trans_type = "sell") then
    let original_ticker := Ticker (raw transaction) in
    conversion_ratio <- get_conversion_ratio original_ticker ;;
    let '(led, realized_gain) := apply_sell conversion_ratio transaction led in
    ret (book asset_type ticker "realized_gains" year realized_gain results, led)
  else if str_in trans_type ["merger_stock"; "merger"] then
    ret (results, apply_merger transaction led)
  else if bool_decide (trans_type = "merger_cash") then
    if 0 <? amount_eur then
      let results := book asset_type ticker "dividends" year amount_eur results in
      ret (book asset_type ticker "dividends_foreign" year amount_eur results, led)
    else ret (results, led)
  else if bool_decide (trans_type = "transfer_merger") then
    let results :=
      if (0 <? quantity) && is_etf
      then remember_buy ticker transaction results else results in
    ret (results, apply_transfer transaction led)
  else ret (results, led).

(** [.sort_values('Date')], as a stable insertion sort. *)
Fixpoint insert_by_date (x : Row) (l : list Row) : list Row :=
  match l with
  | [] => [x]
  | y :: l' =>
      if (Date (raw x) <=? Date (raw y))%Z then x :: l
      else y :: insert_by_date x l'
  end.

Definition sort_values_Date (l : list Row) : list Row :=
  fold_right insert_by_date [] l.

(** [.unique()]: the distinct values in order of first appearance. *)
Fixpoint unique (l : list string) : list string :=
  match l with
  | [] => []
  | x :: l' =>
      x :: List.filter (fun y => negb (bool_decide (y = x))) (unique l')
  end.

(** The transaction kinds that take part in the replay. *)
Definition relevant_types : list string :=
  ["buy"; "sell"; "dividend"; "merger_stock"; "merger_cash"; "merger";
   "transfer_merger"].

End Calculator.
Export Calculator.

Module Aggregation.

(** The block "Handle inactive stocks as losses". *)
Definition handle_inactive (ticker asset_type : string) (active : bool)
    (current_year : Z) (state : Results * LedgerState)
    : Results * LedgerState :=
  let '(results, led) := state in
  if negb active && (0 <? total_shares led) then
    let loss_amount := total_cost led in
    (book asset_type ticker "realized_gains" current_year (- loss_amount)
       results,
     write_off led)
  else (results, led).

(** The block that fills [avg_cost_basis] and [currency]. *)
Definition report_cost_basis (ticker : string) (original_currency : string)
    (ticker_data : list Row) (led : LedgerState) (results : Results)
    : Results :=
  let total_shares := total_shares led in
  let total_cost := total_cost led in
  if bool_decide (original_currency = "EUR") then
    let results :=
      detail_update ticker
        (set_avg_cost_basis
           (if 0 <? total_shares then total_cost / total_shares else 0))
        results in
    detail_update ticker (set_currency (Some "EUR")) results
  else
    let results :=
      if 0 <? total_shares then
        match get_weighted_fx_rate ticker_data with
        | Ok avg_fx_rate =>
            detail_update ticker
              (set_avg_cost_basis ((total_cost * avg_fx_rate) / total_shares))
              results
        | Raise ValueError =>
            let results :=
              detail_update ticker
                (set_avg_cost_basis (total_cost / total_shares)) results in
            detail_update ticker (set_currency (Some "EUR")) results
        end
      else detail_update ticker (set_avg_cost_basis 0) results in
    detail_update ticker (set_currency (Some original_currency)) results.

(** The body of [for ticker in relevant_df['NormalizedTicker'].unique()];
    [now] is what the clock reads during the run. *)
Definition process_ticker (now : Timestamp) (relevant_df : list Row)
    (results : Results) (ticker : string) : M Results :=
  let ticker_data :=
    sort_values_Date
      (List.filter
         (fun row => bool_decide (NormalizedTicker row = Some ticker))
         relevant_df) in
  etf <- is_etf (Some ticker) ;;
  let asset_type := if etf then "etfs" else "stocks" in
  let results := detail_update ticker (set_asset_type asset_type) results in
  state <- foldM (process_row ticker asset_type etf)
             (results, empty_ledger) ticker_data ;;
  active <- is_active (Some ticker) ;;
  let '(results, led) :=
    handle_inactive ticker asset_type active (year_of now) state in
  results <-
    (if etf
        && negb (bool_decide (buy_transactions (detail_of results ticker) = []))
     then
       deemed <- calculate_deemed_disposal_liability ticker
                   (buy_transactions (detail_of results ticker)) now ;;
       let '(taxable_gain, tax_liability, _) := deemed in
       let results :=
         detail_update ticker (set_deemed_disposal_liability tax_liability)
           results in
       if 0 <? taxable_gain then
         ret (summary_add "etfs" "deemed_disposal_gains" (year_of now)
                taxable_gain results)
       else ret results
     else ret results) ;;
  let results :=
    detail_update ticker (set_current_holdings (total_shares led)) results in
  ticker_info <- get_ticker_info (Some ticker) ;;
  match ticker_info with
  | None => raise ValueError
  | Some info =>
      let original_currency := default "USD" (ti_currency info) in
      ret (report_cost_basis ticker original_currency ticker_data led results)
  end.

(** The first three statements of [process_transactions] on one row:
    the parsed date, [Year] and the first [TransactionType]. *)
Definition init_row (r : RawRow) : Row :=
  {| raw := r;
     Year := year_of (Date r);
     TransactionType := classify_transaction_type (Type_ r);
     NormalizedTicker := None;
     IsETF := false;
     IsActive := true;
     TotalAmountFloat := 0;
     PricePerShareFloat := 0;
     TotalAmountEUR := 0;
     PricePerShareEUR := 0;
     FeesEUR := 0 |}.

(** The loop that collects [merger_tickers]. *)
Definition find_merger_tickers (rows : list Row) : M (gset string) :=
  foldM
    (fun (merger_tickers : gset string) row =>
       if str_in (TransactionType row) ["merger_stock"; "merger_cash"; "merger"]
       then
         ticker <- normalize_ticker (Ticker (raw row)) ;;
         match ticker with
         | Some t =>
             if bool_decide (t = "") then ret merger_tickers
             else ret ({[t]} ∪ merger_tickers)
         | None => ret merger_tickers
         end
       else ret merger_tickers)
    ∅ rows.

(** The local function [classify_transfer]. *)
Definition classify_transfer (merger_tickers : gset string) (row : Row)
    : M string :=
  if bool_decide (TransactionType row = "transfer_broker") then
    ticker <- normalize_ticker (Ticker (raw row)) ;;
    match ticker with
    | Some t =>
        if bool_decide (t ∈ merger_tickers) then ret "transfer_merger"
        else ret "ignore"
    | None => ret "ignore"
    end
  else ret (TransactionType row).

(** A column assignment [df[col] = df.apply(f, axis=1)]. *)
Definition assign {A : Type} (set : A -> Row -> Row) (f : Row -> M A)
    (rows : list Row) : M (list Row) :=
  mapM (fun row => v <- f row ;; ret (set v row)) rows.

(** [process_transactions(df, store_transactions)]. *)
Definition process_transactions (now : Timestamp) (df : list RawRow)
    (store_transactions : bool) : M Results :=
  let df := map init_row df in
  merger_tickers <- find_merger_tickers df ;;
  df <- assign set_TransactionType (classify_transfer merger_tickers) df ;;
  df <- assign set_NormalizedTicker
          (fun row =>
             if str_in (TransactionType row) relevant_types
             then normalize_ticker (Ticker (raw row))
             else ret None) df ;;
  df <- assign set_IsETF
          (fun row =>
             match NormalizedTicker row with
             | Some x => is_etf (Some x)
             | None => ret false
             end) df ;;
  df <- assign set_IsActive
          (fun row =>
             match NormalizedTicker row with
             | Some x => is_active (Some x)
             | None => ret true
             end) df ;;
  df <- assign set_TotalAmountFloat
          (fun row => lift (parse_amount (Total_Amount (raw row)))) df ;;
  df <- assign set_PricePerShareFloat
          (fun row => lift (parse_amount (Price_per_share (raw row)))) df ;;
  df <- assign set_TotalAmountEUR
          (fun row =>
             lift (convert_to_eur (TotalAmountFloat row)
                     (Currency (raw row)) (FX_Rate (raw row)))) df ;;
  df <- assign set_PricePerShareEUR
          (fun row =>
             lift (convert_to_eur (PricePerShareFloat row)
                     (Currency (raw row)) (FX_Rate (raw row)))) df ;;
  df <- assign set_FeesEUR
          (fun row =>
             ret (if str_in (TransactionType row) ["buy"; "sell"]
                     && (0 <? Quantity (raw row))
                  then TotalAmountEUR row
                       - PricePerShareEUR row * Quantity (raw row)
                  else 0)) df ;;
  let relevant_df :=
    List.filter (fun row => str_in (TransactionType row) relevant_types) df in
  let relevant_df :=
    List.filter
      (fun row =>
         match NormalizedTicker row with Some _ => true | None => false end)
      relevant_df in
  let relevant_df :=
    List.filter
      (fun row => negb (bool_decide (NormalizedTicker row = Some "None")))
      relevant_df in
  (if store_transactions
   then modify_world (set_transaction_history (Some df))
   else ret tt) ;;
  let tickers :=
    unique (omap NormalizedTicker relevant_df) in
  foldM (process_ticker now relevant_df) initial_results tickers.

(** The dictionary entry that [calculate_dividend_taxes] builds for one
    year, if any. *)
Definition dividend_tax_of_year (results : Results) (margin_rate : Q)
    (year : Z) : option TaxCalculations.DividendTax :=
  let stock_dividends_irish :=
    yearly_get (summary_of results "stocks" "dividends_irish") year in
  let stock_dividends_foreign :=
    yearly_get (summary_of results "stocks" "dividends_foreign") year in
  let total_irish_dividends := stock_dividends_irish in
  let total_foreign_dividends := stock_dividends_foreign in
  let total_dividends := total_irish_dividends + total_foreign_dividends in
  if 0 <? total_dividends then
    let irish_dwt_credit := total_irish_dividends * (25 # 100) in
    let foreign_withholding_credit := total_foreign_dividends * (15 # 100) in
    let gross_dividend_income := total_dividends in
    let income_tax_due := gross_dividend_income * (margin_rate / 100) in
    let total_credits := irish_dwt_credit + foreign_withholding_credit in
    let net_tax_due := pymax 0 (income_tax_due - total_credits) in
    let refund_due := pymax 0 (total_credits - income_tax_due) in
    Some {| TaxCalculations.gross_dividend_income := gross_dividend_income;
            TaxCalculations.irish_dividends := total_irish_dividends;
            TaxCalculations.foreign_dividends := total_foreign_dividends;
            TaxCalculations.irish_dwt_credit := irish_dwt_credit;
            TaxCalculations.foreign_withholding_credit :=
              foreign_withholding_credit;
            TaxCalculations.total_credits := total_credits;
            TaxCalculations.income_tax_due := income_tax_due;
            TaxCalculations.net_tax_due := net_tax_due;
            TaxCalculations.refund_due := refund_due;
            TaxCalculations.margin_rate := margin_rate |}
  else None.

(** The years under [key] of every asset class of the summary. *)
Definition years_with (results : Results) (key : string) : gset Z :=
  ⋃ (map (fun per_asset => dom (yearly_of per_asset.2 key))
       (map_to_list (summary results))).

(** [calculate_dividend_taxes]: the returned dictionary, keyed by year. *)
Definition calculate_dividend_taxes (results : Results) (margin_rate : Q)
    : gmap Z TaxCalculations.DividendTax :=
  let all_years := years_with results "dividends" in
  fold_left
    (fun dividend_tax_summary year =>
       match dividend_tax_of_year results margin_rate year with
       | Some entry => <[year := entry]> dividend_tax_summary
       | None => dividend_tax_summary
       end)
    (merge_sort Z.le (elements all_years)) ∅.

(** The stock CGT figures of [generate_report], year by year: the loop
    over [sorted(all_years)] that threads [accumulated_losses]. *)
Definition generate_report_cgt (results : Results)
    : list (Z * (Q * Q * Q * Q)) :=
  let all_years :=
    years_with results "realized_gains" ∪ years_with results "dividends" in
  let cgt_exemption := 1270 in
  snd
    (fold_left
       (fun (acc : Q * list (Z * (Q * Q * Q * Q))) year =>
          let '(accumulated_losses, lines) := acc in
          let stock_realized :=
            yearly_get (summary_of results "stocks" "realized_gains") year in
          let figures :=
            TaxCalculations.apply_cgt_with_loss_carry_forward stock_realized
              accumulated_losses cgt_exemption in
          (snd figures, (lines ++ [(year, figures)])%list))
       (merge_sort Z.le (elements all_years)) (0, [])).

End Aggregation.
Export Aggregation.

(* ===================================================================== *)
(** * Concrete inputs used by the examples *)
(* ===================================================================== *)

Module Fixtures.

Definition mk_info (type currency : string) (active : bool)
    (conversion_ratio : Q) (domicile : string) : TickerInfo :=
  {| ti_type := type; ti_currency := Some currency;
     ti_active := Some active; ti_merged_into := None;
     ti_conversion_ratio := Some conversion_ratio;
     ti_withholding_tax_deducted := Some false;
     ti_domicile := Some domicile |}.

(** A calculator that knows one active stock, one delisted stock and
    two stocks whose conversion ratios are zero and negative; the cache
    file is empty and the service classifies every ticker as an Irish
    fund. *)
Definition sample_world : World :=
  {| ticker_cache :=
       <["ACME" := mk_info "stock" "EUR" true 1 "IE"]>
       (<["DEAD" := mk_info "stock" "EUR" false 1 "US"]>
       (<["ZERO" := mk_info "stock" "EUR" true 0 "US"]>
       (<["NEGR" := mk_info "stock" "EUR" true (-1) "US"]> ∅)));
     cache_file := ∅;
     yfinance := fun _ =>
       {| yf_quoteType := Some "ETF"; yf_currency := Some "EUR";
          yf_country := Some "Ireland" |};
     transaction_history := None |}.

(** A row of the working frame with its computed columns filled in. *)
Definition mk_row (ticker type : string) (year : Z) (quantity price : Q)
    : Row :=
  {| raw := {| Date := 0%Z; Ticker := Some ticker; Type_ := Some type;
               Quantity := quantity; Price_per_share := None;
               Total_Amount := None; Currency := Some "EUR";
               FX_Rate := None |};
     Year := year;
     TransactionType := type;
     NormalizedTicker := Some ticker;
     IsETF := false;
     IsActive := true;
     TotalAmountFloat := price * quantity;
     PricePerShareFloat := price;
     TotalAmountEUR := price * quantity;
     PricePerShareEUR := price;
     FeesEUR := 0 |}.

(** Buys of one share at 10, 20 and 30, then a sale of two at 50. *)
Definition three_buys : list Row :=
  [mk_row "ACME" "buy" 2020 1 10; mk_row "ACME" "buy" 2020 1 20;
   mk_row "ACME" "buy" 2020 1 30].

Definition sell_two : Row := mk_row "ACME" "sell" 2021 2 50.

Definition lot_of (quantity price : Q) : Lot :=
  {| quantity := quantity; price_per_share_eur := price; year := 2020 |}.

(** A row of an input file. *)
Definition mk_raw (date : Z) (ticker type : string) (quantity : Q)
    (price total : string) (currency : string) (fx_rate : option Q)
    : RawRow :=
  {| Date := date; Ticker := Some ticker; Type_ := Some type;
     Quantity := quantity; Price_per_share := Some (codepoints price);
     Total_Amount := Some (codepoints total); Currency := Some currency;
     FX_Rate := fx_rate |}.

(** A small export: three buys and a sale of a known stock, a buy of a
    fund the calculator has not seen yet, a dividend and a top-up. *)
Definition sample_df : list RawRow :=
  [mk_raw 1600000000 "ACME" "BUY - MARKET" 1 "10" "10" "EUR" None;
   mk_raw 1600100000 "ACME" "BUY - MARKET" 1 "20" "20" "EUR" None;
   mk_raw 1600200000 "vusa" "BUY - MARKET" 2 "$50" "$100" "USD" (Some 1);
   mk_raw 1600300000 "ACME" "BUY - MARKET" 1 "30" "30" "EUR" None;
   mk_raw 1600400000 "ACME" "SELL - MARKET" 2 "50" "100" "EUR" None;
   mk_raw 1600500000 "ACME" "DIVIDEND" 0 "" "3" "EUR" None;
   mk_raw 1600600000 "ACME" "CASH TOP-UP" 0 "" "25" "EUR" None].

Definition sample_now : Timestamp := 1700000000%Z.

(** A summary whose only entries are a stock loss of 500 in 2022 and a
    stock gain of 2000 in 2023. *)
Definition loss_then_gain : Results :=
  summary_add "stocks" "realized_gains" 2023 2000
    (summary_add "stocks" "realized_gains" 2022 (-500) initial_results).

(** The summary of a year with 1,000 of Irish stock dividends. *)
Definition irish_dividend_results : Results :=
  summary_add "stocks" "dividends_irish" 2023 1000
    (summary_add "stocks" "dividends" 2023 1000 initial_results).

End Fixtures.
Export Fixtures.

(* ===================================================================== *)
(** * The stock CGT rule as the specification words it *)
(* ===================================================================== *)

Module CgtSpec.

(** The exemption is applied to positive gains only, up to the gain;
    the carried-forward loss is consumed against the positive
    remainder, capped at it; the nonnegative remainder is taxed at 33%;
    a negative post-exemption figure is added to the accumulator. *)
Definition stock_cgt_spec (gain losses exemption : Q) : Q * Q * Q * Q :=
  let exemption_used := if 0 <? gain then Qmin gain exemption else 0 in
  let post_exemption := gain - exemption_used in
  let loss_used :=
    if 0 <? post_exemption then Qmin post_exemption losses else 0 in
  let taxable := Qmax 0 (post_exemption - loss_used) in
  let new_loss := if post_exemption <? 0 then - post_exemption else 0 in
  (taxable, taxable * (33 # 100), loss_used, losses - loss_used + new_loss).

(** Componentwise equality of two result tuples as amounts. *)
Definition tuple4_eq (a b : Q * Q * Q * Q) : Prop :=
  let '(a1, a2, a3, a4) := a in
  let '(b1, b2, b3, b4) := b in
  a1 == b1 /\ a2 == b2 /\ a3 == b3 /\ a4 == b4.

End CgtSpec.
Export CgtSpec.

(* ===================================================================== *)
(** * Properties stated about the calculator *)
(* ===================================================================== *)

Module Properties.

(** The rules of the dividend computation, for a gross income, its
    Irish and foreign parts and a marginal rate in percent. *)
Definition dividend_rules (t : TaxCalculations.DividendTax)
    (income irish foreign rate : Q) : Prop :=
  TaxCalculations.gross_dividend_income t == income
  /\ TaxCalculations.irish_dwt_credit t == (25 # 100) * irish
  /\ TaxCalculations.foreign_withholding_credit t == (15 # 100) * foreign
  /\ TaxCalculations.total_credits t
     == TaxCalculations.irish_dwt_credit t
        + TaxCalculations.foreign_withholding_credit t
  /\ TaxCalculations.income_tax_due t == income * rate / 100
  /\ TaxCalculations.net_tax_due t
     == Qmax 0 (TaxCalculations.income_tax_due t
                - TaxCalculations.total_credits t)
  /\ TaxCalculations.refund_due t
     == Qmax 0 (TaxCalculations.total_credits t
                - TaxCalculations.income_tax_due t)
  /\ 0 <= TaxCalculations.net_tax_due t
  /\ 0 <= TaxCalculations.refund_due t.

(** A text without any digit. *)
Definition no_digit (s : list N) : Prop :=
  Forall (fun c => is_digit c = false) s.

(** The running totals agree with the queue. *)
Definition ledger_shares_ok (led : LedgerState) : Prop :=
  total_shares led == queue_quantity (buy_queue led).

Definition ledger_cost_ok (led : LedgerState) : Prop :=
  total_cost led == queue_cost (buy_queue led).

Definition ledger_consistent (led : LedgerState) : Prop :=
  ledger_shares_ok led /\ ledger_cost_ok led.

Definition lots_positive (q : list Lot) : Prop :=
  Forall (fun lot => 0 < quantity lot) q.

Definition lots_nonnegative (q : list Lot) : Prop :=
  Forall (fun lot => 0 <= quantity lot) q.

(** The conversion ratio that [get_conversion_ratio] reads for the
    original ticker of a row from a cache that holds the ticker. *)
Definition conversion_ratio_in (cache : gmap string TickerInfo) (row : Row)
    : Q :=
  match Ticker (raw row) with
  | Some t =>
      match cache !! upper t with
      | Some info => default 1 (ti_conversion_ratio info)
      | None => 1
      end
  | None => 1
  end.

(** What one row of the replay does to the ledger, given the
    conversion ratio of its original ticker. *)
Definition ledger_step (conversion_ratio : Q) (row : Row)
    (led : LedgerState) : LedgerState :=
  let trans_type := TransactionType row in
  if bool_decide (trans_type = "buy") then apply_buy conversion_ratio row led
  else if bool_decide (trans_type = "sell")
  then fst (apply_sell conversion_ratio row led)
  else if str_in trans_type ["merger_stock"; "merger"]
  then apply_merger row led
  else if bool_decide (trans_type = "transfer_merger")
  then apply_transfer row led
  else led.

(** The ledger after a list of rows. *)
Definition replay (ratio_of : Row -> Q) (rows : list Row)
    (led : LedgerState) : LedgerState :=
  fold_left (fun led row => ledger_step (ratio_of row) row led) rows led.

(** Converted quantities bought and sold by a list of rows. *)
Definition converted_quantity (ratio_of : Row -> Q) (row : Row) : Q :=
  Quantity (raw row) * ratio_of row.

Definition bought (ratio_of : Row -> Q) (rows : list Row) : Q :=
  fold_right
    (fun row acc =>
       if bool_decide (TransactionType row = "buy")
       then converted_quantity ratio_of row + acc else acc) 0 rows.

Definition sold (ratio_of : Row -> Q) (rows : list Row) : Q :=
  fold_right
    (fun row acc =>
       if bool_decide (TransactionType row = "sell")
       then converted_quantity ratio_of row + acc else acc) 0 rows.

(** Only buys and sells, and no sell of more than is held ([held] is
    the quantity held before the rows). *)
Fixpoint no_oversell (ratio_of : Row -> Q) (rows : list Row) (held : Q)
    : Prop :=
  match rows with
  | [] => True
  | row :: rest =>
      if bool_decide (TransactionType row = "buy") then
        no_oversell ratio_of rest (held + converted_quantity ratio_of row)
      else if bool_decide (TransactionType row = "sell") then
        0 <= converted_quantity ratio_of row
        /\ converted_quantity ratio_of row <= held
        /\ no_oversell ratio_of rest (held - converted_quantity ratio_of row)
      else False
  end.

(** The tickers that [get_ticker_info] does not look up. *)
Definition skipped (ticker : option string) : bool :=
  match ticker with
  | None => true
  | Some t =>
      bool_decide (t = "")
      || (bool_decide (upper t = "NONE") || bool_decide (upper t = "NAN"))
  end.

(** What the resolver answers for a cache key in a world: the entry of
    the calculator's cache, else the entry of the cache file, else the
    entry derived from the instrument service. *)
Definition resolve (w : World) (key : string) : TickerInfo :=
  match ticker_cache w !! key with
  | Some info => info
  | None =>
      match cache_file w !! key with
      | Some info => info
      | None => entry_of_yfinance (yfinance w key)
      end
  end.

(** A computation is stable when it only adds entries to the
    calculator's ticker cache, leaves the answers of the resolver as
    they were, and gives the same outcome in every world whose
    resolver answers alike on the keys its run has left in the cache. *)
Definition stable {A : Type} (m : M A) : Prop :=
  forall (w : World) (r : result A) (w1 : World),
    m w = (r, w1) ->
    ticker_cache w ⊆ ticker_cache w1
    /\ (forall key, resolve w1 key = resolve w key)
    /\ forall w2 : World,
         (forall key, is_Some (ticker_cache w1 !! key) ->
                      resolve w2 key = resolve w1 key) ->
         exists w3 : World, m w2 = (r, w3).

(** The consumption loop of a sell, one test of its condition at a
    time: it stops on an empty queue or when nothing remains to sell;
    it dequeues a front lot that fits into the remaining quantity and
    goes on; it takes the remaining quantity out of a larger front lot
    and stops with nothing remaining. *)
Definition fifo_loop_rules : Prop :=
  forall (lot : Lot) (rest : list Lot) (rem tcb ts tc : Q),
    sell_loop [] rem tcb ts tc
    = {| sl_ledger := {| buy_queue := []; total_shares := ts;
                         total_cost := tc |};
         remaining_to_sell := rem; total_cost_basis := tcb |}
    /\ (rem <= 0 ->
        sell_loop (lot :: rest) rem tcb ts tc
        = {| sl_ledger := {| buy_queue := lot :: rest; total_shares := ts;
                             total_cost := tc |};
             remaining_to_sell := rem; total_cost_basis := tcb |})
    /\ (0 < rem -> quantity lot <= rem ->
        sell_loop (lot :: rest) rem tcb ts tc
        = sell_loop rest (rem - quantity lot)
            (tcb + quantity lot * price_per_share_eur lot)
            (ts - quantity lot)
            (tc - quantity lot * price_per_share_eur lot))
    /\ (0 < rem -> rem < quantity lot ->
        sell_loop (lot :: rest) rem tcb ts tc
        = {| sl_ledger :=
               {| buy_queue :=
                    {| quantity := quantity lot - rem;
                       price_per_share_eur := price_per_share_eur lot;
                       year := year lot |} :: rest;
                  total_shares := ts - rem;
                  total_cost := tc - rem * price_per_share_eur lot |};
             remaining_to_sell := 0;
             total_cost_basis := tcb + rem * price_per_share_eur lot |}).

(** [results['ticker_detail'][ticker][key][year]], read. *)
Definition detail_yearly (results : Results) (ticker key : string)
    (year : Z) : Q :=
  yearly_get (yearly_of (td_yearly (detail_of results ticker)) key) year.

End Properties.
Export Properties.

(* ===================================================================== *)
(** * improved_calculator.py: the summary rows of [export_to_csv] *)
(* ===================================================================== *)

From Stdlib Require Import Qround.

Module CsvExport.

(** [round(x)] on an exact amount: the nearest integer, the even one on
    a tie. *)
Definition round_half_even (x : Q) : Z :=
  let n := Qfloor x in
  let frac := x - inject_Z n in
  if frac <? 1 # 2 then n
  else if (1 # 2) <? frac then (n + 1)%Z
  else if Z.even n then n else (n + 1)%Z.

(** [round(x, 2)]. *)
Definition round2 (x : Q) : Q := inject_Z (round_half_even (x * 100)) / 100.

(** The dictionary of a year's stocks row; ['Asset_Type'] is
    ['Stocks'] and ['Tax_Rate'] is ['33%']. *)
Record StocksRow : Type := {
  stocks_Year : Z;
  Realized_Gains_Gross_EUR : Q;
  CGT_Exemption_Applied_EUR : Q;
  Carry_Forward_Loss_Used_EUR : Q;
  Taxable_Gains_Net_EUR : Q;
  Tax_Liability_EUR : Q;
  Losses_Carried_Forward_EUR : Q;
  Dividends_Irish_EUR : Q;
  Dividends_Foreign_EUR : Q;
  Total_Dividends_EUR : Q
}.

(** The dictionary of a year's funds row; ['Asset_Type'] is ['ETFs']
    and ['Tax_Rate'] is ['41%']. *)
Record EtfsRow : Type := {
  etfs_Year : Z;
  Realized_Gains_EUR : Q;
  Dividends_EUR : Q;
  Deemed_Disposal_Gains_EUR : Q;
  Total_Taxable_EUR : Q;
  Exit_Tax_Liability_EUR : Q
}.

Inductive SummaryRow : Type :=
| Stocks (row : StocksRow)
| ETFs (row : EtfsRow).

(** The list [summary_rows] that [export_to_csv] writes to the summary
    file: the loop over [sorted(all_years)]. *)
Definition export_to_csv_summary_rows (results : Results)
    : list SummaryRow :=
  let all_years :=
    years_with results "realized_gains" ∪ years_with results "dividends"
    ∪ years_with results "deemed_disposal_gains" in
  let cgt_exemption := 1270 in
  snd
    (fold_left
       (fun (acc : Q * list SummaryRow) year =>
          let '(accumulated_losses, summary_rows) := acc in
          let stock_realized :=
            yearly_get (summary_of results "stocks" "realized_gains") year in
          let stock_dividends :=
            yearly_get (summary_of results "stocks" "dividends") year in
          let stock_dividends_irish :=
            yearly_get (summary_of results "stocks" "dividends_irish") year in
          let stock_dividends_foreign :=
            yearly_get (summary_of results "stocks" "dividends_foreign")
              year in
          let after_exemption :=
            if 0 <? stock_realized
            then stock_realized - pymin stock_realized cgt_exemption
            else stock_realized in
          let carry_forward_used := 0 in
          let '(carry_forward_used, accumulated_losses, after_exemption) :=
            if (0 <? after_exemption) && (0 <? accumulated_losses) then
              let carry_forward_used :=
                pymin after_exemption accumulated_losses in
              (carry_forward_used,
               accumulated_losses - carry_forward_used,
               after_exemption - carry_forward_used)
            else (carry_forward_used, accumulated_losses, after_exemption) in
          let stock_taxable := pymax 0 after_exemption in
          let stock_cgt_liability := stock_taxable * (33 # 100) in
          let accumulated_losses :=
            if after_exemption <? 0
            then accumulated_losses + Qabs after_exemption
            else accumulated_losses in
          let etf_realized :=
            yearly_get (summary_of results "etfs" "realized_gains") year in
          let etf_dividends :=
            yearly_get (summary_of results "etfs" "dividends") year in
          let etf_deemed :=
            yearly_get (summary_of results "etfs" "deemed_disposal_gains")
              year in
          let etf_total_taxable := etf_realized + etf_dividends + etf_deemed in
          let etf_exit_tax_liability := etf_total_taxable * (41 # 100) in
          (accumulated_losses,
           (summary_rows ++
            [Stocks
               {| stocks_Year := year;
                  Realized_Gains_Gross_EUR := round2 stock_realized;
                  CGT_Exemption_Applied_EUR :=
                    round2 (if 0 <? stock_realized
                            then pymin stock_realized cgt_exemption else 0);
                  Carry_Forward_Loss_Used_EUR := round2 carry_forward_used;
                  Taxable_Gains_Net_EUR := round2 stock_taxable;
                  Tax_Liability_EUR := round2 stock_cgt_liability;
                  Losses_Carried_Forward_EUR := round2 accumulated_losses;
                  Dividends_Irish_EUR := round2 stock_dividends_irish;
                  Dividends_Foreign_EUR := round2 stock_dividends_foreign;
                  Total_Dividends_EUR := round2 stock_dividends |};
             ETFs
               {| etfs_Year := year;
                  Realized_Gains_EUR := round2 etf_realized;
                  Dividends_EUR := round2 etf_dividends;
                  Deemed_Disposal_Gains_EUR := round2 etf_deemed;
                  Total_Taxable_EUR := round2 etf_total_taxable;
                  Exit_Tax_Liability_EUR := round2 etf_exit_tax_liability |}])
           %list))
       (merge_sort Z.le (elements all_years)) (0, [])).

End CsvExport.
Export CsvExport.

(* ===================================================================== *)
(** * Further notions used in the statements *)
(* ===================================================================== *)

Module Notions.

(** The stock gain of a year as the report and the export read it. *)
Definition stock_gain (results : Results) (year : Z) : Q :=
  yearly_get (summary_of results "stocks" "realized_gains") year.

(** The accumulator and the carry-forward used of a line of figures. *)
Definition line_accumulated (line : Z * (Q * Q * Q * Q)) : Q :=
  let '(_, (_, _, _, accumulated_losses)) := line in accumulated_losses.

Definition line_used (line : Z * (Q * Q * Q * Q)) : Q :=
  let '(_, (_, _, carry_forward_used, _)) := line in carry_forward_used.

(** The accumulator after some lines of the report: that of the last
    line, zero before the first. *)
Definition accumulated_after (lines : list (Z * (Q * Q * Q * Q))) : Q :=
  match last lines with
  | Some line => line_accumulated line
  | None => 0
  end.

(** The carry-forward used by some lines, and the losses of their
    years. *)
Definition total_used (lines : list (Z * (Q * Q * Q * Q))) : Q :=
  fold_right (fun line total => line_used line + total) 0 lines.

Definition total_losses (results : Results)
    (lines : list (Z * (Q * Q * Q * Q))) : Q :=
  fold_right
    (fun line total => pymax 0 (- stock_gain results (fst line)) + total)
    0 lines.

(** The figures of the years of a list, computed one after the other
    from an accumulator. *)
Fixpoint cgt_lines (results : Results) (accumulated_losses : Q)
    (years : list Z) : list (Z * (Q * Q * Q * Q)) :=
  match years with
  | [] => []
  | year :: years' =>
      let figures :=
        TaxCalculations.apply_cgt_with_loss_carry_forward
          (stock_gain results year) accumulated_losses 1270 in
      (year, figures) :: cgt_lines results (snd figures) years'
  end.

(** The two rows that the export writes for a year, from the year's
    line of figures. *)
Definition stocks_row_of (results : Results) (line : Z * (Q * Q * Q * Q))
    : StocksRow :=
  let '(year, (taxable, liability, used, accumulated)) := line in
  {| stocks_Year := year;
     Realized_Gains_Gross_EUR := round2 (stock_gain results year);
     CGT_Exemption_Applied_EUR :=
       round2 (TaxCalculations.get_exemption_applied
                 (stock_gain results year) 1270);
     Carry_Forward_Loss_Used_EUR := round2 used;
     Taxable_Gains_Net_EUR := round2 taxable;
     Tax_Liability_EUR := round2 liability;
     Losses_Carried_Forward_EUR := round2 accumulated;
     Dividends_Irish_EUR :=
       round2 (yearly_get (summary_of results "stocks" "dividends_irish")
                 year);
     Dividends_Foreign_EUR :=
       round2 (yearly_get (summary_of results "stocks" "dividends_foreign")
                 year);
     Total_Dividends_EUR :=
       round2 (yearly_get (summary_of results "stocks" "dividends") year) |}.

Definition etfs_row_of (results : Results) (year : Z) : EtfsRow :=
  let etf_realized :=
    yearly_get (summary_of results "etfs" "realized_gains") year in
  let etf_dividends :=
    yearly_get (summary_of results "etfs" "dividends") year in
  let etf_deemed :=
    yearly_get (summary_of results "etfs" "deemed_disposal_gains") year in
  let figures :=
    TaxCalculations.calculate_etf_exit_tax etf_realized etf_dividends
      etf_deemed in
  {| etfs_Year := year;
     Realized_Gains_EUR := round2 etf_realized;
     Dividends_EUR := round2 etf_dividends;
     Deemed_Disposal_Gains_EUR := round2 etf_deemed;
     Total_Taxable_EUR := round2 (fst figures);
     Exit_Tax_Liability_EUR := round2 (snd figures) |}.

(** The buy rows that the eight-year rule catches at [current_date]:
    those at least 2,922 days old. *)
Definition held_eight_years (current_date : Timestamp) (tx : Row) : bool :=
  (2922 <=? days_between current_date (Date (raw tx)))%Z.

(** The cost of the rows that the rule catches, price by quantity. *)
Definition deemed_cost_basis (current_date : Timestamp) (rows : list Row)
    : Q :=
  fold_right
    (fun tx total =>
       if held_eight_years current_date tx
       then PricePerShareEUR tx * Quantity (raw tx) + total
       else total)
    0 rows.

(** The rows whose amounts [get_weighted_fx_rate] weighs: buys and
    sells in another currency than the euro with a positive rate. *)
Definition fx_weighted (tx : Row) : bool :=
  str_in (TransactionType tx) ["buy"; "sell"]
  && negb (bool_decide (Currency (raw tx) = Some "EUR"))
  && match FX_Rate (raw tx) with
     | Some fx_rate => 0 <? fx_rate
     | None => false
     end.

(** The euro amounts of the weighed rows. *)
Definition fx_total_eur (rows : list Row) : Q :=
  fold_right
    (fun tx total => if fx_weighted tx then TotalAmountEUR tx + total else total)
    0 rows.

(** [results['summary'][asset_type][key][year]], read. *)
Definition summary_yearly (results : Results) (asset_type key : string)
    (year : Z) : Q :=
  yearly_get (summary_of results asset_type key) year.

(** The dividends of every asset class and of every ticker are the sum
    of their Irish and foreign parts, year by year. *)
Definition dividends_split (results : Results) : Prop :=
  (forall (asset_type : string) (year : Z),
      summary_yearly results asset_type "dividends" year
      == summary_yearly results asset_type "dividends_irish" year
         + summary_yearly results asset_type "dividends_foreign" year)
  /\ (forall (ticker : string) (year : Z),
         detail_yearly results ticker "dividends" year
         == detail_yearly results ticker "dividends_irish" year
            + detail_yearly results ticker "dividends_foreign" year).

(** The rows whose amounts [convert_to_eur] accepts: in euro, or in
    dollars with a positive rate. *)
Definition convertible (row : RawRow) : bool :=
  bool_decide (Currency row = Some "EUR")
  || (bool_decide (Currency row = Some "USD")
      && match FX_Rate row with
         | Some fx_rate => 0 <? fx_rate
         | None => false
         end).

(** A computation that neither reads nor writes the stored transaction
    history: with another history it gives the same outcome and leaves
    the same world, but for that history. *)
Definition history_blind {A : Type} (m : M A) : Prop :=
  forall (w : World) (h : option (list Row)),
    m (set_transaction_history h w)
    = (fst (m w), set_transaction_history h (snd (m w))).

(** The merge targets that the resolver names are tickers that are
    looked up: none is spelled NONE or NAN. *)
Definition merge_targets_named (w : World) : Prop :=
  forall (key target : string),
    merged_target (resolve w key) = Some target ->
    skipped (Some target) = false.





(** Results that differ in the detail of one ticker only, and there
    not in the asset class. *)
Definition same_but (ticker : string) (r r' : Results) : Prop :=
  (forall other : string,
      other <> ticker ->
      ticker_detail r' !! other = ticker_detail r !! other)
  /\ asset_type (detail_of r' ticker) = asset_type (detail_of r ticker).

(** What a detail says of its ticker, given the resolver of the world
    the run started in. *)
Definition detail_sound (w : World) (t : string) (d : TickerDetail) : Prop :=
  asset_type d
  = (if bool_decide (ti_type (resolve w (upper t)) = "etf")
     then "etfs" else "stocks")
  /\ (default true (ti_active (resolve w (upper t))) = false ->
      current_holdings d <= 0).

End Notions.
Export Notions.


(* ===================================================================== *)
(** * Further inputs used by the examples *)
(* ===================================================================== *)

Module MoreFixtures.

(** A dollar row of the working frame: the euro price is given, the
    dollar figures follow from the rate. *)
Definition usd_row (type : string) (year : Z)
    (quantity price_eur fx_rate : Q) : Row :=
  {| raw := {| Date := 0%Z; Ticker := Some "MSFT"; Type_ := Some type;
               Quantity := quantity; Price_per_share := None;
               Total_Amount := None; Currency := Some "USD";
               FX_Rate := Some fx_rate |};
     Year := year;
     TransactionType := type;
     NormalizedTicker := Some "MSFT";
     IsETF := false;
     IsActive := true;
     TotalAmountFloat := price_eur * quantity * fx_rate;
     PricePerShareFloat := price_eur * fx_rate;
     TotalAmountEUR := price_eur * quantity;
     PricePerShareEUR := price_eur;
     FeesEUR := 0 |}.

(** One share bought for 100 euro at a rate of 1.1 and one bought for
    300 euro at a rate of 1.2. *)
Definition two_usd_buys : list Row :=
  [usd_row "buy" 2020 1 100 (11 # 10); usd_row "buy" 2021 1 300 (12 # 10)].

End MoreFixtures.
Export MoreFixtures.

(* ===================================================================== *)
(** * The ledger with rounded arithmetic *)
(* ===================================================================== *)

From Stdlib Require Import Qpower.

Module Rounded.



Section Arithmetic.

(** The rounding of the result of each arithmetic operation on floats:
    [a + b] of the source is [rnd (a + b)]. *)
Variable rnd : Q -> Q.

(** The branch [trans_type == 'buy']. *)
Definition apply_buy_fl (conversion_ratio : Q) (transaction : Row)
    (led : LedgerState) : LedgerState :=
  let quantity := Quantity (raw transaction) in
  let price_per_share_eur := PricePerShareEUR transaction in
  let converted_quantity := rnd (quantity * conversion_ratio) in
  let converted_price :=
    if 0 <? conversion_ratio then rnd (price_per_share_eur / conversion_ratio)
    else price_per_share_eur in
  let buy_transaction :=
    {| quantity := converted_quantity;
       price_per_share_eur := converted_price;
       year := Year transaction |} in
  let share_cost := rnd (price_per_share_eur * quantity) in
  {| buy_queue := buy_queue led ++ [buy_transaction];
     total_shares := rnd (total_shares led + converted_quantity);
     total_cost := rnd (total_cost led + share_cost) |}.

(** [while remaining_to_sell > 0 and buy_queue: ...] of the sell
    branch. *)
Fixpoint sell_loop_fl (buy_queue : list Lot)
    (remaining_to_sell total_cost_basis total_shares total_cost : Q)
    : SellLoop :=
  match buy_queue with
  | [] =>
      {| sl_ledger := {| buy_queue := []; total_shares := total_shares;
                         total_cost := total_cost |};
         remaining_to_sell := remaining_to_sell;
         total_cost_basis := total_cost_basis |}
  | buy_transaction :: rest =>
      if 0 <? remaining_to_sell then
        if quantity buy_transaction <=? remaining_to_sell then
          let sold_quantity := quantity buy_transaction in
          let cost_basis :=
            rnd (sold_quantity * price_per_share_eur buy_transaction) in
          sell_loop_fl rest
            (rnd (remaining_to_sell - sold_quantity))
            (rnd (total_cost_basis + cost_basis))
            (rnd (total_shares - sold_quantity))
            (rnd (total_cost - cost_basis))
        else
          let sold_quantity := remaining_to_sell in
          let cost_basis :=
            rnd (sold_quantity * price_per_share_eur buy_transaction) in
          let buy_transaction :=
            {| quantity := rnd (quantity buy_transaction - sold_quantity);
               price_per_share_eur := price_per_share_eur buy_transaction;
               year := year buy_transaction |} in
          {| sl_ledger := {| buy_queue := buy_transaction :: rest;
                             total_shares := rnd (total_shares - sold_quantity);
                             total_cost := rnd (total_cost - cost_basis) |};
             remaining_to_sell := 0;
             total_cost_basis := rnd (total_cost_basis + cost_basis) |}
      else
        {| sl_ledger := {| buy_queue := buy_queue;
                           total_shares := total_shares;
                           total_cost := total_cost |};
           remaining_to_sell := remaining_to_sell;
           total_cost_basis := total_cost_basis |}
  end.

(** The branch [trans_type == 'sell']: the ledger after the sale and
    the realized gain. *)
Definition apply_sell_fl (conversion_ratio : Q) (transaction : Row)
    (led : LedgerState) : LedgerState * Q :=
  let quantity := Quantity (raw transaction) in
  let converted_quantity := rnd (quantity * conversion_ratio) in
  let loop :=
    sell_loop_fl (buy_queue led) converted_quantity 0
      (total_shares led) (total_cost led) in
  let share_proceeds := rnd (PricePerShareEUR transaction * quantity) in
  let realized_gain := rnd (share_proceeds - total_cost_basis loop) in
  (sl_ledger loop, realized_gain).

(** [while remaining_to_remove > 0 and buy_queue: ...] of the merger
    branch; the result carries [remaining_to_remove]. *)
Fixpoint remove_loop_fl (buy_queue : list Lot)
    (remaining_to_remove total_shares total_cost : Q) : LedgerState * Q :=
  match buy_queue with
  | [] =>
      ({| buy_queue := []; total_shares := total_shares;
          total_cost := total_cost |}, remaining_to_remove)
  | buy_transaction :: rest =>
      if 0 <? remaining_to_remove then
        if quantity buy_transaction <=? remaining_to_remove then
          let removed_quantity := quantity buy_transaction in
          let cost_basis :=
            rnd (removed_quantity * price_per_share_eur buy_transaction) in
          remove_loop_fl rest
            (rnd (remaining_to_remove - removed_quantity))
            (rnd (total_shares - removed_quantity))
            (rnd (total_cost - cost_basis))
        else
          let removed_quantity := remaining_to_remove in
          let cost_basis :=
            rnd (removed_quantity * price_per_share_eur buy_transaction) in
          let buy_transaction :=
            {| quantity := rnd (quantity buy_transaction - removed_quantity);
               price_per_share_eur := price_per_share_eur buy_transaction;
               year := year buy_transaction |} in
          ({| buy_queue := buy_transaction :: rest;
              total_shares := rnd (total_shares - removed_quantity);
              total_cost := rnd (total_cost - cost_basis) |}, 0)
      else
        ({| buy_queue := buy_queue; total_shares := total_shares;
            total_cost := total_cost |}, remaining_to_remove)
  end.

(** The branch [trans_type in ['merger_stock', 'merger']]. *)
Definition apply_merger_fl (transaction : Row) (led : LedgerState)
    : LedgerState :=
  let quantity := Quantity (raw transaction) in
  if quantity <? 0 then
    let shares_to_remove := Qabs quantity in
    fst (remove_loop_fl (buy_queue led) shares_to_remove
           (total_shares led) (total_cost led))
  else led.

(** The ledger part of the branch [trans_type == 'transfer_merger']. *)
Definition apply_transfer_fl (transaction : Row) (led : LedgerState)
    : LedgerState :=
  let quantity := Quantity (raw transaction) in
  if 0 <? quantity then
    let buy_transaction :=
      {| quantity := quantity; price_per_share_eur := 0;
         year := Year transaction |} in
    {| buy_queue := buy_queue led ++ [buy_transaction];
       total_shares := rnd (total_shares led + quantity);
       total_cost := total_cost led |}
  else led.

(** What one row of the replay does to the ledger, given the
    conversion ratio of its original ticker. *)
Definition ledger_step_fl (conversion_ratio : Q) (row : Row)
    (led : LedgerState) : LedgerState :=
  let trans_type := TransactionType row in
  if bool_decide (trans_type = "buy")
  then apply_buy_fl conversion_ratio row led
  else if bool_decide (trans_type = "sell")
  then fst (apply_sell_fl conversion_ratio row led)
  else if str_in trans_type ["merger_stock"; "merger"]
  then apply_merger_fl row led
  else if bool_decide (trans_type = "transfer_merger")
  then apply_transfer_fl row led
  else led.

(** The ledger after a list of rows. *)
Definition replay_fl (ratio_of : Row -> Q) (rows : list Row)
    (led : LedgerState) : LedgerState :=
  fold_left (fun led row => ledger_step_fl (ratio_of row) row led) rows led.

End Arithmetic.



End Rounded.
Export Rounded.
(* ===================================================================== *)
(** * Facts about numbers *)
(* ===================================================================== *)

Lemma Qltb_lt (x y : Q) : (x <? y) = true <-> x < y.
Proof.
  unfold Qltb. rewrite negb_true_iff, <- not_true_iff_false, Qle_bool_iff.
  split; lra.
Qed.

Lemma Qltb_ge (x y : Q) : (x <? y) = false <-> y <= x.
Proof.
  unfold Qltb. rewrite negb_false_iff, Qle_bool_iff. reflexivity.
Qed.

Lemma Qleb_le (x y : Q) : (x <=? y) = true <-> x <= y.
Proof. apply Qle_bool_iff. Qed.

Lemma Qleb_gt (x y : Q) : (x <=? y) = false <-> y < x.
Proof.
  unfold Qleb. rewrite <- not_true_iff_false, Qle_bool_iff. split; lra.
Qed.

Lemma Qltb_reflect (x y : Q) : reflect (x < y) (x <? y).
Proof.
  destruct (x <? y) eqn:E; constructor.
  - now apply Qltb_lt.
  - apply Qltb_ge in E. lra.
Qed.

Lemma Qleb_reflect (x y : Q) : reflect (x <= y) (x <=? y).
Proof.
  destruct (x <=? y) eqn:E; constructor.
  - now apply Qleb_le.
  - apply Qleb_gt in E. lra.
Qed.

(** Case analysis on one comparison of the goal. *)
Ltac qcases_step :=
  match goal with
  | |- context [?x <? ?y] => destruct (Qltb_reflect x y)
  | |- context [?x <=? ?y] => destruct (Qleb_reflect x y)
  end.

(** Case analysis on every comparison of the goal. *)
Ltac qcases :=
  repeat match goal with
  | |- context [?x <? ?y] => destruct (Qltb_reflect x y)
  | |- context [?x <=? ?y] => destruct (Qleb_reflect x y)
  end.

Lemma pymin_spec (a b : Q) :
  (b < a /\ pymin a b = b) \/ (a <= b /\ pymin a b = a).
Proof. unfold pymin. qcases; [left | right]; split; auto; lra. Qed.

Lemma pymax_spec (a b : Q) :
  (a < b /\ pymax a b = b) \/ (b <= a /\ pymax a b = a).
Proof. unfold pymax. qcases; [left | right]; split; auto; lra. Qed.

Lemma Qabs_nonpos (x : Q) : x <= 0 -> Qabs x == - x.
Proof. intros H. now apply Qabs_neg. Qed.


(* ===================================================================== *)
(** * Stock CGT with loss carry-forward *)
(* ===================================================================== *)

Section StockCgt.
Import TaxCalculations.

Lemma Qabs_cases (a : Q) :
  (0 <= a /\ Qabs a == a) \/ (a < 0 /\ Qabs a == - a).
Proof.
  destruct (Qlt_le_dec a 0) as [H | H]; [right | left]; split; auto.
  - apply Qabs_neg. lra.
  - now apply Qabs_pos.
Qed.

Lemma pymin_cases (a b : Q) :
  (b < a /\ pymin a b == b) \/ (a <= b /\ pymin a b == a).
Proof.
  destruct (pymin_spec a b) as [[H E] | [H E]]; rewrite E; [left | right];
    split; auto; reflexivity.
Qed.

Lemma pymax_cases (a b : Q) :
  (a < b /\ pymax a b == b) \/ (b <= a /\ pymax a b == a).
Proof.
  destruct (pymax_spec a b) as [[H E] | [H E]]; rewrite E; [left | right];
    split; auto; reflexivity.
Qed.

Lemma Qmin_cases (a b : Q) :
  (a < b /\ Qmin a b == a) \/ (b <= a /\ Qmin a b == b).
Proof. exact (Q.min_spec a b). Qed.

Lemma Qmax_cases (a b : Q) :
  (a < b /\ Qmax a b == b) \/ (b <= a /\ Qmax a b == a).
Proof. exact (Q.max_spec a b). Qed.

(** Replace every [Qmin], [Qmax] and [Qabs] by a variable constrained
    by its defining cases. *)
Ltac abstract_minmax :=
  repeat match goal with
  | |- context [Qmin ?a ?b] =>
      let H := fresh "Hmin" in let m := fresh "m" in
      pose proof (Qmin_cases a b) as H;
      set (m := Qmin a b) in *; clearbody m
  | |- context [Qmax ?a ?b] =>
      let H := fresh "Hmax" in let m := fresh "m" in
      pose proof (Qmax_cases a b) as H;
      set (m := Qmax a b) in *; clearbody m
  | |- context [Qabs ?a] =>
      let H := fresh "Habs" in let m := fresh "m" in
      pose proof (Qabs_cases a) as H;
      set (m := Qabs a) in *; clearbody m
  | |- context [pymin ?a ?b] =>
      let H := fresh "Hmin" in let m := fresh "m" in
      pose proof (pymin_cases a b) as H;
      set (m := pymin a b) in *; clearbody m
  | |- context [pymax ?a ?b] =>
      let H := fresh "Hmax" in let m := fresh "m" in
      pose proof (pymax_cases a b) as H;
      set (m := pymax a b) in *; clearbody m
  end.

Ltac split_minmax :=
  repeat match goal with
  | H : (_ /\ _) \/ (_ /\ _) |- _ => destruct H as [[? ?] | [? ?]]
  end.

(** C2. With a nonnegative loss accumulator,
    [apply_cgt_with_loss_carry_forward] computes the stock CGT rule of
    the specification: exemption on positive gains only and at most
    the gain, carried-forward loss consumed against the positive
    remainder and capped at it, the nonnegative remainder taxed at
    33%, and the magnitude of a negative post-exemption figure added
    to the accumulator. *)
Theorem apply_cgt_matches_spec (stock_realized accumulated_losses cgt_exemption : Q) :
  0 <= accumulated_losses ->
  tuple4_eq
    (apply_cgt_with_loss_carry_forward stock_realized accumulated_losses
       cgt_exemption)
    (stock_cgt_spec stock_realized accumulated_losses cgt_exemption).
Proof.
  intros HL.
  unfold apply_cgt_with_loss_carry_forward, stock_cgt_spec, tuple4_eq.
  cbv zeta. abstract_minmax.
  repeat (qcases_step; cbn [andb]);
    abstract_minmax; split_minmax; repeat split; lra.
Qed.

Lemma apply_cgt_matches_spec_witness :
  0 <= 500
  /\ tuple4_eq (apply_cgt_with_loss_carry_forward 2000 500 1270)
       (stock_cgt_spec 2000 500 1270).
Proof.
  split; [discriminate | apply (apply_cgt_matches_spec 2000 500 1270)].
  discriminate.
Defined.

(** The carry-forward example: the loss year gives no taxable gain, no
    liability and an accumulator of 500; the gain year gives taxable
    gains 230, liability 75.90, 500 of carry-forward used, accumulator 0. *)
Example carry_forward_two_years :
  match generate_report_cgt loss_then_gain with
  | [(y1, f1); (y2, f2)] =>
      y1 = 2022%Z /\ tuple4_eq f1 (0, 0, 0, 500)
      /\ y2 = 2023%Z /\ tuple4_eq f2 (230, 759 # 10, 500, 0)
  | _ => False
  end.
Proof. vm_compute. repeat split; discriminate. Qed.

End StockCgt.
(* ===================================================================== *)
(** * Fund exit tax *)
(* ===================================================================== *)

Section ExitTax.
Import TaxCalculations.

(** C4. [calculate_etf_exit_tax] returns the sum of the realized gains,
    dividends and deemed-disposal gains as the taxable total, and 41% of
    every one of the three figures as the liability: nothing is
    exempted and nothing is relieved, whatever the signs.  A gain of
    100 with the other figures zero gives a liability of 41. *)
Theorem etf_exit_tax_flat_rate :
  (forall etf_realized etf_dividends etf_deemed : Q,
     fst (calculate_etf_exit_tax etf_realized etf_dividends etf_deemed)
       == etf_realized + etf_dividends + etf_deemed
     /\ snd (calculate_etf_exit_tax etf_realized etf_dividends etf_deemed)
       == (41 # 100) * etf_realized + (41 # 100) * etf_dividends
          + (41 # 100) * etf_deemed)
  /\ fst (calculate_etf_exit_tax 100 0 0) == 100
  /\ snd (calculate_etf_exit_tax 100 0 0) == 41.
Proof.
  split; [| split].
  - intros r d dd. unfold calculate_etf_exit_tax. cbn [fst snd].
    split; [reflexivity | ring].
  - reflexivity.
  - reflexivity.
Qed.

End ExitTax.

(* ===================================================================== *)
(** * Dividend income tax *)
(* ===================================================================== *)

Section DividendTax.
Import TaxCalculations.

Lemma pymax_Qmax (a b : Q) : pymax a b == Qmax a b.
Proof.
  destruct (pymax_spec a b) as [[H E] | [H E]]; rewrite E;
    destruct (Q.max_spec a b) as [[H' E'] | [H' E']]; rewrite E'; lra.
Qed.

Lemma pymax_0_nonneg (b : Q) : 0 <= pymax 0 b.
Proof. destruct (pymax_spec 0 b) as [[H E] | [H E]]; rewrite E; lra. Qed.

Lemma calculate_dividend_income_tax_rules
    (dividend_income rate irish foreign : Q) :
  0 < dividend_income ->
  exists t,
    calculate_dividend_income_tax dividend_income rate irish foreign = Some t
    /\ dividend_rules t dividend_income irish foreign rate.
Proof.
  intros Hpos. unfold calculate_dividend_income_tax.
  destruct (Qleb_reflect dividend_income 0) as [C | _]; [lra |].
  eexists. split; [reflexivity |].
  unfold dividend_rules; cbn.
  repeat split; try reflexivity; try ring;
    try apply pymax_Qmax; try apply pymax_0_nonneg.
  field.
Qed.

Lemma dividend_tax_of_year_eq (results : Results) (rate : Q) (year : Z) :
  let irish := yearly_get (summary_of results "stocks" "dividends_irish") year in
  let foreign := yearly_get (summary_of results "stocks" "dividends_foreign") year in
  dividend_tax_of_year results rate year
  = calculate_dividend_income_tax (irish + foreign) rate irish foreign.
Proof.
  intros irish foreign.
  unfold dividend_tax_of_year, calculate_dividend_income_tax.
  fold irish foreign.
  destruct (Qltb_reflect 0 (irish + foreign));
    destruct (Qleb_reflect (irish + foreign) 0); try lra; reflexivity.
Qed.

(** A dictionary filled by a loop over keys reads, at a key of the
    loop, the entry computed for that key. *)
Lemma lookup_fold_entries {V : Type} (f : Z -> option V) (l : list Z)
    (acc : gmap Z V) (y : Z) :
  fold_left
    (fun m k => match f k with Some v => <[k := v]> m | None => m end)
    l acc !! y
  = if decide (y ∈ l)
    then match f y with Some v => Some v | None => acc !! y end
    else acc !! y.
Proof.
  revert acc. induction l as [| k l IH]; intros acc; cbn [fold_left].
  - rewrite decide_False by apply not_elem_of_nil. reflexivity.
  - rewrite IH. destruct (decide (y = k)) as [-> | Hne].
    + rewrite (decide_True (P := k ∈ k :: l))
        by (apply elem_of_cons; left; reflexivity).
      destruct (f k) as [v |] eqn:Ek.
      * rewrite lookup_insert_eq. destruct (decide (k ∈ l)); reflexivity.
      * destruct (decide (k ∈ l)); reflexivity.
    + assert (Hacc :
        match f k with Some v => <[k := v]> acc | None => acc end !! y
        = acc !! y).
      { destruct (f k); [apply lookup_insert_ne; congruence | reflexivity]. }
      rewrite Hacc.
      destruct (decide (y ∈ l)) as [Hin | Hnin].
      * rewrite decide_True by (apply elem_of_cons; right; exact Hin).
        reflexivity.
      * rewrite decide_False; [reflexivity |].
        intros [C | C]%elem_of_cons; [congruence | contradiction].
Qed.

Lemma calculate_dividend_taxes_lookup (results : Results) (rate : Q)
    (year : Z) :
  year ∈ years_with results "dividends" ->
  calculate_dividend_taxes results rate !! year
  = dividend_tax_of_year results rate year.
Proof.
  intros Hin. unfold calculate_dividend_taxes.
  rewrite lookup_fold_entries.
  rewrite decide_True.
  - destruct (dividend_tax_of_year results rate year); reflexivity.
  - rewrite merge_sort_Permutation. apply elem_of_elements. exact Hin.
Qed.

(** C5. Whenever the dividend income is positive,
    [calculate_dividend_income_tax] credits 25% of the Irish and 15% of
    the foreign dividends, taxes the gross income at the caller's
    marginal rate, and reports [max(0, tax - credits)] as net tax due
    and [max(0, credits - tax)] as refund, both nonnegative; and
    [calculate_dividend_taxes] files exactly that entry, computed from
    the stock dividends alone, under every year of the summary whose
    stock dividends are positive. *)
Theorem dividend_tax_rules (margin_rate : Q) :
  (forall dividend_income irish foreign : Q,
     0 < dividend_income ->
     exists t,
       calculate_dividend_income_tax dividend_income margin_rate irish foreign
       = Some t
       /\ dividend_rules t dividend_income irish foreign margin_rate)
  /\
  (forall (results : Results) (year : Z),
     let irish :=
       yearly_get (summary_of results "stocks" "dividends_irish") year in
     let foreign :=
       yearly_get (summary_of results "stocks" "dividends_foreign") year in
     year ∈ years_with results "dividends" ->
     0 < irish + foreign ->
     exists t,
       calculate_dividend_taxes results margin_rate !! year = Some t
       /\ dividend_rules t (irish + foreign) irish foreign margin_rate).
Proof.
  split.
  - intros. now apply calculate_dividend_income_tax_rules.
  - intros results year irish foreign Hin Hpos.
    rewrite calculate_dividend_taxes_lookup by exact Hin.
    rewrite dividend_tax_of_year_eq. fold irish foreign.
    now apply calculate_dividend_income_tax_rules.
Qed.

(** 1,000 of domestic dividends at a 40% marginal rate: tax 400,
    credit 250, net due 150, refund 0; from the function and from the
    yearly summary. *)
Lemma dividend_tax_rules_witness :
  (exists t,
     calculate_dividend_income_tax 1000 40 1000 0 = Some t
     /\ income_tax_due t == 400 /\ total_credits t == 250
     /\ net_tax_due t == 150 /\ refund_due t == 0)
  /\
  (exists t,
     calculate_dividend_taxes irish_dividend_results 40 !! 2023%Z = Some t
     /\ income_tax_due t == 400 /\ total_credits t == 250
     /\ net_tax_due t == 150 /\ refund_due t == 0).
Proof.
  destruct (dividend_tax_rules 40) as [Hfun Hyear].
  split.
  - destruct (Hfun 1000 1000 0) as [t [Ht Hr]]; [reflexivity |].
    exists t. split; [exact Ht |].
    injection Ht as <-. vm_compute. repeat split; discriminate.
  - destruct (Hyear irish_dividend_results 2023%Z) as [t [Ht Hr]].
    + apply (bool_decide_unpack _). vm_compute. exact I.
    + vm_compute. reflexivity.
    + exists t. split; [exact Ht |].
      vm_compute in Ht. injection Ht as <-.
      vm_compute. repeat split; discriminate.
Defined.

End DividendTax.

(* ===================================================================== *)
(** * Currency conversion *)
(* ===================================================================== *)

Section Conversion.

(** C7, as claimed, fails: a record in a currency other than EUR and
    USD is rejected although its FX rate is present and positive. *)
Lemma convert_to_eur_rejects_other_currency :
  convert_to_eur 100 (Some "GBP") (Some (85 # 100)) = Raise ValueError
  /\ ~ (forall (amount : Q) (currency : option string) (rate : Q),
          currency <> Some "EUR" -> 0 < rate ->
          convert_to_eur amount currency (Some rate) = Ok (amount / rate)).
Proof.
  assert (E : convert_to_eur 100 (Some "GBP") (Some (85 # 100))
              = Raise ValueError) by reflexivity.
  split; [exact E |].
  intros H.
  specialize (H 100 (Some "GBP") (85 # 100)).
  rewrite E in H. discriminate H; [discriminate | reflexivity].
Qed.

(** C7, amended. [convert_to_eur] returns an EUR amount unchanged and
    divides a USD amount by the record's FX rate when that rate is
    present and positive; it raises in every other case, that is
    exactly when the currency is not EUR and either the currency is not
    USD or the rate is missing or not positive.  There is no 1:1
    fallback. *)
Theorem convert_to_eur_cases (amount : Q) (currency : option string)
    (fx_rate : option Q) :
  (currency = Some "EUR" -> convert_to_eur amount currency fx_rate = Ok amount)
  /\ (currency = Some "USD" ->
      forall rate, fx_rate = Some rate -> 0 < rate ->
      convert_to_eur amount currency fx_rate = Ok (amount / rate))
  /\ (convert_to_eur amount currency fx_rate = Raise ValueError <->
      currency <> Some "EUR"
      /\ (currency <> Some "USD" \/ fx_rate = None
          \/ exists rate, fx_rate = Some rate /\ rate <= 0)).
Proof.
  unfold convert_to_eur. split; [| split; [| split]].
  - intros ->. reflexivity.
  - intros -> rate -> Hpos. cbn.
    destruct (Qltb_reflect 0 rate); [reflexivity | contradiction].
  - case_bool_decide as He; [discriminate |].
    intros Hraise. split; [exact He |].
    destruct fx_rate as [rate |]; [| auto].
    case_bool_decide as Hu; cbn [andb] in Hraise; [| auto].
    destruct (Qltb_reflect 0 rate); [discriminate |].
    right. right. exists rate. split; [reflexivity | lra].
  - intros [Hne Hc]. rewrite bool_decide_eq_false_2 by exact Hne.
    destruct fx_rate as [rate |]; [| reflexivity].
    destruct Hc as [Hu | [Hn | [r [Hr Hle]]]].
    + rewrite bool_decide_eq_false_2 by exact Hu. reflexivity.
    + discriminate.
    + injection Hr as <-.
      destruct (Qltb_reflect 0 rate); [lra |].
      rewrite andb_false_r. reflexivity.
Qed.

Lemma convert_to_eur_cases_witness :
  convert_to_eur 100 (Some "USD") (Some (125 # 100)) = Ok (100 / (125 # 100))
  /\ convert_to_eur 100 (Some "EUR") None = Ok 100
  /\ convert_to_eur 100 (Some "USD") None = Raise ValueError.
Proof.
  split; [| split].
  - apply (convert_to_eur_cases 100 (Some "USD") (Some (125 # 100)));
      reflexivity.
  - apply (convert_to_eur_cases 100 (Some "EUR") None); reflexivity.
  - apply (convert_to_eur_cases 100 (Some "USD") None).
    split; [discriminate | right; left; reflexivity].
Defined.

End Conversion.

(* ===================================================================== *)
(** * Lenient amount parsing *)
(* ===================================================================== *)

Section ParseAmount.

Lemma run_length_no_digit (s : list N) :
  no_digit s -> run_length is_digit s = O.
Proof.
  intros H. destruct H as [| c s Hc Hs]; [reflexivity |].
  cbn. rewrite Hc. reflexivity.
Qed.

Lemma match_number_no_digit (s : list N) :
  no_digit s -> match_number s = None.
Proof.
  intros H. unfold match_number.
  destruct H as [| c s Hc Hs]; [reflexivity |].
  destruct (c =? cp_minus)%N.
  - rewrite (run_length_no_digit s Hs). reflexivity.
  - rewrite (run_length_no_digit (c :: s)); [reflexivity |].
    constructor; assumption.
Qed.

Lemma findall_number_from_no_digit (s : list N) (skip : nat) :
  no_digit s -> findall_number_from skip s = [].
Proof.
  intros H. revert skip.
  induction H as [| c s Hc Hs IH]; intros skip; [reflexivity |].
  cbn [findall_number_from]. destruct skip as [| k]; [| apply IH].
  rewrite match_number_no_digit by (constructor; assumption).
  apply IH.
Qed.

(** A text has a numeric pattern exactly when it has a digit. *)
Lemma findall_number_nil_iff (s : list N) :
  findall_number s = [] <-> no_digit s.
Proof.
  split; [| apply findall_number_from_no_digit].
  unfold findall_number. induction s as [| c s IH]; intros H; [constructor |].
  cbn [findall_number_from] in H.
  destruct (match_number (c :: s)) as [m |] eqn:Em; [discriminate H |].
  constructor; [| apply IH, H].
  unfold match_number in Em.
  destruct (c =? cp_minus)%N eqn:Ec.
  - apply N.eqb_eq in Ec. subst c. reflexivity.
  - cbn [run_length] in Em. destruct (is_digit c); [| reflexivity].
    exfalso. revert Em. cbv zeta.
    match goal with
    | |- context [drop ?n ?l] => destruct (drop n l) as [| d rest]
    end; [discriminate |].
    destruct (d =? cp_dot)%N; discriminate.
Qed.

(** C9. [parse_amount] returns a number on every cell and never
    raises; a missing cell, and a text in which no numeric pattern is
    left once the currency symbols and the encoding noise are removed
    (that is, a text left without any digit), give exactly 0. *)
Theorem parse_amount_lenient (amount_str : option (list N)) :
  (exists q, parse_amount amount_str = Ok q)
  /\ (amount_str = None -> parse_amount amount_str = Ok 0)
  /\ (forall s, amount_str = Some s ->
      (findall_number (cleaned s) = [] <-> no_digit (cleaned s))
      /\ (no_digit (cleaned s) -> parse_amount amount_str = Ok 0)).
Proof.
  split; [| split].
  - destruct amount_str as [s |]; cbn [parse_amount]; [| eauto].
    destruct (findall_number _) as [| m ms]; [eauto |].
    destruct (float_of_text m) as [q | []]; cbn; eauto.
  - intros ->. reflexivity.
  - intros s ->. split; [apply findall_number_nil_iff |].
    intros Hs. cbn [parse_amount].
    unfold cleaned in Hs. unfold findall_number.
    rewrite findall_number_from_no_digit by exact Hs. reflexivity.
Qed.

Lemma parse_amount_lenient_witness :
  parse_amount (Some (codepoints "n/a $")) = Ok 0
  /\ parse_amount None = Ok 0.
Proof.
  split.
  - apply (parse_amount_lenient (Some (codepoints "n/a $"))) with
      (s := codepoints "n/a $"); [reflexivity |].
    vm_compute. repeat constructor.
  - apply (parse_amount_lenient None). reflexivity.
Defined.

(** Amount cells as they come out of a spreadsheet export. *)
Example parse_amount_examples :
  parse_amount (Some (codepoints "$1,234.56")) = Ok 1
  /\ (exists q, parse_amount (Some (codepoints "-12.5 USD")) = Ok q
                /\ q == - (125 # 10))
  /\ (exists q, parse_amount (Some (codepoints "_x20AC_45.10")) = Ok q
                /\ q == 451 # 10)
  /\ (exists q, parse_amount (Some [cp_a_circ; 8218; cp_not; 52; 53]%N) = Ok q
                /\ q == 45).
Proof.
  vm_compute. split; [reflexivity |].
  repeat split; eexists; (split; [reflexivity | reflexivity]).
Qed.

End ParseAmount.

(* ===================================================================== *)
(** * The ledger: accounting of the consumption loops *)
(* ===================================================================== *)

Section LedgerAccounting.

Lemma queue_quantity_nil : queue_quantity [] = 0.
Proof. reflexivity. Qed.

Lemma queue_cost_nil : queue_cost [] = 0.
Proof. reflexivity. Qed.

Lemma queue_quantity_cons (lot : Lot) (q : list Lot) :
  queue_quantity (lot :: q) = quantity lot + queue_quantity q.
Proof. reflexivity. Qed.

Lemma queue_cost_cons (lot : Lot) (q : list Lot) :
  queue_cost (lot :: q)
  = quantity lot * price_per_share_eur lot + queue_cost q.
Proof. reflexivity. Qed.

Lemma queue_quantity_app (q1 q2 : list Lot) :
  queue_quantity (q1 ++ q2) == queue_quantity q1 + queue_quantity q2.
Proof.
  induction q1 as [| lot q1 IH]; cbn [app].
  - rewrite queue_quantity_nil. ring.
  - rewrite !queue_quantity_cons, IH. ring.
Qed.

Lemma queue_cost_app (q1 q2 : list Lot) :
  queue_cost (q1 ++ q2) == queue_cost q1 + queue_cost q2.
Proof.
  induction q1 as [| lot q1 IH]; cbn [app].
  - rewrite queue_cost_nil. ring.
  - rewrite !queue_cost_cons, IH. ring.
Qed.

Lemma lots_positive_quantity (q : list Lot) :
  lots_positive q -> 0 <= queue_quantity q.
Proof.
  induction 1 as [| lot q Hlot Hq IH].
  - rewrite queue_quantity_nil. lra.
  - rewrite queue_quantity_cons. lra.
Qed.

Lemma lots_nonnegative_quantity (q : list Lot) :
  lots_nonnegative q -> 0 <= queue_quantity q.
Proof.
  induction 1 as [| lot q Hlot Hq IH].
  - rewrite queue_quantity_nil. lra.
  - rewrite queue_quantity_cons. lra.
Qed.

Lemma lots_positive_nonnegative (q : list Lot) :
  lots_positive q -> lots_nonnegative q.
Proof.
  intros H. eapply Forall_impl; [exact H |].
  intros lot Hlot. cbn in Hlot |- *. lra.
Qed.

(** The three ways one test of the loop condition can go. *)
Lemma sell_loop_exit (q : list Lot) (rem tcb ts tc : Q) :
  rem <= 0 \/ q = [] ->
  sell_loop q rem tcb ts tc
  = {| sl_ledger := {| buy_queue := q; total_shares := ts; total_cost := tc |};
       remaining_to_sell := rem;
       total_cost_basis := tcb |}.
Proof.
  intros [H | ->]; [| reflexivity].
  destruct q as [| lot rest]; [reflexivity |]. cbn.
  destruct (Qltb_reflect 0 rem); [lra | reflexivity].
Qed.

Lemma sell_loop_full (lot : Lot) (rest : list Lot) (rem tcb ts tc : Q) :
  0 < rem -> quantity lot <= rem ->
  sell_loop (lot :: rest) rem tcb ts tc
  = sell_loop rest (rem - quantity lot)
      (tcb + quantity lot * price_per_share_eur lot)
      (ts - quantity lot)
      (tc - quantity lot * price_per_share_eur lot).
Proof.
  intros H1 H2. cbn.
  destruct (Qltb_reflect 0 rem); [| contradiction].
  destruct (Qleb_reflect (quantity lot) rem); [reflexivity | contradiction].
Qed.

Lemma sell_loop_partial (lot : Lot) (rest : list Lot) (rem tcb ts tc : Q) :
  0 < rem -> rem < quantity lot ->
  sell_loop (lot :: rest) rem tcb ts tc
  = {| sl_ledger :=
         {| buy_queue :=
              {| quantity := quantity lot - rem;
                 price_per_share_eur := price_per_share_eur lot;
                 year := year lot |} :: rest;
            total_shares := ts - rem;
            total_cost := tc - rem * price_per_share_eur lot |};
       remaining_to_sell := 0;
       total_cost_basis := tcb + rem * price_per_share_eur lot |}.
Proof.
  intros H1 H2. cbn.
  destruct (Qltb_reflect 0 rem); [| contradiction].
  destruct (Qleb_reflect (quantity lot) rem); [lra | reflexivity].
Qed.

(** What the loop takes out of the queue is what it takes out of the
    totals, what it adds to the disposal cost basis, and what it takes
    off the remaining quantity. *)
Lemma sell_loop_accounts (q : list Lot) (rem tcb ts tc : Q) :
  let r := sell_loop q rem tcb ts tc in
  let q' := buy_queue (sl_ledger r) in
  total_shares (sl_ledger r) == ts - (queue_quantity q - queue_quantity q')
  /\ total_cost (sl_ledger r) == tc - (queue_cost q - queue_cost q')
  /\ total_cost_basis r == tcb + (queue_cost q - queue_cost q')
  /\ remaining_to_sell r == rem - (queue_quantity q - queue_quantity q')
  /\ (0 <= rem -> 0 <= remaining_to_sell r)
  /\ (0 < remaining_to_sell r -> q' = []).
Proof.
  revert rem tcb ts tc.
  induction q as [| lot rest IH]; intros rem tcb ts tc.
  - cbn. repeat split; try lra; auto.
  - destruct (Qlt_le_dec 0 rem) as [Hrem | Hrem].
    + destruct (Qlt_le_dec rem (quantity lot)) as [Hlot | Hlot].
      * rewrite sell_loop_partial by assumption. cbn.
        rewrite !queue_quantity_cons, !queue_cost_cons. cbn.
        repeat split; intros; try lra; auto.
      * rewrite sell_loop_full by assumption.
        specialize (IH (rem - quantity lot)
                      (tcb + quantity lot * price_per_share_eur lot)
                      (ts - quantity lot)
                      (tc - quantity lot * price_per_share_eur lot)).
        cbv zeta in IH |- *.
        destruct IH as (H1 & H2 & H3 & H4 & H5 & H6).
        rewrite !queue_quantity_cons, !queue_cost_cons.
        repeat split; try lra; try exact H6; intros; apply H5; lra.
    + rewrite sell_loop_exit by (left; exact Hrem). cbn.
      repeat split; intros; try lra; auto.
Qed.

(** The merger branch runs the loop of the sell branch without the
    cost-basis accumulator. *)
Lemma remove_loop_sell_loop (q : list Lot) (rem tcb ts tc : Q) :
  remove_loop q rem ts tc
  = (sl_ledger (sell_loop q rem tcb ts tc),
     remaining_to_sell (sell_loop q rem tcb ts tc)).
Proof.
  revert rem tcb ts tc.
  induction q as [| lot rest IH]; intros rem tcb ts tc; [reflexivity |].
  cbn. destruct (0 <? rem); [| reflexivity].
  destruct (quantity lot <=? rem); [apply IH | reflexivity].
Qed.

(** Positive lots stay positive through the loop. *)
Lemma sell_loop_lots_positive (q : list Lot) (rem tcb ts tc : Q) :
  lots_positive q ->
  lots_positive (buy_queue (sl_ledger (sell_loop q rem tcb ts tc))).
Proof.
  intros Hq. revert rem tcb ts tc.
  induction Hq as [| lot rest Hlot Hrest IH]; intros rem tcb ts tc.
  - constructor.
  - destruct (Qlt_le_dec 0 rem) as [Hrem | Hrem].
    + destruct (Qlt_le_dec rem (quantity lot)) as [Hl | Hl].
      * rewrite sell_loop_partial by assumption. cbn.
        constructor; [cbn; lra | exact Hrest].
      * rewrite sell_loop_full by assumption. apply IH.
    + rewrite sell_loop_exit by (left; exact Hrem). cbn.
      constructor; assumption.
Qed.

(** With nonnegative lots, a request above the quantity held empties
    the queue and is left partly unserved. *)
Lemma sell_loop_oversold (q : list Lot) (rem tcb ts tc : Q) :
  lots_nonnegative q -> queue_quantity q < rem ->
  let r := sell_loop q rem tcb ts tc in
  buy_queue (sl_ledger r) = []
  /\ 0 < remaining_to_sell r
  /\ remaining_to_sell r == rem - queue_quantity q
  /\ total_cost_basis r == tcb + queue_cost q
  /\ total_shares (sl_ledger r) == ts - queue_quantity q
  /\ total_cost (sl_ledger r) == tc - queue_cost q.
Proof.
  intros Hq. revert rem tcb ts tc.
  induction Hq as [| lot rest Hlot Hrest IH]; intros rem tcb ts tc Hlt.
  - rewrite queue_quantity_nil in Hlt. cbn.
    rewrite queue_quantity_nil, queue_cost_nil.
    repeat split; try lra; auto.
  - rewrite queue_quantity_cons in Hlt.
    pose proof (lots_nonnegative_quantity rest Hrest) as Hge.
    rewrite sell_loop_full by lra.
    specialize (IH (rem - quantity lot)
                  (tcb + quantity lot * price_per_share_eur lot)
                  (ts - quantity lot)
                  (tc - quantity lot * price_per_share_eur lot)).
    cbv zeta in IH |- *.
    destruct IH as (H1 & H2 & H3 & H4 & H5 & H6); [lra |].
    rewrite queue_quantity_cons, queue_cost_cons.
    repeat split; try lra; auto.
Qed.

(** Oldest first: with positive lots, a sale that ends inside a lot
    has consumed exactly the lots in front of it and a part of that lot. *)
Lemma sell_loop_oldest_first (pre post : list Lot) (lot : Lot)
    (rem tcb ts tc : Q) :
  lots_positive pre ->
  queue_quantity pre <= rem -> rem < queue_quantity pre + quantity lot ->
  let r := sell_loop (pre ++ lot :: post) rem tcb ts tc in
  (exists lot',
      buy_queue (sl_ledger r) = lot' :: post
      /\ quantity lot' == quantity lot - (rem - queue_quantity pre)
      /\ price_per_share_eur lot' = price_per_share_eur lot
      /\ year lot' = year lot)
  /\ total_cost_basis r
     == tcb + queue_cost pre
        + (rem - queue_quantity pre) * price_per_share_eur lot
  /\ remaining_to_sell r == 0.
Proof.
  intros Hpre. revert rem tcb ts tc.
  induction Hpre as [| l pre Hl Hpre IH]; intros rem tcb ts tc Hle Hlt.
  - cbn [app]. rewrite queue_quantity_nil in Hle, Hlt.
    rewrite queue_quantity_nil, queue_cost_nil.
    destruct (Qlt_le_dec 0 rem) as [Hrem | Hrem].
    + rewrite sell_loop_partial by lra. cbn.
      split; [eexists; split; [reflexivity |]; cbn; repeat split; lra |].
      split; lra.
    + rewrite sell_loop_exit by (left; exact Hrem). cbn.
      assert (rem == 0) by lra.
      split; [exists lot; repeat split; lra |].
      split; [| assumption].
      rewrite H. ring.
  - rewrite queue_quantity_cons in Hle, Hlt.
    pose proof (lots_positive_quantity pre Hpre) as Hge.
    cbn [app]. rewrite sell_loop_full by lra.
    specialize (IH (rem - quantity l)
                  (tcb + quantity l * price_per_share_eur l)
                  (ts - quantity l)
                  (tc - quantity l * price_per_share_eur l)).
    cbv zeta in IH |- *.
    destruct IH as ((lot' & E1 & E2 & E3 & E4) & H2 & H3); [lra | lra |].
    rewrite queue_quantity_cons, queue_cost_cons.
    split; [exists lot'; repeat split; auto; lra |].
    split; [| exact H3].
    rewrite H2. ring.
Qed.

End LedgerAccounting.

(* ===================================================================== *)
(** * Reasoning about runs *)
(* ===================================================================== *)

Section Runs.

Lemma bind_ok {A B : Type} (m : M A) (k : A -> M B) (w w' : World) (b : B) :
  bind m k w = (Ok b, w') ->
  exists a w1, m w = (Ok a, w1) /\ k a w1 = (Ok b, w').
Proof.
  unfold bind. destruct (m w) as [[a | e] w1]; intros H.
  - exists a, w1. split; [reflexivity | exact H].
  - discriminate H.
Qed.

Lemma stable_pure {A : Type} (x : result A) : stable (fun w => (x, w)).
Proof.
  intros w r w1 H. injection H as <- <-.
  split; [reflexivity |]. split; [reflexivity |].
  intros w2 _. exists w2. reflexivity.
Qed.

Lemma stable_ret {A : Type} (a : A) : stable (ret a).
Proof. apply stable_pure. Qed.

Lemma stable_raise {A : Type} (e : exn) : stable (@raise A e).
Proof. apply stable_pure. Qed.

Lemma stable_lift {A : Type} (x : result A) : stable (lift x).
Proof. apply stable_pure. Qed.

Lemma stable_bind {A B : Type} (m : M A) (k : A -> M B) :
  stable m -> (forall a, stable (k a)) -> stable (bind m k).
Proof.
  intros Hm Hk w r w1 H. unfold bind in H.
  destruct (m w) as [[a | e] wa] eqn:Em.
  - destruct (Hm _ _ _ Em) as (Hg1 & Hr1 & Hre1).
    destruct (Hk a _ _ _ H) as (Hg2 & Hr2 & Hre2).
    split; [etrans; eassumption |].
    split; [intros key; rewrite Hr2; apply Hr1 |].
    intros w2 Hw2.
    destruct (Hre1 w2) as (w3 & E3).
    { intros key [info Hkey].
      rewrite <- Hr2. apply Hw2.
      exists info. eapply lookup_weaken; eassumption. }
    destruct (Hm _ _ _ E3) as (_ & Hr3 & _).
    destruct (Hre2 w3) as (w4 & E4).
    { intros key Hkey. rewrite Hr3. apply Hw2, Hkey. }
    exists w4. unfold bind. rewrite E3. exact E4.
  - injection H as <- <-.
    destruct (Hm _ _ _ Em) as (Hg1 & Hr1 & Hre1).
    split; [exact Hg1 |]. split; [exact Hr1 |].
    intros w2 Hw2.
    destruct (Hre1 w2 Hw2) as (w3 & E3).
    exists w3. unfold bind. rewrite E3. reflexivity.
Qed.

Lemma stable_mapM {A B : Type} (f : A -> M B) (l : list A) :
  (forall a, stable (f a)) -> stable (mapM f l).
Proof.
  intros Hf. induction l as [| a l IH]; cbn [mapM].
  - apply stable_ret.
  - apply stable_bind; [apply Hf | intros b].
    apply stable_bind; [exact IH | intros bs]. apply stable_ret.
Qed.

Lemma stable_foldM {A S : Type} (f : S -> A -> M S) (l : list A) (s : S) :
  (forall s a, stable (f s a)) -> stable (foldM f s l).
Proof.
  intros Hf. revert s. induction l as [| a l IH]; intros s; cbn [foldM].
  - apply stable_ret.
  - apply stable_bind; [apply Hf | intros s']. apply IH.
Qed.

Lemma stable_set_transaction_history (h : option (list Row)) :
  stable (modify_world (set_transaction_history h)).
Proof.
  intros w r w1 H. injection H as <- <-.
  split; [reflexivity |]. split; [reflexivity |].
  intros w2 _. eexists. reflexivity.
Qed.

Lemma get_ticker_info_skipped (ticker : option string) (w : World) :
  skipped ticker = true -> get_ticker_info ticker w = (Ok None, w).
Proof.
  destruct ticker as [t |]; [| reflexivity].
  unfold skipped, get_ticker_info. case_bool_decide; [reflexivity |].
  cbn [orb]. intros ->. reflexivity.
Qed.

(** A ticker that is looked up gets the resolver's answer, and is in
    the cache afterwards with that answer; the resolver answers as
    before. *)
Lemma get_ticker_info_looked_up (t : string) (w : World) :
  skipped (Some t) = false ->
  exists w1,
    get_ticker_info (Some t) w = (Ok (Some (resolve w (upper t))), w1)
    /\ ticker_cache w1 !! upper t = Some (resolve w (upper t))
    /\ ticker_cache w ⊆ ticker_cache w1
    /\ (forall key, resolve w1 key = resolve w key).
Proof.
  unfold skipped, get_ticker_info. case_bool_decide; [discriminate |].
  cbn [orb]. intros ->.
  unfold bind, get_world, ret, modify_world, add_missing_ticker_to_cache,
    resolve.
  destruct (ticker_cache w !! upper t) as [info |] eqn:Ec.
  - exists w. repeat split; auto.
  - unfold bind, get_world, ret, modify_world.
    destruct (cache_file w !! upper t) as [entry |] eqn:Ef.
    + eexists. split; [reflexivity |]. cbn.
      split; [apply lookup_insert_eq |].
      split; [apply insert_subseteq; exact Ec |].
      intros key. destruct (decide (upper t = key)) as [<- | Hne].
      * rewrite lookup_insert_eq, Ec, Ef. reflexivity.
      * rewrite lookup_insert_ne by exact Hne. reflexivity.
    + eexists. split; [reflexivity |]. cbn.
      split; [apply lookup_insert_eq |].
      split; [apply insert_subseteq; exact Ec |].
      intros key. destruct (decide (upper t = key)) as [<- | Hne].
      * rewrite lookup_insert_eq, Ec, Ef. reflexivity.
      * rewrite !lookup_insert_ne by exact Hne. reflexivity.
Qed.

Lemma stable_get_ticker_info (ticker : option string) :
  stable (get_ticker_info ticker).
Proof.
  intros w r w1 H.
  destruct (skipped ticker) eqn:Hs.
  - rewrite (get_ticker_info_skipped ticker w Hs) in H.
    injection H as <- <-.
    split; [reflexivity |]. split; [reflexivity |].
    intros w2 _. exists w2. apply get_ticker_info_skipped, Hs.
  - destruct ticker as [t |]; [| discriminate Hs].
    destruct (get_ticker_info_looked_up t w Hs) as (w1' & E & Hin & Hsub & Hres).
    rewrite E in H. injection H as <- <-.
    split; [exact Hsub |]. split; [exact Hres |].
    intros w2 Hw2.
    destruct (get_ticker_info_looked_up t w2 Hs) as (w3 & E2 & _).
    exists w3. rewrite E2.
    rewrite (Hw2 (upper t)) by (rewrite Hin; eauto).
    rewrite Hres. reflexivity.
Qed.

End Runs.

(* ===================================================================== *)
(** * Every step of the aggregation is stable *)
(* ===================================================================== *)

Section Stability.

(** Stability goals follow the shape of the program. *)
Ltac stable_step :=
  match goal with
  | |- stable (bind _ _) => apply stable_bind; [| intros ?]
  | |- stable (ret _) => apply stable_ret
  | |- stable (raise _) => apply stable_raise
  | |- stable (lift _) => apply stable_lift
  | |- stable (get_ticker_info _) => apply stable_get_ticker_info
  | |- stable (mapM _ _) => apply stable_mapM; intros ?
  | |- stable (foldM _ _ _) => apply stable_foldM; intros ? ?
  | |- stable (modify_world (set_transaction_history _)) =>
      apply stable_set_transaction_history
  | |- stable (match ?x with _ => _ end) => destruct x
  end.

Ltac stable_auto := repeat stable_step.

Lemma stable_normalize_ticker (ticker : option string) :
  stable (normalize_ticker ticker).
Proof. unfold normalize_ticker. stable_auto. Qed.

Lemma stable_get_conversion_ratio (ticker : option string) :
  stable (get_conversion_ratio ticker).
Proof. unfold get_conversion_ratio. stable_auto. Qed.

Lemma stable_is_etf (ticker : option string) : stable (is_etf ticker).
Proof. unfold is_etf. stable_auto. Qed.

Lemma stable_is_active (ticker : option string) : stable (is_active ticker).
Proof. unfold is_active. stable_auto. Qed.

Lemma stable_get_domicile (ticker : option string) :
  stable (get_domicile ticker).
Proof. unfold get_domicile. stable_auto. Qed.

Ltac stable_resolver :=
  match goal with
  | |- stable (normalize_ticker _) => apply stable_normalize_ticker
  | |- stable (get_conversion_ratio _) => apply stable_get_conversion_ratio
  | |- stable (is_etf _) => apply stable_is_etf
  | |- stable (is_active _) => apply stable_is_active
  | |- stable (get_domicile _) => apply stable_get_domicile
  end.

Ltac stable_all := repeat (stable_resolver || stable_step).

Lemma stable_calculate_deemed_disposal_liability (ticker : string)
    (buy_transactions : list Row) (current_date : Timestamp) :
  stable (calculate_deemed_disposal_liability ticker buy_transactions
            current_date).
Proof. unfold calculate_deemed_disposal_liability. stable_all. Qed.

Lemma stable_process_row (ticker asset_type : string) (etf : bool)
    (state : Results * LedgerState) (transaction : Row) :
  stable (process_row ticker asset_type etf state transaction).
Proof. unfold process_row. stable_all. Qed.

Lemma stable_process_ticker (now : Timestamp) (relevant_df : list Row)
    (results : Results) (ticker : string) :
  stable (process_ticker now relevant_df results ticker).
Proof.
  unfold process_ticker. stable_all;
    try apply stable_process_row;
    try apply stable_calculate_deemed_disposal_liability;
    stable_all.
Qed.

Lemma stable_find_merger_tickers (rows : list Row) :
  stable (find_merger_tickers rows).
Proof. unfold find_merger_tickers. stable_all. Qed.

Lemma stable_classify_transfer (merger_tickers : gset string) (row : Row) :
  stable (classify_transfer merger_tickers row).
Proof. unfold classify_transfer. stable_all. Qed.

Lemma stable_assign {A : Type} (set : A -> Row -> Row) (f : Row -> M A)
    (rows : list Row) :
  (forall row, stable (f row)) -> stable (assign set f rows).
Proof.
  intros Hf. unfold assign. apply stable_mapM. intros row.
  apply stable_bind; [apply Hf | intros v; apply stable_ret].
Qed.

Lemma stable_process_transactions (now : Timestamp) (df : list RawRow)
    (store_transactions : bool) :
  stable (process_transactions now df store_transactions).
Proof.
  unfold process_transactions.
  apply stable_bind; [apply stable_find_merger_tickers | intros ?].
  repeat (apply stable_bind;
          [apply stable_assign; intros ?;
           try apply stable_classify_transfer; stable_all
          | intros ?]).
  apply stable_bind; [stable_all | intros ?].
  apply stable_foldM. intros ? ?. apply stable_process_ticker.
Qed.

End Stability.

(* ===================================================================== *)
(** * The replay of one ticker, seen from its ledger *)
(* ===================================================================== *)

Section ReplayLedger.

Lemma get_conversion_ratio_run (row : Row) (w w1 : World) (ratio : Q) :
  get_conversion_ratio (Ticker (raw row)) w = (Ok ratio, w1) ->
  ticker_cache w ⊆ ticker_cache w1
  /\ forall cache, ticker_cache w1 ⊆ cache ->
                   conversion_ratio_in cache row = ratio.
Proof.
  unfold get_conversion_ratio. intros H.
  apply bind_ok in H as (info & wa & Hinfo & Hk).
  destruct (skipped (Ticker (raw row))) eqn:Hs.
  - rewrite (get_ticker_info_skipped _ w Hs) in Hinfo.
    injection Hinfo as <- <-. discriminate Hk.
  - destruct (Ticker (raw row)) as [t |] eqn:Et; [| discriminate Hs].
    destruct (get_ticker_info_looked_up t w Hs) as (w' & E & Hin & Hsub & _).
    rewrite E in Hinfo. injection Hinfo as <- <-.
    injection Hk as <- <-.
    split; [exact Hsub |].
    intros cache Hcache. unfold conversion_ratio_in. rewrite Et.
    rewrite (lookup_weaken _ _ _ _ Hin Hcache). reflexivity.
Qed.

(** The ledger that a row of the replay leaves is [ledger_step] at the
    ratio that the cache holds for the row's original ticker. *)
Lemma process_row_ledger (ticker asset_type : string) (etf : bool)
    (results results' : Results) (led led' : LedgerState) (row : Row)
    (w w1 : World) :
  process_row ticker asset_type etf (results, led) row w
  = (Ok (results', led'), w1) ->
  ticker_cache w ⊆ ticker_cache w1
  /\ forall cache, ticker_cache w1 ⊆ cache ->
                   led' = ledger_step (conversion_ratio_in cache row) row led.
Proof.
  intros H.
  pose proof (stable_process_row ticker asset_type etf (results, led) row
                w _ _ H) as (Hsub & _).
  split; [exact Hsub |]. intros cache Hcache.
  revert H. unfold process_row, ledger_step.
  destruct (decide (TransactionType row = "dividend")) as [E | N1].
  { rewrite E. cbn. intros H.
    apply bind_ok in H as (dom & wa & _ & Hk).
    destruct (bool_decide (dom = "IE")); injection Hk as _ <- _; reflexivity. }
  rewrite (bool_decide_eq_false_2 _ N1).
  destruct (decide (TransactionType row = "buy")) as [E | N2].
  { rewrite E. cbn. intros H.
    apply bind_ok in H as (ratio & wa & Hr & Hk).
    injection Hk as _ <- <-.
    apply get_conversion_ratio_run in Hr as (_ & Hr).
    rewrite (Hr cache Hcache). reflexivity. }
  rewrite (bool_decide_eq_false_2 _ N2).
  destruct (decide (TransactionType row = "sell")) as [E | N3].
  { rewrite E. cbn. intros H.
    apply bind_ok in H as (ratio & wa & Hr & Hk).
    injection Hk as _ <- <-.
    apply get_conversion_ratio_run in Hr as (_ & Hr).
    rewrite (Hr cache Hcache). reflexivity. }
  rewrite (bool_decide_eq_false_2 _ N3).
  destruct (str_in (TransactionType row) ["merger_stock"; "merger"]).
  { intros H. injection H as _ <- _. reflexivity. }
  destruct (decide (TransactionType row = "merger_cash")) as [E | N4].
  { rewrite E. cbn. intros H.
    destruct (0 <? TotalAmountEUR row); injection H as _ <- _; reflexivity. }
  rewrite (bool_decide_eq_false_2 _ N4).
  destruct (bool_decide (TransactionType row = "transfer_merger")).
  { intros H. injection H as _ <- _. reflexivity. }
  intros H. injection H as _ <- _. reflexivity.
Qed.

Lemma foldM_process_row_replay (ticker asset_type : string) (etf : bool)
    (rows : list Row) (results results' : Results) (led led' : LedgerState)
    (w w' : World) :
  foldM (process_row ticker asset_type etf) (results, led) rows w
  = (Ok (results', led'), w') ->
  ticker_cache w ⊆ ticker_cache w'
  /\ forall cache, ticker_cache w' ⊆ cache ->
                   led' = replay (conversion_ratio_in cache) rows led.
Proof.
  revert results led w.
  induction rows as [| row rows IH]; intros results led w H.
  - injection H as <- <- <-. split; [reflexivity |]. reflexivity.
  - cbn [foldM] in H.
    apply bind_ok in H as ([res1 led1] & w1 & Hrow & Hrest).
    apply process_row_ledger in Hrow as (Hsub1 & Hstep).
    apply IH in Hrest as (Hsub2 & Hreplay).
    split; [etrans; eassumption |].
    intros cache Hcache. cbn [replay fold_left].
    rewrite <- (Hstep cache) by (etrans; eassumption).
    apply Hreplay, Hcache.
Qed.

End ReplayLedger.

(* ===================================================================== *)
(** * What each kind of row does to the ledger *)
(* ===================================================================== *)

Section LedgerSteps.

Lemma sell_loop_lots_nonnegative (q : list Lot) (rem tcb ts tc : Q) :
  lots_nonnegative q ->
  lots_nonnegative (buy_queue (sl_ledger (sell_loop q rem tcb ts tc))).
Proof.
  intros Hq. revert rem tcb ts tc.
  induction Hq as [| lot rest Hlot Hrest IH]; intros rem tcb ts tc.
  - constructor.
  - destruct (Qlt_le_dec 0 rem) as [Hrem | Hrem].
    + destruct (Qlt_le_dec rem (quantity lot)) as [Hl | Hl].
      * rewrite sell_loop_partial by assumption. cbn.
        constructor; [cbn; lra | exact Hrest].
      * rewrite sell_loop_full by assumption. apply IH.
    + rewrite sell_loop_exit by (left; exact Hrem). cbn.
      constructor; assumption.
Qed.

(** The loops keep the totals in step with the queue. *)
Lemma sell_loop_consistent (q : list Lot) (rem tcb ts tc : Q) :
  let led' := sl_ledger (sell_loop q rem tcb ts tc) in
  (ts == queue_quantity q -> ledger_shares_ok led')
  /\ (tc == queue_cost q -> ledger_cost_ok led').
Proof.
  destruct (sell_loop_accounts q rem tcb ts tc) as (H1 & H2 & _).
  unfold ledger_shares_ok, ledger_cost_ok. cbv zeta in *.
  split; intros H; lra.
Qed.

Lemma apply_buy_shares (ratio : Q) (row : Row) (led : LedgerState) :
  ledger_shares_ok led -> ledger_shares_ok (apply_buy ratio row led).
Proof.
  unfold ledger_shares_ok, apply_buy. cbn. intros H.
  rewrite queue_quantity_app, queue_quantity_cons, queue_quantity_nil.
  cbn. lra.
Qed.

Lemma apply_buy_cost (ratio : Q) (row : Row) (led : LedgerState) :
  0 < ratio -> ledger_cost_ok led -> ledger_cost_ok (apply_buy ratio row led).
Proof.
  unfold ledger_cost_ok, apply_buy. cbn. intros Hr H.
  rewrite queue_cost_app, queue_cost_cons, queue_cost_nil. cbn.
  destruct (Qltb_reflect 0 ratio); [| contradiction].
  rewrite H. field. lra.
Qed.

Lemma apply_buy_lots (ratio : Q) (row : Row) (led : LedgerState) :
  (0 <= Quantity (raw row) -> 0 <= ratio ->
   lots_nonnegative (buy_queue led) ->
   lots_nonnegative (buy_queue (apply_buy ratio row led)))
  /\ (0 < Quantity (raw row) -> 0 < ratio ->
      lots_positive (buy_queue led) ->
      lots_positive (buy_queue (apply_buy ratio row led))).
Proof.
  unfold apply_buy. cbn. split; intros Hq Hr H.
  - apply Forall_app. split; [exact H |].
    constructor; [cbn | constructor]. now apply Qmult_le_0_compat.
  - apply Forall_app. split; [exact H |].
    constructor; [cbn | constructor]. now apply Qmult_lt_0_compat.
Qed.

Lemma apply_transfer_shares (row : Row) (led : LedgerState) :
  ledger_shares_ok led -> ledger_shares_ok (apply_transfer row led).
Proof.
  unfold ledger_shares_ok, apply_transfer. intros H.
  destruct (0 <? Quantity (raw row)); [| exact H]. cbn.
  rewrite queue_quantity_app, queue_quantity_cons, queue_quantity_nil.
  cbn. lra.
Qed.

Lemma apply_transfer_cost (row : Row) (led : LedgerState) :
  ledger_cost_ok led -> ledger_cost_ok (apply_transfer row led).
Proof.
  unfold ledger_cost_ok, apply_transfer. intros H.
  destruct (0 <? Quantity (raw row)); [| exact H]. cbn.
  rewrite queue_cost_app, queue_cost_cons, queue_cost_nil.
  cbn. lra.
Qed.

Lemma apply_transfer_lots (row : Row) (led : LedgerState) :
  (lots_nonnegative (buy_queue led) ->
   lots_nonnegative (buy_queue (apply_transfer row led)))
  /\ (lots_positive (buy_queue led) ->
      lots_positive (buy_queue (apply_transfer row led))).
Proof.
  unfold apply_transfer.
  destruct (Qltb_reflect 0 (Quantity (raw row))) as [Hq | Hq];
    [| split; auto].
  cbn. split; intros H; apply Forall_app; (split; [exact H |]);
    (constructor; [cbn; lra | constructor]).
Qed.

Lemma apply_merger_sell_loop (row : Row) (led : LedgerState) :
  Quantity (raw row) < 0 ->
  apply_merger row led
  = sl_ledger (sell_loop (buy_queue led) (Qabs (Quantity (raw row))) 0
                 (total_shares led) (total_cost led)).
Proof.
  intros Hq. unfold apply_merger.
  destruct (Qltb_reflect (Quantity (raw row)) 0); [| contradiction].
  rewrite (remove_loop_sell_loop _ _ 0). reflexivity.
Qed.

Lemma apply_merger_keeps (P : LedgerState -> Prop) (row : Row)
    (led : LedgerState) :
  P led ->
  (forall rem, P (sl_ledger (sell_loop (buy_queue led) rem 0
                               (total_shares led) (total_cost led)))) ->
  P (apply_merger row led).
Proof.
  intros Hled Hloop.
  destruct (Qlt_le_dec (Quantity (raw row)) 0) as [Hq | Hq].
  - rewrite apply_merger_sell_loop by exact Hq. apply Hloop.
  - unfold apply_merger.
    destruct (Qltb_reflect (Quantity (raw row)) 0); [lra | exact Hled].
Qed.

(** The kinds of row, as [ledger_step] tells them apart. *)
Lemma ledger_step_cases (P : LedgerState -> Prop) (ratio : Q) (row : Row)
    (led : LedgerState) :
  (TransactionType row = "buy" -> P (apply_buy ratio row led)) ->
  P (fst (apply_sell ratio row led)) ->
  P (apply_merger row led) ->
  P (apply_transfer row led) ->
  P led ->
  P (ledger_step ratio row led).
Proof.
  intros Hb Hs Hm Ht Hn. unfold ledger_step.
  case_bool_decide; [auto |].
  case_bool_decide; [auto |].
  destruct (str_in _ _); [auto |].
  case_bool_decide; auto.
Qed.

Lemma ledger_step_shares (ratio : Q) (row : Row) (led : LedgerState) :
  ledger_shares_ok led -> ledger_shares_ok (ledger_step ratio row led).
Proof.
  intros H. apply ledger_step_cases; auto.
  - intros _. now apply apply_buy_shares.
  - now apply sell_loop_consistent.
  - apply apply_merger_keeps; [exact H |].
    intros rem. now apply sell_loop_consistent.
  - now apply apply_transfer_shares.
Qed.

Lemma ledger_step_cost (ratio : Q) (row : Row) (led : LedgerState) :
  (TransactionType row = "buy" -> 0 < ratio) ->
  ledger_cost_ok led -> ledger_cost_ok (ledger_step ratio row led).
Proof.
  intros Hr H. apply ledger_step_cases; auto.
  - intros Hb. apply apply_buy_cost; auto.
  - now apply sell_loop_consistent.
  - apply apply_merger_keeps; [exact H |].
    intros rem. now apply sell_loop_consistent.
  - now apply apply_transfer_cost.
Qed.

Lemma ledger_step_nonnegative (ratio : Q) (row : Row) (led : LedgerState) :
  (TransactionType row = "buy" -> 0 <= Quantity (raw row) /\ 0 <= ratio) ->
  lots_nonnegative (buy_queue led) ->
  lots_nonnegative (buy_queue (ledger_step ratio row led)).
Proof.
  intros Hr H.
  apply (ledger_step_cases (fun l => lots_nonnegative (buy_queue l))); auto.
  - intros Hb. destruct (Hr Hb). now apply apply_buy_lots.
  - now apply sell_loop_lots_nonnegative.
  - apply (apply_merger_keeps (fun l => lots_nonnegative (buy_queue l)));
      [exact H |].
    intros rem. now apply sell_loop_lots_nonnegative.
  - now apply apply_transfer_lots.
Qed.

Lemma ledger_step_positive (ratio : Q) (row : Row) (led : LedgerState) :
  (TransactionType row = "buy" -> 0 < Quantity (raw row) /\ 0 < ratio) ->
  lots_positive (buy_queue led) ->
  lots_positive (buy_queue (ledger_step ratio row led)).
Proof.
  intros Hr H.
  apply (ledger_step_cases (fun l => lots_positive (buy_queue l))); auto.
  - intros Hb. destruct (Hr Hb). now apply apply_buy_lots.
  - now apply sell_loop_lots_positive.
  - apply (apply_merger_keeps (fun l => lots_positive (buy_queue l)));
      [exact H |].
    intros rem. now apply sell_loop_lots_positive.
  - now apply apply_transfer_lots.
Qed.

(** An invariant of every step is an invariant of the replay. *)
Lemma replay_keeps (P : LedgerState -> Prop) (ratio_of : Row -> Q)
    (rows : list Row) (led : LedgerState) :
  (forall row led, row ∈ rows -> P led -> P (ledger_step (ratio_of row) row led)) ->
  P led -> P (replay ratio_of rows led).
Proof.
  revert led. induction rows as [| row rows IH]; intros led Hstep Hled.
  - exact Hled.
  - cbn [replay fold_left]. apply IH.
    + intros r l Hr. apply Hstep. apply elem_of_cons. right. exact Hr.
    + apply Hstep; [apply elem_of_cons; left; reflexivity | exact Hled].
Qed.

Lemma replay_app (ratio_of : Row -> Q) (rows1 rows2 : list Row)
    (led : LedgerState) :
  replay ratio_of (rows1 ++ rows2) led
  = replay ratio_of rows2 (replay ratio_of rows1 led).
Proof. unfold replay. apply fold_left_app. Qed.

Lemma no_oversell_held (ratio_of : Row -> Q) (rows : list Row)
    (held held' : Q) :
  held == held' ->
  no_oversell ratio_of rows held -> no_oversell ratio_of rows held'.
Proof.
  revert held held'. induction rows as [| row rows IH]; intros h h' E;
    cbn [no_oversell]; [auto |].
  case_bool_decide.
  - apply IH. lra.
  - case_bool_decide; [| auto].
    intros (H1 & H2 & H3). split; [exact H1 |]. split; [lra |].
    eapply IH; [| exact H3]. lra.
Qed.

(** A sell of no more than is held is served in full. *)
Lemma apply_sell_served (ratio : Q) (row : Row) (led : LedgerState) :
  ledger_shares_ok led ->
  0 <= Quantity (raw row) * ratio ->
  Quantity (raw row) * ratio <= total_shares led ->
  total_shares (fst (apply_sell ratio row led))
  == total_shares led - Quantity (raw row) * ratio.
Proof.
  unfold ledger_shares_ok, apply_sell. cbn [fst]. intros Hok H0 Hle.
  destruct (sell_loop_accounts (buy_queue led) (Quantity (raw row) * ratio) 0
              (total_shares led) (total_cost led))
    as (H1 & _ & _ & H4 & H5 & H6).
  cbv zeta in *.
  set (r := sell_loop _ _ _ _ _) in *.
  specialize (H5 H0).
  destruct (Qlt_le_dec 0 (remaining_to_sell r)) as [Hpos | Hnp].
  - rewrite (H6 Hpos), queue_quantity_nil in *. lra.
  - lra.
Qed.

(** Conservation: buys and sells without oversell leave what was
    bought less what was sold. *)
Lemma replay_conservation (ratio_of : Row -> Q) (rows : list Row)
    (led : LedgerState) :
  ledger_shares_ok led ->
  no_oversell ratio_of rows (total_shares led) ->
  total_shares (replay ratio_of rows led)
  == total_shares led + bought ratio_of rows - sold ratio_of rows.
Proof.
  revert led. induction rows as [| row rows IH]; intros led Hok Hno.
  - cbn. lra.
  - cbn [replay fold_left]. fold (replay ratio_of rows).
    cbn [no_oversell bought sold fold_right] in Hno |- *.
    fold (bought ratio_of rows) (sold ratio_of rows).
    pose proof (ledger_step_shares (ratio_of row) row led Hok) as Hok'.
    specialize (IH (ledger_step (ratio_of row) row led) Hok').
    unfold ledger_step in *.
    destruct (decide (TransactionType row = "buy")) as [Eb | Nb].
    + rewrite (bool_decide_eq_true_2 _ Eb) in *.
      assert (Ns : TransactionType row <> "sell") by (rewrite Eb; discriminate).
      rewrite (bool_decide_eq_false_2 _ Ns).
      assert (Hs : total_shares (apply_buy (ratio_of row) row led)
                   == total_shares led + converted_quantity ratio_of row)
        by (cbn; unfold converted_quantity; lra).
      rewrite IH; [lra |].
      eapply no_oversell_held; [| exact Hno]. rewrite Hs. reflexivity.
    + rewrite (bool_decide_eq_false_2 _ Nb) in *.
      destruct (decide (TransactionType row = "sell")) as [Es | Ns].
      * rewrite (bool_decide_eq_true_2 _ Es) in *.
        destruct Hno as (H0 & Hle & Hrest).
        unfold converted_quantity in *.
        pose proof (apply_sell_served (ratio_of row) row led Hok H0 Hle) as Hs.
        rewrite IH; [lra |].
        eapply no_oversell_held; [| exact Hrest]. rewrite Hs. reflexivity.
      * rewrite (bool_decide_eq_false_2 _ Ns) in Hno. contradiction.
Qed.

End LedgerSteps.

(* ===================================================================== *)
(** * Sells: FIFO consumption and the oversold case *)
(* ===================================================================== *)

Section Sells.

(** Decide the comparisons between string literals of the goal. *)
Ltac decide_literals :=
  repeat match goal with
  | |- context [bool_decide (?a = ?b)] =>
      first [ rewrite (bool_decide_eq_true_2 (a = b)) by reflexivity
            | rewrite (bool_decide_eq_false_2 (a = b)) by discriminate ]
  end.

Lemma yearly_get_add (m : gmap Z Q) (year : Z) (x : Q) :
  yearly_get (yearly_add m year x) year = yearly_get m year + x.
Proof. unfold yearly_get, yearly_add. rewrite lookup_insert_eq. reflexivity. Qed.

Lemma summary_of_book (asset_type ticker key : string) (year : Z) (x : Q)
    (results : Results) :
  summary_of (book asset_type ticker key year x results) asset_type key
  = yearly_add (summary_of results asset_type key) year x.
Proof.
  unfold book, detail_add, detail_update, summary_add, summary_of, yearly_of.
  cbn. repeat (rewrite lookup_insert_eq; cbn). reflexivity.
Qed.

Lemma detail_of_book (asset_type ticker key : string) (year : Z) (x : Q)
    (results : Results) :
  yearly_of (td_yearly (detail_of (book asset_type ticker key year x results)
                          ticker)) key
  = yearly_add (yearly_of (td_yearly (detail_of results ticker)) key) year x.
Proof.
  unfold book, detail_add, detail_update, summary_add, detail_of, yearly_of.
  cbn. repeat (rewrite lookup_insert_eq; cbn). reflexivity.
Qed.

Lemma fifo_loop_rules_hold : fifo_loop_rules.
Proof.
  intros lot rest rem tcb ts tc. split; [reflexivity |].
  split; [intros H; apply sell_loop_exit; left; exact H |].
  split; [apply sell_loop_full | apply sell_loop_partial].
Qed.

(** A sell row, once the conversion ratio has been read. *)
Lemma process_row_sell (ticker asset_type : string) (etf : bool)
    (results : Results) (led : LedgerState) (transaction : Row)
    (w w1 : World) (ratio : Q) :
  TransactionType transaction = "sell" ->
  get_conversion_ratio (Ticker (raw transaction)) w = (Ok ratio, w1) ->
  let loop :=
    sell_loop (buy_queue led) (Quantity (raw transaction) * ratio) 0
      (total_shares led) (total_cost led) in
  process_row ticker asset_type etf (results, led) transaction w
  = (Ok (book asset_type ticker "realized_gains" (Year transaction)
           (PricePerShareEUR transaction * Quantity (raw transaction)
            - total_cost_basis loop) results,
         sl_ledger loop), w1).
Proof.
  intros E Hr. unfold process_row. rewrite E. decide_literals.
  unfold bind. rewrite Hr. reflexivity.
Qed.

Lemma process_row_sell_inv (ticker asset_type : string) (etf : bool)
    (results results' : Results) (led led' : LedgerState)
    (transaction : Row) (w w' : World) :
  TransactionType transaction = "sell" ->
  process_row ticker asset_type etf (results, led) transaction w
  = (Ok (results', led'), w') ->
  get_conversion_ratio (Ticker (raw transaction)) w
  = (Ok (conversion_ratio_in (ticker_cache w') transaction), w').
Proof.
  intros E H.
  assert (H' := H). revert H'. unfold process_row. rewrite E.
  decide_literals. intros H'. apply bind_ok in H' as (ratio & wa & Hr & Hk).
  injection Hk as _ _ <-.
  destruct (get_conversion_ratio_run _ _ _ _ Hr) as (_ & Hc).
  rewrite (Hc (ticker_cache wa)) by reflexivity. exact Hr.
Qed.

(** C1. A sell consumes the lots oldest first.  The loop follows the
    rules of the specification one test at a time; the ledger after
    the row is the one the loop leaves; the realized gain is the sale
    unit price times the sale quantity less the disposal cost basis
    the loop has accumulated, and it is added to the realized gains of
    the transaction's year, both of the asset class and of the ticker;
    and when the lots are positive and the sale ends inside a lot, the
    lots in front of it are gone, that lot is reduced by the rest of
    the sale, the lots behind it are untouched, and the cost basis is
    the cost of the consumed lots plus the consumed part of that lot. *)
Theorem sell_consumes_fifo (ticker asset_type : string) (etf : bool)
    (results results' : Results) (led led' : LedgerState)
    (transaction : Row) (w w' : World) :
  TransactionType transaction = "sell" ->
  process_row ticker asset_type etf (results, led) transaction w
  = (Ok (results', led'), w') ->
  let sale := Quantity (raw transaction)
              * conversion_ratio_in (ticker_cache w') transaction in
  let loop :=
    sell_loop (buy_queue led) sale 0 (total_shares led) (total_cost led) in
  let realized_gain :=
    PricePerShareEUR transaction * Quantity (raw transaction)
    - total_cost_basis loop in
  fifo_loop_rules
  /\ led' = sl_ledger loop
  /\ yearly_get (summary_of results' asset_type "realized_gains")
       (Year transaction)
     = yearly_get (summary_of results asset_type "realized_gains")
         (Year transaction)
       + realized_gain
  /\ detail_yearly results' ticker "realized_gains" (Year transaction)
     = detail_yearly results ticker "realized_gains" (Year transaction)
       + realized_gain
  /\ (forall (pre post : list Lot) (lot : Lot),
        buy_queue led = (pre ++ lot :: post)%list ->
        lots_positive pre ->
        queue_quantity pre <= sale ->
        sale < queue_quantity pre + quantity lot ->
        (exists lot',
            buy_queue led' = lot' :: post
            /\ quantity lot' == quantity lot - (sale - queue_quantity pre)
            /\ price_per_share_eur lot' = price_per_share_eur lot
            /\ year lot' = year lot)
        /\ total_cost_basis loop
           == queue_cost pre
              + (sale - queue_quantity pre) * price_per_share_eur lot).
Proof.
  intros E H sale loop realized_gain.
  pose proof (process_row_sell_inv _ _ _ _ _ _ _ _ _ _ E H) as Hr.
  pose proof (process_row_sell ticker asset_type etf results led
                transaction w w' _ E Hr) as Hrun.
  cbv zeta in Hrun. rewrite Hrun in H. injection H as <- <-.
  split; [apply fifo_loop_rules_hold |].
  split; [reflexivity |].
  split; [rewrite summary_of_book; apply yearly_get_add |].
  split; [unfold detail_yearly; rewrite detail_of_book; apply yearly_get_add |].
  intros pre post lot Hq Hpre Hle Hlt.
  destruct (sell_loop_oldest_first pre post lot sale 0 (total_shares led)
              (total_cost led) Hpre Hle Hlt) as (Hlot & Hbasis & _).
  fold loop. subst loop. rewrite Hq.
  split; [exact Hlot |]. rewrite Hbasis. ring.
Qed.

(** The example of the specification: lots bought at 10, 20 and 30,
    one share each; selling two consumes a cost basis of 10 + 20 = 30,
    leaves the lot bought at 30, and books a gain of 2 x 50 - 30. *)
Lemma sell_consumes_fifo_witness :
  let led := replay (fun _ => 1) three_buys empty_ledger in
  let run :=
    process_row "ACME" "stocks" false (initial_results, led) sell_two
      sample_world in
  exists results' led',
    run = (Ok (results', led'), sample_world)
    /\ buy_queue led = [lot_of (1 * 1) (10 / 1); lot_of (1 * 1) (20 / 1);
                        lot_of (1 * 1) (30 / 1)]
    /\ total_cost_basis
         (sell_loop (buy_queue led) (2 * 1) 0 (total_shares led)
            (total_cost led)) == 30
    /\ (exists lot', buy_queue led' = [lot']
                     /\ quantity lot' == 1
                     /\ price_per_share_eur lot' = 30 / 1)
    /\ yearly_get (summary_of results' "stocks" "realized_gains") 2021 == 70.
Proof.
  intros led run.
  destruct run as [[[results' led'] | e] w'] eqn:Erun;
    [| vm_compute in Erun; discriminate Erun].
  assert (Ew : w' = sample_world).
  { pose proof (f_equal snd Erun) as Hw. cbn [snd] in Hw.
    rewrite <- Hw. vm_compute. reflexivity. }
  subst w'.
  exists results', led'. split; [reflexivity |].
  split; [reflexivity |].
  destruct (sell_consumes_fifo "ACME" "stocks" false initial_results results'
              led led' sell_two sample_world sample_world eq_refl Erun)
    as (_ & Hled & Hsum & _ & Hfifo).
  destruct (Hfifo [lot_of (1 * 1) (10 / 1); lot_of (1 * 1) (20 / 1)] []
              (lot_of (1 * 1) (30 / 1)))
    as ((lot' & Hq & Hqty & Hprice & _) & Hbasis).
  { reflexivity. }
  { repeat constructor. }
  { vm_compute. discriminate. }
  { vm_compute. reflexivity. }
  split; [| split].
  - etransitivity; [exact Hbasis |]. vm_compute. reflexivity.
  - exists lot'. split; [exact Hq |]. split; [| exact Hprice].
    etransitivity; [exact Hqty |]. vm_compute. reflexivity.
  - change (Year sell_two) with 2021%Z in Hsum. rewrite Hsum.
    vm_compute. reflexivity.
Defined.

(** C6. An oversold sell passes in silence.  When the converted sale
    quantity exceeds the quantity held in the queue, the row is
    processed without an exception: the only trace of it in the
    results is the realized gain, and the world is the one the ratio
    lookup left.  The gain is the sale proceeds less the cost of the
    lots the loop took out of the queue; with lots of nonnegative
    quantity the loop empties the queue, a part of the sale quantity
    is left unserved, and the cost basis is the cost of the whole
    queue and of nothing else. *)
Theorem oversold_sell_is_silent (ticker asset_type : string) (etf : bool)
    (results : Results) (led : LedgerState) (transaction : Row)
    (w w1 : World) (ratio : Q) :
  TransactionType transaction = "sell" ->
  get_conversion_ratio (Ticker (raw transaction)) w = (Ok ratio, w1) ->
  queue_quantity (buy_queue led) < Quantity (raw transaction) * ratio ->
  let sale := Quantity (raw transaction) * ratio in
  let loop :=
    sell_loop (buy_queue led) sale 0 (total_shares led) (total_cost led) in
  let realized_gain :=
    PricePerShareEUR transaction * Quantity (raw transaction)
    - total_cost_basis loop in
  process_row ticker asset_type etf (results, led) transaction w
  = (Ok (book asset_type ticker "realized_gains" (Year transaction)
           realized_gain results,
         sl_ledger loop), w1)
  /\ total_cost_basis loop
     == queue_cost (buy_queue led) - queue_cost (buy_queue (sl_ledger loop))
  /\ (lots_nonnegative (buy_queue led) ->
      buy_queue (sl_ledger loop) = []
      /\ 0 < remaining_to_sell loop
      /\ remaining_to_sell loop == sale - queue_quantity (buy_queue led)
      /\ total_cost_basis loop == queue_cost (buy_queue led)
      /\ realized_gain
         == PricePerShareEUR transaction * Quantity (raw transaction)
            - queue_cost (buy_queue led)).
Proof.
  intros E Hr Hover sale loop realized_gain.
  split; [apply process_row_sell; assumption |].
  destruct (sell_loop_accounts (buy_queue led) sale 0 (total_shares led)
              (total_cost led)) as (_ & _ & H3 & _).
  cbv zeta in H3. fold loop in H3.
  split; [rewrite H3; ring |].
  intros Hlots.
  destruct (sell_loop_oversold (buy_queue led) sale 0 (total_shares led)
              (total_cost led) Hlots Hover) as (H1 & H2 & H4 & H5 & _).
  cbv zeta in *. fold loop in H1, H2, H4, H5.
  split; [exact H1 |]. split; [exact H2 |]. split; [exact H4 |].
  assert (Hb : total_cost_basis loop == queue_cost (buy_queue led))
    by (rewrite H5; ring).
  split; [exact Hb |].
  unfold realized_gain. rewrite Hb. reflexivity.
Qed.

(** Selling five shares against the three of the example: no
    exception, an empty queue, two shares unserved, and a gain that
    counts a cost basis of 60 only. *)
Lemma oversold_sell_is_silent_witness :
  let led := replay (fun _ => 1) three_buys empty_ledger in
  let sell_five := mk_row "ACME" "sell" 2021 5 50 in
  let loop :=
    sell_loop (buy_queue led) (5 * 1) 0 (total_shares led) (total_cost led) in
  (exists results',
      process_row "ACME" "stocks" false (initial_results, led) sell_five
        sample_world
      = (Ok (results', sl_ledger loop), sample_world))
  /\ buy_queue (sl_ledger loop) = []
  /\ remaining_to_sell loop == 2
  /\ total_cost_basis loop == 60.
Proof.
  intros led sell_five loop.
  destruct (oversold_sell_is_silent "ACME" "stocks" false initial_results led
              sell_five sample_world sample_world 1 eq_refl)
    as (Hrun & _ & Hover).
  { vm_compute. reflexivity. }
  { vm_compute. reflexivity. }
  destruct Hover as (Hq & _ & Hrem & Hbasis & _).
  { repeat constructor; vm_compute; discriminate. }
  split; [eexists; exact Hrun |].
  split; [exact Hq |].
  split.
  - etransitivity; [exact Hrem |]. vm_compute. reflexivity.
  - etransitivity; [exact Hbasis |]. vm_compute. reflexivity.
Defined.

End Sells.

(* ===================================================================== *)
(** * The ledger invariant along the replay *)
(* ===================================================================== *)

Section Conservation.

Lemma foldM_app {A S : Type} (f : S -> A -> M S) (l1 l2 : list A) (s s' : S)
    (w w' : World) :
  foldM f s (l1 ++ l2) w = (Ok s', w') ->
  exists s1 w1, foldM f s l1 w = (Ok s1, w1) /\ foldM f s1 l2 w1 = (Ok s', w').
Proof.
  revert s w. induction l1 as [| a l1 IH]; intros s w H.
  - exists s, w. split; [reflexivity | exact H].
  - cbn [app foldM] in H.
    apply bind_ok in H as (s2 & w2 & Hf & Hrest).
    destruct (IH _ _ Hrest) as (s1 & w1 & H1 & H2).
    exists s1, w1. split; [| exact H2].
    cbn [foldM]. unfold bind. rewrite Hf. exact H1.
Qed.

(** The ledger in the middle of a replay, in terms of the cache at its end. *)
Lemma foldM_process_row_prefix (ticker asset_type : string) (etf : bool)
    (rows1 rows2 : list Row) (results results' : Results)
    (led' : LedgerState) (w w' : World) :
  foldM (process_row ticker asset_type etf) (results, empty_ledger)
    (rows1 ++ rows2) w = (Ok (results', led'), w') ->
  let led1 := replay (conversion_ratio_in (ticker_cache w')) rows1 empty_ledger in
  exists results1 w1,
    foldM (process_row ticker asset_type etf) (results, empty_ledger) rows1 w
    = (Ok (results1, led1), w1)
    /\ foldM (process_row ticker asset_type etf) (results1, led1) rows2 w1
       = (Ok (results', led'), w').
Proof.
  intros H led1.
  apply foldM_app in H as ([results1 l1] & w1 & H1 & H2).
  destruct (foldM_process_row_replay _ _ _ _ _ _ _ _ _ _ H1) as (_ & Hl1).
  destruct (foldM_process_row_replay _ _ _ _ _ _ _ _ _ _ H2) as (Hsub & _).
  exists results1, w1. subst led1.
  rewrite <- (Hl1 (ticker_cache w') Hsub). split; assumption.
Qed.

Lemma empty_ledger_consistent : ledger_consistent empty_ledger.
Proof.
  split; unfold ledger_shares_ok, ledger_cost_ok; cbn;
    rewrite ?queue_quantity_nil, ?queue_cost_nil; reflexivity.
Qed.

Lemma replay_shares_ok (ratio_of : Row -> Q) (rows : list Row) :
  ledger_shares_ok (replay ratio_of rows empty_ledger).
Proof.
  apply (replay_keeps ledger_shares_ok).
  - intros row led _. apply ledger_step_shares.
  - apply empty_ledger_consistent.
Qed.

Lemma replay_cost_ok (ratio_of : Row -> Q) (rows : list Row) :
  (forall row, row ∈ rows -> TransactionType row = "buy" -> 0 < ratio_of row) ->
  ledger_cost_ok (replay ratio_of rows empty_ledger).
Proof.
  intros Hr. apply (replay_keeps ledger_cost_ok).
  - intros row led Hin. apply ledger_step_cost. intros Hb. now apply Hr.
  - apply empty_ledger_consistent.
Qed.

Lemma handle_inactive_ledger (ticker asset_type : string) (active : bool)
    (current_year : Z) (results : Results) (led : LedgerState) :
  let after :=
    snd (handle_inactive ticker asset_type active current_year (results, led)) in
  (active = false -> 0 < total_shares led ->
   total_shares after = 0 /\ total_cost after = 0
   /\ buy_queue after = buy_queue led)
  /\ (active = true \/ total_shares led <= 0 -> after = led).
Proof.
  unfold handle_inactive. destruct active; cbn [negb andb].
  - split; [discriminate | reflexivity].
  - destruct (Qltb_reflect 0 (total_shares led)) as [Hp | Hn]; cbn [snd].
    + split; [intros _ _; repeat split |].
      intros [C | C]; [discriminate | lra].
    + split; [intros _ C; contradiction | reflexivity].
Qed.

(** C3, as claimed, fails.  After the write-off of an inactive
    instrument the totals are zero while the lot is still in the queue;
    and a buy whose ticker has a conversion ratio of zero adds its cost
    to the total but a lot of no quantity to the queue. *)
Lemma write_off_breaks_ledger_invariant :
  (exists results led w',
      foldM (process_row "DEAD" "stocks" false) (initial_results, empty_ledger)
        [mk_row "DEAD" "buy" 2020 1 10] sample_world
      = (Ok (results, led), w')
      /\ ledger_consistent led
      /\ ~ ledger_shares_ok
             (snd (handle_inactive "DEAD" "stocks" false 2024 (results, led)))
      /\ ~ ledger_cost_ok
             (snd (handle_inactive "DEAD" "stocks" false 2024 (results, led))))
  /\ (exists results led w',
         foldM (process_row "ZERO" "stocks" false)
           (initial_results, empty_ledger)
           [mk_row "ZERO" "buy" 2020 1 10] sample_world
         = (Ok (results, led), w')
         /\ ~ ledger_cost_ok led).
Proof.
  split.
  - eexists _, _, _. split; [vm_compute; reflexivity |].
    split; [split; vm_compute; reflexivity |].
    split; intros H; vm_compute in H; discriminate H.
  - eexists _, _, _. split; [vm_compute; reflexivity |].
    intros H; vm_compute in H; discriminate H.
Qed.

(** C3, amended.  At every point of the replay of an instrument, that is
    after every prefix of its rows, [total_shares] equals the sum of the
    lot quantities in the queue; [total_cost] equals the sum over the
    lots of quantity times unit cost provided the conversion ratios of
    the buys so far are positive; and when the rows so far are buys and
    sells without oversell, the quantity held is the converted
    quantities bought less the converted quantities sold.  The write-off
    of an inactive instrument sets both totals to zero and does not
    touch the queue. *)
Theorem ledger_conservation (ticker asset_type : string) (etf : bool)
    (rows1 rows2 : list Row) (results results' : Results)
    (led' : LedgerState) (w w' : World) :
  foldM (process_row ticker asset_type etf) (results, empty_ledger)
    (rows1 ++ rows2) w = (Ok (results', led'), w') ->
  let ratio_of := conversion_ratio_in (ticker_cache w') in
  let led1 := replay ratio_of rows1 empty_ledger in
  (exists results1 w1,
      foldM (process_row ticker asset_type etf) (results, empty_ledger) rows1 w
      = (Ok (results1, led1), w1)
      /\ foldM (process_row ticker asset_type etf) (results1, led1) rows2 w1
         = (Ok (results', led'), w'))
  /\ ledger_shares_ok led1
  /\ ((forall row, row ∈ rows1 -> TransactionType row = "buy" ->
                   0 < ratio_of row) ->
      ledger_cost_ok led1)
  /\ (no_oversell ratio_of rows1 0 ->
      total_shares led1 == bought ratio_of rows1 - sold ratio_of rows1
      /\ queue_quantity (buy_queue led1)
         == bought ratio_of rows1 - sold ratio_of rows1)
  /\ (forall (active : bool) (current_year : Z),
        let after :=
          snd (handle_inactive ticker asset_type active current_year
                 (results', led')) in
        (active = false -> 0 < total_shares led' ->
         total_shares after = 0 /\ total_cost after = 0
         /\ buy_queue after = buy_queue led')
        /\ (active = true \/ total_shares led' <= 0 -> after = led')).
Proof.
  intros H ratio_of led1.
  split; [exact (foldM_process_row_prefix _ _ _ _ _ _ _ _ _ _ H) |].
  pose proof (replay_shares_ok ratio_of rows1) as Hshares. fold led1 in Hshares.
  split; [exact Hshares |].
  split; [apply replay_cost_ok |].
  split; [| intros active current_year; apply handle_inactive_ledger].
  intros Hno.
  pose proof (replay_conservation ratio_of rows1 empty_ledger
                (proj1 empty_ledger_consistent) Hno) as Hc.
  fold led1 in Hc. cbn [total_shares empty_ledger] in Hc.
  unfold ledger_shares_ok in Hshares.
  split; [rewrite Hc; ring | rewrite <- Hshares, Hc; ring].
Qed.

(** Three buys and a sale of two in the example world: the totals agree
    with the queue, and one share is left. *)
Lemma ledger_conservation_witness :
  let rows := (three_buys ++ [sell_two])%list in
  let ratio_of := conversion_ratio_in (ticker_cache sample_world) in
  let led := replay ratio_of rows empty_ledger in
  ledger_shares_ok led /\ ledger_cost_ok led
  /\ queue_quantity (buy_queue led) == 1.
Proof.
  intros rows ratio_of led.
  destruct (foldM (process_row "ACME" "stocks" false)
              (initial_results, empty_ledger) (rows ++ []) sample_world)
    as [[[results' led'] | e] w'] eqn:Erun;
    [| vm_compute in Erun; discriminate Erun].
  assert (Ew : w' = sample_world).
  { pose proof (f_equal snd Erun) as Hw. cbn [snd] in Hw.
    rewrite <- Hw. vm_compute. reflexivity. }
  subst w'.
  destruct (ledger_conservation "ACME" "stocks" false rows [] initial_results
              results' led' sample_world sample_world Erun)
    as (_ & Hshares & Hcost & Hcons & _).
  split; [exact Hshares |].
  split.
  - apply Hcost. intros row Hin Hb. subst rows.
    repeat (apply elem_of_cons in Hin as [-> | Hin]; [vm_compute; reflexivity |]).
    apply elem_of_nil in Hin. contradiction.
  - destruct Hcons as (_ & Hq).
    + vm_compute. repeat split; discriminate.
    + etransitivity; [exact Hq |]. vm_compute. reflexivity.
Defined.

End Conservation.

(* ===================================================================== *)
(** * Lots are never negative; the running total can be *)
(* ===================================================================== *)

Section Holdings.

(** ** Rounding to a double keeps the sign *)







(** ** The lots under any rounding that keeps the sign *)

Section Rounding.

Variable rnd : Q -> Q.

(** What the rounding of doubles guarantees: the rounded value of an
    amount that is not negative is not negative, and the rounded
    difference of two different amounts is not zero. *)
Hypothesis rnd_nonneg : forall x : Q, 0 <= x -> 0 <= rnd x.
Hypothesis rnd_sub_pos : forall a b : Q, b < a -> 0 < rnd (a - b).







End Rounding.

(** With an arithmetic that does not round, the rounded replay is the
    replay. *)
Lemma replay_fl_exact (ratio_of : Row -> Q) (rows : list Row)
    (led : LedgerState) :
  replay_fl (fun x => x) ratio_of rows led = replay ratio_of rows led.
Proof. reflexivity. Qed.



End Holdings.

(* ===================================================================== *)
(** * The holdings that are reported *)
(* ===================================================================== *)

Section ReportedHoldings.

Lemma insert_by_date_elem (x y : Row) (l : list Row) :
  x ∈ insert_by_date y l <-> x = y \/ x ∈ l.
Proof.
  induction l as [| z l IH]; cbn [insert_by_date].
  - rewrite elem_of_cons. reflexivity.
  - destruct (Date (raw y) <=? Date (raw z))%Z.
    + rewrite elem_of_cons. reflexivity.
    + rewrite !elem_of_cons, IH. tauto.
Qed.

Lemma sort_values_Date_elem (x : Row) (l : list Row) :
  x ∈ sort_values_Date l <-> x ∈ l.
Proof.
  induction l as [| y l IH]; cbn [sort_values_Date fold_right]; [reflexivity |].
  fold (sort_values_Date l).
  rewrite insert_by_date_elem, elem_of_cons, IH. reflexivity.
Qed.

Lemma detail_of_update (ticker : string) (f : TickerDetail -> TickerDetail)
    (results : Results) :
  detail_of (detail_update ticker f results) ticker
  = f (detail_of results ticker).
Proof.
  unfold detail_of, detail_update. cbn. rewrite lookup_insert_eq. reflexivity.
Qed.

Lemma report_cost_basis_holdings (ticker original_currency : string)
    (ticker_data : list Row) (led : LedgerState) (results : Results) :
  current_holdings
    (detail_of (report_cost_basis ticker original_currency ticker_data led
                  results) ticker)
  = current_holdings (detail_of results ticker).
Proof.
  unfold report_cost_basis.
  destruct (bool_decide (original_currency = "EUR")).
  - rewrite !detail_of_update. reflexivity.
  - destruct (0 <? total_shares led).
    + destruct (get_weighted_fx_rate ticker_data) as [rate | []];
        rewrite !detail_of_update; reflexivity.
    + rewrite !detail_of_update. reflexivity.
Qed.

(** [current_holdings] of a ticker is the [total_shares] that the replay
    of its rows and the handling of inactive instruments leave. *)
Lemma process_ticker_reports_holdings (now : Timestamp)
    (relevant_df : list Row) (results results' : Results) (ticker : string)
    (w w' : World) :
  process_ticker now relevant_df results ticker w = (Ok results', w') ->
  exists (etf active : bool) (results0 results1 : Results)
         (led1 : LedgerState) (wa wb : World),
    let asset_type := if etf then "etfs" else "stocks" in
    let ticker_data :=
      sort_values_Date
        (List.filter
           (fun row => bool_decide (NormalizedTicker row = Some ticker))
           relevant_df) in
    foldM (process_row ticker asset_type etf) (results0, empty_ledger)
      ticker_data wa = (Ok (results1, led1), wb)
    /\ ticker_cache wb ⊆ ticker_cache w'
    /\ current_holdings (detail_of results' ticker)
       = total_shares
           (snd (handle_inactive ticker asset_type active (year_of now)
                   (results1, led1))).
Proof.
  unfold process_ticker. intros H.
  apply bind_ok in H as (etf & wa & _ & H).
  apply bind_ok in H as ([results1 led1] & wb & Hfold & H).
  apply bind_ok in H as (active & wc & Hact & H).
  destruct (handle_inactive ticker (if etf then "etfs" else "stocks") active
              (year_of now) (results1, led1)) as [results2 led2] eqn:Hin.
  apply bind_ok in H as (results3 & wd & Hdeemed & H).
  apply bind_ok in H as (info & we & Hinfo & H).
  destruct info as [info |]; [| discriminate H].
  injection H as <- <-.
  eexists etf, active, _, results1, led1, wa, wb.
  cbv zeta. split; [exact Hfold |]. split.
  - pose proof (stable_is_active _ _ _ _ Hact) as (S1 & _).
    pose proof (stable_get_ticker_info _ _ _ _ Hinfo) as (S3 & _).
    assert (S2 : ticker_cache wc ⊆ ticker_cache wd).
    { match type of Hdeemed with
      | ?m wc = _ => assert (Hst : stable m)
      end.
      { destruct (etf && negb (bool_decide
                    (buy_transactions (detail_of results2 ticker) = [])));
          [| apply stable_ret].
        apply stable_bind;
          [apply stable_calculate_deemed_disposal_liability |].
        intros [[g l] d]. destruct (0 <? g); apply stable_ret. }
      exact (proj1 (Hst _ _ _ Hdeemed)). }
    etrans; [exact S1 |]. etrans; [exact S2 | exact S3].
  - rewrite report_cost_basis_holdings, detail_of_update.
    rewrite Hin. reflexivity.
Qed.

End ReportedHoldings.

(* ===================================================================== *)
(** * Running the aggregation again *)
(* ===================================================================== *)

Section Rerun.

(** A stable computation gives its outcome again in every world whose
    resolver agrees with the first run on the keys that run has cached:
    in particular where the resolver answers alike everywhere, and where
    the ticker cache holds what the first run left there. *)
Lemma stable_rerun {A : Type} (m : M A) (w w1 : World) (r : result A) :
  stable m -> m w = (r, w1) ->
  (forall w2,
      (forall key, is_Some (ticker_cache w1 !! key) ->
                   resolve w2 key = resolve w1 key) ->
      fst (m w2) = r)
  /\ (forall w2, (forall key, resolve w2 key = resolve w key) -> fst (m w2) = r)
  /\ (forall w2, ticker_cache w1 ⊆ ticker_cache w2 -> fst (m w2) = r).
Proof.
  intros Hm H. destruct (Hm _ _ _ H) as (_ & Hres & Hre).
  assert (Hgen : forall w2,
             (forall key, is_Some (ticker_cache w1 !! key) ->
                          resolve w2 key = resolve w1 key) ->
             fst (m w2) = r).
  { intros w2 Hw2. destruct (Hre w2 Hw2) as (w3 & E3).
    rewrite E3. reflexivity. }
  split; [exact Hgen |].
  split; intros w2 Hw2; apply Hgen.
  - intros key _. rewrite Hres. apply Hw2.
  - intros key [info Hkey]. unfold resolve.
    rewrite Hkey, (lookup_weaken _ _ _ _ Hkey Hw2). reflexivity.
Qed.

(** C8. Aggregation is repeatable.  Take any run of
    [process_transactions], with its outcome (the results, or the
    exception) and the world it leaves.  A run over the same rows at the
    same evaluation date has the same outcome in every world whose
    resolver answers as the first run's on the tickers that run has
    cached, whatever else differs: so in every world where the resolver
    answers alike; in every world whose ticker cache holds the entries
    the first run left, whatever the cache file and the instrument
    service have become; and in particular in the world the first run
    left, with or without the stored transaction history. *)
Theorem process_transactions_repeatable (now : Timestamp) (df : list RawRow)
    (store_transactions : bool) (w w1 : World) (r : result Results) :
  process_transactions now df store_transactions w = (r, w1) ->
  (forall w2,
      (forall key, is_Some (ticker_cache w1 !! key) ->
                   resolve w2 key = resolve w1 key) ->
      fst (process_transactions now df store_transactions w2) = r)
  /\ (forall w2, (forall key, resolve w2 key = resolve w key) ->
                 fst (process_transactions now df store_transactions w2) = r)
  /\ (forall w2, ticker_cache w1 ⊆ ticker_cache w2 ->
                 fst (process_transactions now df store_transactions w2) = r)
  /\ fst (process_transactions now df store_transactions w1) = r
  /\ (forall h, fst (process_transactions now df store_transactions
                       (set_transaction_history h w1)) = r).
Proof.
  intros H.
  destruct (stable_rerun _ _ _ _
              (stable_process_transactions now df store_transactions) H)
    as (Hgen & Hsame & Hlater).
  split; [exact Hgen |]. split; [exact Hsame |]. split; [exact Hlater |].
  split; [apply Hlater; reflexivity |].
  intros h. apply Hlater. reflexivity.
Qed.

(** The sample export, run twice on the same calculator: the first run
    fetches the unknown fund from the instrument service and caches it,
    the second run finds it in the cache, and both report the same
    results; the realized gain of the stock is 2 x 50 - (10 + 20). *)
Lemma process_transactions_repeatable_witness :
  let first := process_transactions sample_now sample_df false sample_world in
  let second := process_transactions sample_now sample_df false (snd first) in
  fst second = fst first
  /\ ticker_cache sample_world !! "VUSA" = None
  /\ is_Some (ticker_cache (snd first) !! "VUSA")
  /\ match fst first with
     | Ok results =>
         yearly_get (summary_of results "stocks" "realized_gains") 2020 == 70
         /\ current_holdings (detail_of results "ACME") == 1
         /\ current_holdings (detail_of results "VUSA") == 2
     | Raise _ => False
     end.
Proof.
  intros first second.
  split.
  - apply (process_transactions_repeatable sample_now sample_df false
             sample_world (snd first) (fst first)).
    apply surjective_pairing.
  - split; [vm_compute; reflexivity |].
    split; [vm_compute; eexists; reflexivity |].
    vm_compute. repeat split; discriminate.
Defined.

End Rerun.


(* ===================================================================== *)
(** * Classification and the resolver *)
(* ===================================================================== *)

Section LetterCase.

Lemma upper_ascii_idempotent (c : ascii) :
  upper_ascii (upper_ascii c) = upper_ascii c.
Proof. destruct c as [[] [] [] [] [] [] [] []]; reflexivity. Qed.

Lemma upper_idempotent (s : string) : upper (upper s) = upper s.
Proof.
  induction s as [| c s IH]; cbn [upper]; [reflexivity |].
  rewrite upper_ascii_idempotent, IH. reflexivity.
Qed.

Lemma upper_empty_iff (s : string) : upper s = "" <-> s = "".
Proof. destruct s; cbn [upper]; split; intros H; congruence. Qed.

(** X1. The classification of a transaction type does not depend on
    the letter case of the text, and it is always one of the eight
    kinds [buy], [sell], [dividend], [merger_stock], [merger_cash],
    [merger], [transfer_broker] and [ignore]. *)
Theorem classify_transaction_type_case_insensitive (type_str : string) :
  classify_transaction_type (Some (upper type_str))
  = classify_transaction_type (Some type_str)
  /\ classify_transaction_type (Some type_str)
     ∈ ["buy"; "sell"; "dividend"; "merger_stock"; "merger_cash"; "merger";
        "transfer_broker"; "ignore"].
Proof.
  split.
  - unfold classify_transaction_type. rewrite upper_idempotent. reflexivity.
  - unfold classify_transaction_type.
    repeat match goal with
           | |- context [if ?b then _ else _] => destruct b
           end;
      repeat (first [apply list_elem_of_here | apply list_elem_of_further]).
Qed.

End LetterCase.

Section ResolverLookups.

Lemma skipped_upper (t : string) : skipped (Some (upper t)) = skipped (Some t).
Proof.
  unfold skipped. rewrite upper_idempotent.
  destruct (decide (t = "")) as [-> | Hne]; [reflexivity |].
  rewrite (bool_decide_eq_false_2 (t = "")) by exact Hne.
  rewrite (bool_decide_eq_false_2 (upper t = ""));
    [reflexivity | rewrite upper_empty_iff; exact Hne].
Qed.

(** X2. A ticker that is missing, empty, or spelled NONE or NAN in any
    letter case is never looked up: [get_ticker_info] answers [None] and
    leaves the calculator, the cache file and the service alone, and
    [is_etf], [is_active], [get_conversion_ratio] and [get_domicile]
    raise [ValueError].  Every other ticker gets an entry, and none of
    the four raises: each answers from that entry, with the defaults
    [True], [1.0] and ['Unknown'] for absent keys. *)
Theorem resolver_raises_exactly_on_missing_tickers (ticker : option string)
    (w : World) :
  if skipped ticker then
    get_ticker_info ticker w = (Ok None, w)
    /\ is_etf ticker w = (Raise ValueError, w)
    /\ is_active ticker w = (Raise ValueError, w)
    /\ get_conversion_ratio ticker w = (Raise ValueError, w)
    /\ get_domicile ticker w = (Raise ValueError, w)
  else
    exists (info : TickerInfo) (w1 : World),
      get_ticker_info ticker w = (Ok (Some info), w1)
      /\ is_etf ticker w = (Ok (bool_decide (ti_type info = "etf")), w1)
      /\ is_active ticker w = (Ok (default true (ti_active info)), w1)
      /\ get_conversion_ratio ticker w
         = (Ok (default 1 (ti_conversion_ratio info)), w1)
      /\ get_domicile ticker w
         = (Ok (default "Unknown" (ti_domicile info)), w1).
Proof.
  destruct (skipped ticker) eqn:Hs.
  - pose proof (get_ticker_info_skipped ticker w Hs) as E.
    unfold is_etf, is_active, get_conversion_ratio, get_domicile, bind.
    rewrite E. repeat split.
  - destruct ticker as [t |]; [| discriminate Hs].
    destruct (get_ticker_info_looked_up t w Hs) as (w1 & E & _).
    exists (resolve w (upper t)), w1.
    unfold is_etf, is_active, get_conversion_ratio, get_domicile, bind.
    rewrite E. repeat split.
Qed.

(** X3. The first lookup of a ticker fills the calculator's cache and
    every later lookup is a cache hit.  A ticker that the cache holds is
    answered from it and nothing changes.  A ticker that the cache does
    not hold is answered from the cache file if the file has it, and the
    file stays as it is; otherwise the answer is derived from the
    instrument service and written to the file.  Either way the entry
    is stored in the calculator's cache under the upper-cased ticker,
    and looking the ticker up again gives the same entry without any
    further change. *)
Theorem get_ticker_info_fills_cache (t : string) (w : World) :
  skipped (Some t) = false ->
  exists (info : TickerInfo) (w1 : World),
    get_ticker_info (Some t) w = (Ok (Some info), w1)
    /\ get_ticker_info (Some t) w1 = (Ok (Some info), w1)
    /\ ticker_cache w1 !! upper t = Some info
    /\ yfinance w1 = yfinance w
    /\ transaction_history w1 = transaction_history w
    /\ match ticker_cache w !! upper t with
       | Some cached => info = cached /\ w1 = w
       | None =>
           ticker_cache w1 = <[upper t := info]> (ticker_cache w)
           /\ match cache_file w !! upper t with
              | Some stored => info = stored /\ cache_file w1 = cache_file w
              | None =>
                  info = entry_of_yfinance (yfinance w (upper t))
                  /\ cache_file w1 = <[upper t := info]> (cache_file w)
              end
       end.
Proof.
  intros Hs.
  assert (Hrun : forall w0 : World,
             get_ticker_info (Some t) w0
             = match ticker_cache w0 !! upper t with
               | Some cached => (Ok (Some cached), w0)
               | None =>
                   match cache_file w0 !! upper t with
                   | Some stored =>
                       (Ok (Some stored),
                        set_ticker_cache
                          (<[upper t := stored]> (ticker_cache w0)) w0)
                   | None =>
                       let entry := entry_of_yfinance (yfinance w0 (upper t)) in
                       (Ok (Some entry),
                        set_ticker_cache
                          (<[upper t := entry]> (ticker_cache w0))
                          (set_cache_file
                             (<[upper t := entry]> (cache_file w0)) w0))
                   end
               end).
  { intros w0. unfold skipped in Hs. unfold get_ticker_info.
    destruct (bool_decide (t = "")); [discriminate Hs |].
    cbn [orb] in Hs. rewrite Hs.
    unfold bind, get_world, ret, modify_world, add_missing_ticker_to_cache.
    destruct (ticker_cache w0 !! upper t); [reflexivity |].
    unfold bind, get_world, ret, modify_world.
    destruct (cache_file w0 !! upper t); reflexivity. }
  rewrite (Hrun w).
  destruct (ticker_cache w !! upper t) as [cached |] eqn:Ec.
  - exists cached, w. rewrite (Hrun w), Ec. repeat split; assumption.
  - destruct (cache_file w !! upper t) as [stored |] eqn:Ef.
    + eexists stored, _. split; [reflexivity |].
      rewrite Hrun. cbn. rewrite lookup_insert_eq. repeat split.
    + eexists _, _. split; [reflexivity |].
      rewrite Hrun. cbn. rewrite lookup_insert_eq. repeat split.
Qed.

Lemma get_ticker_info_fills_cache_witness :
  skipped (Some "vusa") = false
  /\ exists (info : TickerInfo) (w1 : World),
       get_ticker_info (Some "vusa") sample_world = (Ok (Some info), w1)
       /\ get_ticker_info (Some "vusa") w1 = (Ok (Some info), w1)
       /\ ticker_cache w1 !! upper "vusa" = Some info
       /\ yfinance w1 = yfinance sample_world
       /\ transaction_history w1 = transaction_history sample_world
       /\ match ticker_cache sample_world !! upper "vusa" with
          | Some cached => info = cached /\ w1 = sample_world
          | None =>
              ticker_cache w1
              = <[upper "vusa" := info]> (ticker_cache sample_world)
              /\ match cache_file sample_world !! upper "vusa" with
                 | Some stored =>
                     info = stored /\ cache_file w1 = cache_file sample_world
                 | None =>
                     info = entry_of_yfinance
                              (yfinance sample_world (upper "vusa"))
                     /\ cache_file w1
                        = <[upper "vusa" := info]> (cache_file sample_world)
                 end
          end.
Proof.
  split; [reflexivity |].
  apply (get_ticker_info_fills_cache "vusa" sample_world). reflexivity.
Defined.

Lemma get_ticker_info_upper (t : string) (w : World) :
  get_ticker_info (Some (upper t)) w = get_ticker_info (Some t) w.
Proof.
  unfold get_ticker_info. rewrite upper_idempotent.
  destruct (decide (t = "")) as [-> | Hne]; [reflexivity |].
  rewrite (bool_decide_eq_false_2 (t = "")) by exact Hne.
  rewrite (bool_decide_eq_false_2 (upper t = ""));
    [reflexivity | rewrite upper_empty_iff; exact Hne].
Qed.

(** A run of [normalize_ticker]: it looks the upper-cased ticker up,
    unless the ticker is one that is not looked up. *)
Lemma normalize_ticker_run (t : string) (w : World) :
  exists w1 : World,
    normalize_ticker (Some t) w
    = (Ok (if skipped (Some t) then None
           else Some (default (upper t)
                        (merged_target (resolve w (upper t))))), w1)
    /\ (if skipped (Some t) then w1 = w
        else get_ticker_info (Some t) w
             = (Ok (Some (resolve w (upper t))), w1)).
Proof.
  unfold normalize_ticker.
  destruct (decide (t = "")) as [-> | Hne].
  { exists w. split; reflexivity. }
  rewrite (bool_decide_eq_false_2 (t = "")) by exact Hne. cbn [orb].
  destruct (bool_decide (upper t = "NAN")) eqn:Hnan.
  { exists w. unfold skipped.
    rewrite (bool_decide_eq_false_2 (t = "")) by exact Hne.
    rewrite Hnan, orb_true_r. cbn [orb]. split; reflexivity. }
  unfold bind. rewrite get_ticker_info_upper.
  destruct (skipped (Some t)) eqn:Hs.
  - exists w. rewrite (get_ticker_info_skipped (Some t) w Hs).
    split; reflexivity.
  - destruct (get_ticker_info_looked_up t w Hs) as (w1 & E & _).
    exists w1. rewrite E. split; [| reflexivity].
    unfold ret. destruct (merged_target (resolve w (upper t))); reflexivity.
Qed.

(** X4. [normalize_ticker] never raises.  It answers [None] exactly for
    the tickers that are not looked up; for every other ticker it
    answers the merge target of the ticker's entry when the entry names
    one, and the upper-cased ticker otherwise.  The answer is never the
    empty string, and it does not depend on the letter case of the
    ticker. *)
Theorem normalize_ticker_answer (t : string) (w : World) :
  exists w1 : World,
    normalize_ticker (Some t) w
    = (Ok (if skipped (Some t) then None
           else Some (default (upper t)
                        (merged_target (resolve w (upper t))))), w1)
    /\ normalize_ticker (Some (upper t)) w = normalize_ticker (Some t) w
    /\ fst (normalize_ticker (Some t) w) <> Ok (Some "").
Proof.
  destruct (normalize_ticker_run t w) as (w1 & E & Hw1).
  exists w1. split; [exact E |]. split.
  - destruct (normalize_ticker_run (upper t) w) as (w2 & E2 & Hw2).
    rewrite E, E2. rewrite skipped_upper, upper_idempotent in *.
    destruct (skipped (Some t)).
    + subst w1 w2. reflexivity.
    + rewrite get_ticker_info_upper, Hw1 in Hw2.
      injection Hw2 as <-. reflexivity.
  - rewrite E. cbn [fst]. destruct (skipped (Some t)) eqn:Hs; [discriminate |].
    intros H. injection H as H.
    unfold merged_target in H.
    destruct (ti_merged_into (resolve w (upper t))) as [target |].
    + destruct (bool_decide (target = "")) eqn:Ht; cbn in H.
      * apply (proj1 (upper_empty_iff t)) in H. subst t. discriminate Hs.
      * subst target. discriminate Ht.
    + cbn in H. apply (proj1 (upper_empty_iff t)) in H. subst t.
      discriminate Hs.
Qed.

End ResolverLookups.

(* ===================================================================== *)
(** * The figures of the stock CGT computation *)
(* ===================================================================== *)

Section CgtFigures.
Import TaxCalculations.

(** Replace [pymin], [pymax] and [Qabs] by variables constrained by
    their defining cases. *)
Ltac name_minmax :=
  repeat match goal with
  | |- context [Qabs ?a] =>
      let H := fresh "Habs" in let m := fresh "m" in
      pose proof (Qabs_cases a) as H;
      set (m := Qabs a) in *; clearbody m
  | |- context [pymin ?a ?b] =>
      let H := fresh "Hmin" in let m := fresh "m" in
      pose proof (pymin_cases a b) as H;
      set (m := pymin a b) in *; clearbody m
  | |- context [pymax ?a ?b] =>
      let H := fresh "Hmax" in let m := fresh "m" in
      pose proof (pymax_cases a b) as H;
      set (m := pymax a b) in *; clearbody m
  end.

Ltac split_cases :=
  repeat match goal with
  | H : (_ /\ _) \/ (_ /\ _) |- _ => destruct H as [[? ?] | [? ?]]
  end.

(** The accumulator of one year, from a nonnegative accumulator. *)
Lemma apply_cgt_accumulator (gain losses exemption : Q) :
  0 <= losses ->
  let '(_, _, used, remaining) :=
    apply_cgt_with_loss_carry_forward gain losses exemption in
  0 <= used /\ used <= losses
  /\ 0 <= remaining
  /\ remaining == losses - used + pymax 0 (- gain).
Proof.
  intros HL.
  unfold apply_cgt_with_loss_carry_forward.
  cbv zeta. destruct (Qltb_reflect 0 gain); name_minmax;
    repeat (qcases_step; cbn [andb]);
    name_minmax; split_cases; repeat split; lra.
Qed.

(** X5. With a nonnegative loss accumulator and a nonnegative
    exemption, the figures of [apply_cgt_with_loss_carry_forward] are
    bounded and add up: the taxable gain lies between zero and the
    gain, the liability is 33% of it, the carry-forward used lies
    between zero and the accumulator, and the new accumulator is
    nonnegative and equals the old one less what was used plus the loss
    of the year.  For a positive gain, the gain is the sum of the
    exemption applied ([get_exemption_applied]), the carry-forward used
    and the taxable gain; for a gain that is not positive nothing is
    taxed and nothing is used. *)
Theorem apply_cgt_figures_add_up (gain losses exemption : Q) :
  0 <= losses -> 0 <= exemption ->
  let '(taxable, liability, used, remaining) :=
    apply_cgt_with_loss_carry_forward gain losses exemption in
  0 <= taxable /\ taxable <= pymax 0 gain
  /\ liability == (33 # 100) * taxable
  /\ 0 <= used /\ used <= losses
  /\ 0 <= remaining
  /\ remaining == losses - used + pymax 0 (- gain)
  /\ (0 < gain ->
      gain == get_exemption_applied gain exemption + used + taxable)
  /\ (gain <= 0 -> taxable == 0 /\ used == 0).
Proof.
  intros HL HE.
  unfold apply_cgt_with_loss_carry_forward, get_exemption_applied.
  cbv zeta. destruct (Qltb_reflect 0 gain); name_minmax;
    repeat (qcases_step; cbn [andb]);
    name_minmax; split_cases; repeat split; intros; lra.
Qed.

(** A gain of 2,000 against 500 of losses: 1,270 exempt, 500 relieved,
    230 taxable. *)
Lemma apply_cgt_figures_add_up_witness :
  0 <= 500 /\ 0 <= 1270
  /\ let '(taxable, liability, used, remaining) :=
       apply_cgt_with_loss_carry_forward 2000 500 1270 in
     0 <= taxable /\ taxable <= pymax 0 2000
     /\ liability == (33 # 100) * taxable
     /\ 0 <= used /\ used <= 500
     /\ 0 <= remaining
     /\ remaining == 500 - used + pymax 0 (- 2000)
     /\ (0 < 2000 ->
         2000 == get_exemption_applied 2000 1270 + used + taxable)
     /\ (2000 <= 0 -> taxable == 0 /\ used == 0).
Proof.
  split; [discriminate |]. split; [discriminate |].
  apply (apply_cgt_figures_add_up 2000 500 1270); discriminate.
Defined.

End CgtFigures.

(* ===================================================================== *)
(** * Years without a dividend entry *)
(* ===================================================================== *)

Section DividendEntries.
Import TaxCalculations.

(** X6. [calculate_dividend_taxes] has an entry for a year exactly when
    the year is a key of the dividends of some asset class and the
    Irish and foreign stock dividends of the year sum to more than
    zero.  The dividends of funds decide nothing but the years that are
    looked at: a year whose stock dividends are zero has no entry. *)
Theorem calculate_dividend_taxes_entry_iff (results : Results)
    (margin_rate : Q) (year : Z) :
  is_Some (calculate_dividend_taxes results margin_rate !! year)
  <-> year ∈ years_with results "dividends"
      /\ 0 < yearly_get (summary_of results "stocks" "dividends_irish") year
             + yearly_get (summary_of results "stocks" "dividends_foreign")
                 year.
Proof.
  unfold calculate_dividend_taxes. rewrite lookup_fold_entries.
  destruct (decide (year ∈ merge_sort Z.le
                             (elements (years_with results "dividends"))))
    as [Hin | Hnin].
  - rewrite merge_sort_Permutation, elem_of_elements in Hin.
    unfold dividend_tax_of_year. cbv zeta.
    destruct (Qltb_reflect 0
                (yearly_get (summary_of results "stocks" "dividends_irish")
                   year
                 + yearly_get (summary_of results "stocks" "dividends_foreign")
                     year)) as [Hpos | Hneg].
    + split; [intros _; split; assumption | intros _; eexists; reflexivity].
    + rewrite lookup_empty. split.
      * intros [x Hx]. discriminate Hx.
      * intros [_ Hpos]. contradiction.
  - rewrite merge_sort_Permutation, elem_of_elements in Hnin.
    rewrite lookup_empty. split.
    + intros [x Hx]. discriminate Hx.
    + intros [Hin _]. contradiction.
Qed.

End DividendEntries.

(* ===================================================================== *)
(** * The loss accumulator over the years of the report *)
(* ===================================================================== *)

Section ReportYears.
Import TaxCalculations.

Lemma fold_cgt_lines (results : Results) (years : list Z) (L : Q)
    (lines0 : list (Z * (Q * Q * Q * Q))) :
  snd
    (fold_left
       (fun (acc : Q * list (Z * (Q * Q * Q * Q))) year =>
          let '(accumulated_losses, lines) := acc in
          let stock_realized :=
            yearly_get (summary_of results "stocks" "realized_gains") year in
          let figures :=
            apply_cgt_with_loss_carry_forward stock_realized
              accumulated_losses 1270 in
          (snd figures, (lines ++ [(year, figures)])%list))
       years (L, lines0))
  = (lines0 ++ cgt_lines results L years)%list.
Proof.
  revert L lines0.
  induction years as [| y years IH]; intros L lines0;
    cbn [fold_left cgt_lines].
  - cbn [snd]. rewrite app_nil_r. reflexivity.
  - cbv zeta. rewrite IH. rewrite <- app_assoc. reflexivity.
Qed.

Lemma generate_report_cgt_lines (results : Results) :
  generate_report_cgt results
  = cgt_lines results 0
      (merge_sort Z.le
         (elements (years_with results "realized_gains"
                    ∪ years_with results "dividends"))).
Proof. unfold generate_report_cgt. cbv zeta. apply fold_cgt_lines. Qed.

(** The accumulator after some lines, [L] before the first. *)
Lemma accumulated_after_snoc (lines : list (Z * (Q * Q * Q * Q)))
    (line : Z * (Q * Q * Q * Q)) :
  accumulated_after (lines ++ [line]) = line_accumulated line.
Proof. unfold accumulated_after. rewrite last_snoc. reflexivity. Qed.

Lemma total_used_app (l1 l2 : list (Z * (Q * Q * Q * Q))) :
  total_used (l1 ++ l2) == total_used l1 + total_used l2.
Proof.
  unfold total_used.
  induction l1 as [| line l1 IH]; cbn [app fold_right]; lra.
Qed.

Lemma total_losses_app (results : Results)
    (l1 l2 : list (Z * (Q * Q * Q * Q))) :
  total_losses results (l1 ++ l2)
  == total_losses results l1 + total_losses results l2.
Proof.
  unfold total_losses.
  induction l1 as [| line l1 IH]; cbn [app fold_right]; lra.
Qed.

(** A line of the figures of a list of years splits the years. *)
Lemma cgt_lines_split (results : Results) (years : list Z) (L : Q)
    (pre post : list (Z * (Q * Q * Q * Q))) (line : Z * (Q * Q * Q * Q)) :
  cgt_lines results L years = (pre ++ line :: post)%list ->
  exists (ys1 ys2 : list Z),
    years = (ys1 ++ fst line :: ys2)%list
    /\ pre = cgt_lines results L ys1
    /\ snd line
       = apply_cgt_with_loss_carry_forward (stock_gain results (fst line))
           (match last pre with
            | Some l => line_accumulated l
            | None => L
            end) 1270.
Proof.
  revert years L. induction pre as [| p pre IH]; intros years L H.
  - destruct years as [| y years]; [discriminate H |].
    cbn [cgt_lines app] in H. injection H as <- _.
    exists [], years. cbn. repeat split.
  - destruct years as [| y years]; [discriminate H |].
    cbn [cgt_lines app] in H. injection H as <- H.
    destruct (IH _ _ H) as (ys1 & ys2 & -> & Hpre & Hline).
    exists (y :: ys1), ys2. split; [reflexivity |].
    split; [cbn [cgt_lines]; rewrite <- Hpre; reflexivity |].
    rewrite Hline. f_equal.
    rewrite last_cons. destruct (last pre) as [l |]; [reflexivity |].
    destruct (apply_cgt_with_loss_carry_forward (stock_gain results y) L 1270)
      as [[[a b] c] d]; reflexivity.
Qed.

(** The accumulator after the figures of a list of years. *)
Lemma cgt_lines_accumulated (results : Results) (years : list Z) (L : Q) :
  0 <= L ->
  let after :=
    match last (cgt_lines results L years) with
    | Some l => line_accumulated l
    | None => L
    end in
  0 <= after
  /\ after
     == L + total_losses results (cgt_lines results L years)
        - total_used (cgt_lines results L years).
Proof.
  revert L. induction years as [| y years IH]; intros L HL; cbv zeta.
  - cbn. split; [exact HL | lra].
  - cbn [cgt_lines].
    pose proof (apply_cgt_accumulator (stock_gain results y) L 1270 HL) as Hfig.
    destruct (apply_cgt_with_loss_carry_forward (stock_gain results y) L 1270)
      as [[[taxable liability] used] remaining] eqn:Efig.
    destruct Hfig as (_ & _ & Hrem & Hacc).
    cbn [snd].
    specialize (IH remaining Hrem). cbv zeta in IH.
    destruct IH as [IH1 IH2].
    unfold total_losses, total_used. cbn [fold_right fst].
    fold (total_losses results (cgt_lines results remaining years)).
    fold (total_used (cgt_lines results remaining years)).
    rewrite last_cons.
    destruct (last (cgt_lines results remaining years)) as [l |].
    + split; [exact IH1 |]. cbn [line_used]. lra.
    + cbn [line_accumulated line_used]. split; [exact Hrem |]. lra.
Qed.

(** X7. The report threads the loss accumulator through the years in
    ascending order.  The figures of a year are those of
    [apply_cgt_with_loss_carry_forward] for the stock gain of the year
    and the accumulator the year before has left, zero before the first
    year.  The accumulator a year leaves is never negative and equals
    the losses of all years so far less the carry-forward used so far:
    a loss stays available until it is used, and the relief used up to a
    year never exceeds the losses of the years before it. *)
Theorem report_carries_losses_forward (results : Results)
    (pre post : list (Z * (Q * Q * Q * Q))) (line : Z * (Q * Q * Q * Q)) :
  generate_report_cgt results = (pre ++ line :: post)%list ->
  snd line
  = apply_cgt_with_loss_carry_forward (stock_gain results (fst line))
      (accumulated_after pre) 1270
  /\ 0 <= line_accumulated line
  /\ line_accumulated line
     == total_losses results (pre ++ [line])
        - total_used (pre ++ [line])
  /\ total_used (pre ++ [line]) <= total_losses results pre.
Proof.
  intros H. rewrite generate_report_cgt_lines in H.
  destruct (cgt_lines_split _ _ _ _ _ _ H) as (ys1 & ys2 & Hy & Hpre & Hline).
  fold (accumulated_after pre) in Hline.
  split; [exact Hline |].
  pose proof (cgt_lines_accumulated results ys1 0) as Hacc.
  rewrite <- Hpre in Hacc. cbv zeta in Hacc.
  fold (accumulated_after pre) in Hacc.
  destruct Hacc as [Hacc1 Hacc2]; [discriminate |].
  pose proof (apply_cgt_accumulator (stock_gain results (fst line))
                (accumulated_after pre) 1270 Hacc1) as Hfig.
  rewrite <- Hline in Hfig.
  destruct line as [y [[[taxable liability] used] remaining]].
  cbn [snd fst] in Hfig.
  destruct Hfig as (Hu0 & Hu & Hrem & Hr).
  rewrite total_losses_app, total_used_app.
  unfold total_losses at 2. unfold total_used at 2 4.
  cbn [fold_right fst line_used line_accumulated].
  split; [exact Hrem |]. split; lra.
Qed.

(** The loss year and the gain year of the example: the second line is
    computed from the 500 that the first has left. *)
Lemma report_carries_losses_forward_witness :
  let pre := [(2022%Z, (0, 0 # 100, 0, 500))] in
  let line := (2023%Z, (230, 7590 # 100, 500, 0)) in
  generate_report_cgt loss_then_gain = (pre ++ [line])%list
  /\ snd line
     = apply_cgt_with_loss_carry_forward (stock_gain loss_then_gain (fst line))
         (accumulated_after pre) 1270
  /\ 0 <= line_accumulated line
  /\ line_accumulated line
     == total_losses loss_then_gain (pre ++ [line])
        - total_used (pre ++ [line])
  /\ total_used (pre ++ [line]) <= total_losses loss_then_gain pre.
Proof.
  intros pre line.
  assert (H : generate_report_cgt loss_then_gain = (pre ++ [line])%list)
    by (vm_compute; reflexivity).
  split; [exact H |].
  exact (report_carries_losses_forward loss_then_gain pre [] line H).
Defined.

End ReportYears.

(* ===================================================================== *)
(** * The summary file and the report *)
(* ===================================================================== *)

Section CsvSummary.
Import TaxCalculations.

Lemma years_with_absent (results : Results) (asset_type key : string)
    (year : Z) :
  year ∉ years_with results key ->
  yearly_get (summary_of results asset_type key) year = 0.
Proof.
  intros Hnot. unfold yearly_get, summary_of.
  destruct (summary results !! asset_type) as [per_asset |] eqn:Ea.
  - cbn [default]. unfold id.
    destruct (yearly_of per_asset key !! year) as [x |] eqn:Ey;
      [| reflexivity].
    exfalso. apply Hnot. unfold years_with.
    apply elem_of_union_list.
    exists (dom (yearly_of per_asset key)). split.
    + apply list_elem_of_fmap. exists (asset_type, per_asset).
      split; [reflexivity |]. apply elem_of_map_to_list. exact Ea.
    + apply elem_of_dom. exists x. exact Ey.
  - cbn [default]. unfold yearly_of. rewrite lookup_empty. cbn [default].
    rewrite lookup_empty. reflexivity.
Qed.

(** A year without a stock gain leaves the accumulator as it is. *)
Lemma apply_cgt_no_gain (losses exemption : Q) :
  snd (apply_cgt_with_loss_carry_forward 0 losses exemption) = losses.
Proof. reflexivity. Qed.

Lemma cgt_lines_filter (results : Results) (P : Z -> Prop)
    `{forall y, Decision (P y)} (years : list Z) (L : Q) :
  (forall y, y ∈ years -> ~ P y -> stock_gain results y = 0) ->
  cgt_lines results L (filter P years)
  = filter (fun line => P (fst line)) (cgt_lines results L years).
Proof.
  revert L. induction years as [| y years IH]; intros L Hzero;
    [reflexivity |].
  cbn [cgt_lines]. rewrite !filter_cons. cbn [fst].
  destruct (decide (P y)) as [Hy | Hy].
  - cbn [cgt_lines]. rewrite IH; [reflexivity |].
    intros z Hz. apply Hzero. apply elem_of_cons. right. exact Hz.
  - rewrite (Hzero y) by (try apply elem_of_cons; auto).
    rewrite apply_cgt_no_gain. apply IH.
    intros z Hz. apply Hzero. apply elem_of_cons. right. exact Hz.
Qed.

Lemma StronglySorted_filter_le (P : Z -> Prop) `{forall y, Decision (P y)}
    (l : list Z) :
  StronglySorted Z.le l -> StronglySorted Z.le (filter P l).
Proof.
  induction 1 as [| x l Hl IH Hx]; [constructor |].
  rewrite filter_cons. destruct (decide (P x)); [| exact IH].
  constructor; [exact IH |].
  apply Forall_forall. intros y Hy.
  apply list_elem_of_filter in Hy as [_ Hy].
  exact (proj1 (Forall_forall _ _) Hx y Hy).
Qed.

(** The sorted years of a set of years are those of a larger set that
    lie in the smaller. *)
Lemma sorted_years_filter (S1 S2 : gset Z) :
  S1 ⊆ S2 ->
  merge_sort Z.le (elements S1)
  = filter (fun y => y ∈ S1) (merge_sort Z.le (elements S2)).
Proof.
  intros Hsub.
  apply (StronglySorted_unique Z.le).
  - apply StronglySorted_merge_sort; apply _.
  - apply StronglySorted_filter_le, StronglySorted_merge_sort; apply _.
  - apply NoDup_Permutation.
    + rewrite merge_sort_Permutation. apply NoDup_elements.
    + apply NoDup_filter. rewrite merge_sort_Permutation.
      apply NoDup_elements.
    + intros y. rewrite list_elem_of_filter, !merge_sort_Permutation,
        !elem_of_elements.
      split; [intros Hy; split; [exact Hy | apply Hsub, Hy] | tauto].
Qed.

Lemma cgt_lines_years (results : Results) (years : list Z) (L : Q) :
  map fst (cgt_lines results L years) = years.
Proof.
  revert L. induction years as [| y years IH]; intros L; [reflexivity |].
  cbn [cgt_lines map fst]. rewrite IH. reflexivity.
Qed.

Lemma fold_summary_rows (results : Results)
    (step : Q * list SummaryRow -> Z -> Q * list SummaryRow) :
  (forall (L : Q) (rows : list SummaryRow) (y : Z),
      step (L, rows) y
      = (snd (apply_cgt_with_loss_carry_forward (stock_gain results y) L 1270),
         (rows ++
          [Stocks
             (stocks_row_of results
                (y, apply_cgt_with_loss_carry_forward (stock_gain results y)
                      L 1270));
           ETFs (etfs_row_of results y)])%list)) ->
  forall (years : list Z) (L : Q) (rows0 : list SummaryRow),
    snd (fold_left step years (L, rows0))
    = (rows0 ++
       flat_map
         (fun line =>
            [Stocks (stocks_row_of results line);
             ETFs (etfs_row_of results (fst line))])
         (cgt_lines results L years))%list.
Proof.
  intros Hstep years.
  induction years as [| y years IH]; intros L rows0;
    cbn [fold_left cgt_lines flat_map].
  - cbn [snd]. rewrite app_nil_r. reflexivity.
  - rewrite Hstep, IH. cbn [fst]. rewrite <- app_assoc. reflexivity.
Qed.

(** The rows of the summary file are the rows of the lines of figures
    over the years of the export. *)
Lemma export_to_csv_summary_rows_lines (results : Results) :
  export_to_csv_summary_rows results
  = flat_map
      (fun line =>
         [Stocks (stocks_row_of results line);
          ETFs (etfs_row_of results (fst line))])
      (cgt_lines results 0
         (merge_sort Z.le
            (elements (years_with results "realized_gains"
                       ∪ years_with results "dividends"
                       ∪ years_with results "deemed_disposal_gains")))).
Proof.
  unfold export_to_csv_summary_rows. cbv zeta.
  rewrite (fold_summary_rows results); [reflexivity |].
  intros L rows y.
  unfold apply_cgt_with_loss_carry_forward, stocks_row_of, etfs_row_of,
    calculate_etf_exit_tax, get_exemption_applied, stock_gain.
  cbv zeta.
  destruct (0 <? yearly_get (summary_of results "stocks" "realized_gains") y);
    match goal with
    | |- context [if ?c && ?d then _ else _] => destruct (c && d)
    end;
    reflexivity.
Qed.

Lemma NoDup_fst_inj {A B : Type} (l : list (A * B)) (a b : A * B) :
  NoDup (map fst l) -> a ∈ l -> b ∈ l -> fst a = fst b -> a = b.
Proof.
  induction l as [| x l IH]; cbn [map]; intros Hnd Ha Hb Hfst.
  - apply not_elem_of_nil in Ha. contradiction.
  - apply NoDup_cons in Hnd as [Hx Hnd].
    apply elem_of_cons in Ha as [-> | Ha];
      apply elem_of_cons in Hb as [-> | Hb].
    + reflexivity.
    + exfalso. apply Hx. rewrite Hfst.
      apply (list_elem_of_fmap_2 fst). exact Hb.
    + exfalso. apply Hx. rewrite <- Hfst.
      apply (list_elem_of_fmap_2 fst). exact Ha.
    + apply IH; assumption.
Qed.

(** The lines of the report are among the lines over the years of the
    export, whose years are distinct. *)
Lemma report_lines_in_export_lines (results : Results)
    (line : Z * (Q * Q * Q * Q)) :
  let years :=
    merge_sort Z.le
      (elements (years_with results "realized_gains"
                 ∪ years_with results "dividends"
                 ∪ years_with results "deemed_disposal_gains")) in
  NoDup (map fst (cgt_lines results 0 years))
  /\ (line ∈ generate_report_cgt results ->
      line ∈ cgt_lines results 0 years).
Proof.
  intros years. split.
  - rewrite cgt_lines_years. unfold years.
    rewrite merge_sort_Permutation. apply NoDup_elements.
  - rewrite generate_report_cgt_lines.
    rewrite (sorted_years_filter _
               (years_with results "realized_gains"
                ∪ years_with results "dividends"
                ∪ years_with results "deemed_disposal_gains"))
      by (apply union_subseteq_l).
    fold years. rewrite cgt_lines_filter.
    + intros Hin. apply list_elem_of_filter in Hin as [_ Hin]. exact Hin.
    + intros y _ Hy. unfold stock_gain. apply years_with_absent.
      intros Hr. apply Hy. apply elem_of_union. left. exact Hr.
Qed.

(** X8. The summary file repeats the report.  For every year of the
    report, the file has exactly one stocks row of that year, and its
    taxable gain, tax liability, carry-forward used and losses carried
    forward are the figures of the report for that year, rounded to two
    decimals; the exemption column is [get_exemption_applied] of the
    year's gain.  The years that only the file has, those with deemed
    disposal gains alone, do not disturb the accumulator. *)
Theorem export_to_csv_repeats_report (results : Results) (year : Z)
    (taxable liability used accumulated : Q) :
  (year, (taxable, liability, used, accumulated))
    ∈ generate_report_cgt results ->
  exists row : StocksRow,
    Stocks row ∈ export_to_csv_summary_rows results
    /\ stocks_Year row = year
    /\ Taxable_Gains_Net_EUR row = round2 taxable
    /\ Tax_Liability_EUR row = round2 liability
    /\ Carry_Forward_Loss_Used_EUR row = round2 used
    /\ Losses_Carried_Forward_EUR row = round2 accumulated
    /\ CGT_Exemption_Applied_EUR row
       = round2 (get_exemption_applied (stock_gain results year) 1270)
    /\ forall row' : StocksRow,
         Stocks row' ∈ export_to_csv_summary_rows results ->
         stocks_Year row' = year -> row' = row.
Proof.
  intros Hin.
  destruct (report_lines_in_export_lines results
              (year, (taxable, liability, used, accumulated)))
    as [Hnd Hline].
  specialize (Hline Hin).
  exists (stocks_row_of results (year, (taxable, liability, used, accumulated))).
  rewrite export_to_csv_summary_rows_lines.
  split.
  { apply list_elem_of_In, in_flat_map.
    exists (year, (taxable, liability, used, accumulated)).
    split; [apply list_elem_of_In; exact Hline | left; reflexivity]. }
  repeat (split; [reflexivity |]).
  intros row' Hrow' Hyear.
  apply list_elem_of_In, in_flat_map in Hrow' as (line' & Hin' & Hrow').
  apply list_elem_of_In in Hin'.
  destruct Hrow' as [E | [E | []]]; [| discriminate E].
  injection E as <-.
  assert (Hfst : fst line' = year).
  { destruct line' as [y' [[[a b] c] d]]. exact Hyear. }
  rewrite (NoDup_fst_inj _ line' (year, (taxable, liability, used, accumulated))
             Hnd Hin' Hline Hfst).
  reflexivity.
Qed.

Lemma export_to_csv_repeats_report_witness :
  (2023%Z, (230, 7590 # 100, 500, 0)) ∈ generate_report_cgt loss_then_gain
  /\ exists row : StocksRow,
       Stocks row ∈ export_to_csv_summary_rows loss_then_gain
       /\ stocks_Year row = 2023%Z
       /\ Taxable_Gains_Net_EUR row = round2 230
       /\ Tax_Liability_EUR row = round2 (7590 # 100)
       /\ Carry_Forward_Loss_Used_EUR row = round2 500
       /\ Losses_Carried_Forward_EUR row = round2 0
       /\ CGT_Exemption_Applied_EUR row
          = round2 (get_exemption_applied
                      (stock_gain loss_then_gain 2023) 1270)
       /\ forall row' : StocksRow,
            Stocks row' ∈ export_to_csv_summary_rows loss_then_gain ->
            stocks_Year row' = 2023%Z -> row' = row.
Proof.
  assert (H : (2023%Z, (230, 7590 # 100, 500, 0))
              ∈ generate_report_cgt loss_then_gain).
  { apply list_elem_of_In. vm_compute. right. left. reflexivity. }
  split; [exact H |].
  exact (export_to_csv_repeats_report loss_then_gain 2023 230 (7590 # 100)
           500 0 H).
Defined.

End CsvSummary.

(* ===================================================================== *)
(** * The eight-year rule *)
(* ===================================================================== *)

Section DeemedDisposal.

Lemma years_held_eight (days : Z) :
  (8 <=? inject_Z days / (36525 # 100)) = (2922 <=? days)%Z.
Proof.
  assert (Hq : inject_Z days / (36525 # 100) == inject_Z days * (100 # 36525))
    by (field; discriminate).
  destruct (Qleb_reflect 8 (inject_Z days / (36525 # 100))) as [H | H];
    destruct (Z.leb_spec 2922 days) as [Hz | Hz]; try reflexivity; exfalso.
  - rewrite Hq in H. rewrite Zlt_Qlt in Hz.
    change (inject_Z 2922) with 2922 in Hz. lra.
  - apply H. rewrite Hq. rewrite Zle_Qle in Hz.
    change (inject_Z 2922) with 2922 in Hz. lra.
Qed.

(** The loop of [calculate_deemed_disposal_liability] over the buys. *)
Lemma deemed_loop (ticker : string) (now : Timestamp) (rows : list Row)
    (gain0 : Q) (disposals0 : list DeemedDisposal) :
  let '(gain, disposals) :=
    fold_left
      (fun (acc : Q * list DeemedDisposal) tx =>
         let '(total_taxable_gain, deemed_disposals) := acc in
         let purchase_date := Date (raw tx) in
         let years_held :=
           inject_Z (days_between now purchase_date) / (36525 # 100) in
         if 8 <=? years_held then
           let cost_basis := PricePerShareEUR tx * Quantity (raw tx) in
           let estimated_current_value := cost_basis * (12 # 10) in
           let taxable_gain := estimated_current_value - cost_basis in
           (total_taxable_gain + taxable_gain,
            (deemed_disposals ++
             [{| dd_ticker := ticker;
                 dd_purchase_date := purchase_date;
                 dd_years_held := years_held;
                 dd_cost_basis := cost_basis;
                 dd_estimated_value := estimated_current_value;
                 dd_taxable_gain := taxable_gain |}])%list)
         else acc)
      rows (gain0, disposals0) in
  gain == gain0 + (2 # 10) * deemed_cost_basis now rows
  /\ map dd_purchase_date disposals
     = (map dd_purchase_date disposals0
        ++ map (fun tx => Date (raw tx))
             (List.filter (held_eight_years now) rows))%list
  /\ (Forall (fun d => 8 <= dd_years_held d
                       /\ dd_taxable_gain d == (2 # 10) * dd_cost_basis d)
        disposals0 ->
      Forall (fun d => 8 <= dd_years_held d
                       /\ dd_taxable_gain d == (2 # 10) * dd_cost_basis d)
        disposals).
Proof.
  revert gain0 disposals0.
  induction rows as [| tx rows IH]; intros gain0 disposals0;
    cbn [fold_left].
  - unfold deemed_cost_basis. cbn [fold_right List.filter map].
    rewrite app_nil_r. split; [lra |]. split; [reflexivity | auto].
  - cbv zeta.
    destruct (8 <=? inject_Z (days_between now (Date (raw tx))) / (36525 # 100))
      eqn:Eheld.
    + match goal with
      | |- context [fold_left ?f rows (?g, ?d)] =>
          specialize (IH g d); destruct (fold_left f rows (g, d)) as [gain ds]
      end.
      destruct IH as (IHg & IHd & IHf).
      unfold deemed_cost_basis, held_eight_years in *.
      cbn [fold_right List.filter].
      rewrite <- years_held_eight, Eheld.
      split; [rewrite IHg; ring |].
      split.
      * rewrite IHd, map_app. cbn [map dd_purchase_date].
        rewrite <- app_assoc. reflexivity.
      * intros H0. apply IHf. apply Forall_app. split; [exact H0 |].
        apply Forall_singleton. cbn [dd_years_held dd_taxable_gain dd_cost_basis].
        split; [apply Qleb_le; exact Eheld | ring].
    + specialize (IH gain0 disposals0).
      match goal with
      | |- context [fold_left ?f rows (?g, ?d)] =>
          destruct (fold_left f rows (g, d)) as [gain ds]
      end.
      destruct IH as (IHg & IHd & IHf).
      unfold deemed_cost_basis, held_eight_years in *.
      cbn [fold_right List.filter].
      rewrite <- years_held_eight, Eheld.
      split; [exact IHg |]. split; [exact IHd | exact IHf].
Qed.

(** X9. The eight-year rule of [calculate_deemed_disposal_liability].
    For an instrument that is not a fund the result is zero and the
    list is empty.  For a fund, the buys that count are exactly those
    bought at least 2,922 days before the evaluation date, in the order
    of the rows; each is listed with a taxable gain of 20% of its cost,
    price by the quantity bought; the total taxable gain is 20% of the
    cost of the buys that count, and the liability is 41% of the total.
    Later sales of the shares play no part. *)
Theorem deemed_disposal_eight_year_rule (ticker : string) (rows : list Row)
    (now : Timestamp) (w : World) :
  skipped (Some ticker) = false ->
  exists (w1 : World) (gain liability : Q) (disposals : list DeemedDisposal),
    calculate_deemed_disposal_liability ticker rows now w
    = (Ok (gain, liability, disposals), w1)
    /\ liability == (41 # 100) * gain
    /\ if bool_decide (ti_type (resolve w (upper ticker)) = "etf")
       then gain == (2 # 10) * deemed_cost_basis now rows
            /\ map dd_purchase_date disposals
               = map (fun tx => Date (raw tx))
                   (List.filter (held_eight_years now) rows)
            /\ Forall (fun d => 8 <= dd_years_held d
                                /\ dd_taxable_gain d
                                   == (2 # 10) * dd_cost_basis d)
                 disposals
       else gain == 0 /\ disposals = [].
Proof.
  intros Hs.
  destruct (get_ticker_info_looked_up ticker w Hs) as (w1 & E & _).
  unfold calculate_deemed_disposal_liability, is_etf, bind. rewrite E.
  unfold ret at 1.
  destruct (bool_decide (ti_type (resolve w (upper ticker)) = "etf")).
  - cbn [negb].
    pose proof (deemed_loop ticker now rows 0 []) as Hloop.
    match goal with
    | |- context [fold_left ?f rows (?g, ?d)] =>
        destruct (fold_left f rows (g, d)) as [gain ds]
    end.
    destruct Hloop as (Hg & Hd & Hf).
    exists w1, gain, (gain * (41 # 100)), ds.
    split; [reflexivity |]. split; [ring |].
    split; [rewrite Hg; ring |].
    split; [exact Hd | apply Hf; constructor].
  - cbn [negb]. exists w1, 0, 0, [].
    split; [reflexivity |]. split; [reflexivity |].
    split; reflexivity.
Qed.

End DeemedDisposal.

Section DeemedDisposalExample.

(** Two fund shares bought at 50 in 1970 and looked at in 2023: a
    deemed gain of 20 and a liability of 8.20. *)
Lemma deemed_disposal_eight_year_rule_witness :
  let rows := [mk_row "VUSA" "buy" 1970 2 50] in
  skipped (Some "VUSA") = false
  /\ exists (w1 : World) (gain liability : Q)
            (disposals : list DeemedDisposal),
       calculate_deemed_disposal_liability "VUSA" rows sample_now sample_world
       = (Ok (gain, liability, disposals), w1)
       /\ liability == (41 # 100) * gain
       /\ if bool_decide (ti_type (resolve sample_world (upper "VUSA")) = "etf")
          then gain == (2 # 10) * deemed_cost_basis sample_now rows
               /\ map dd_purchase_date disposals
                  = map (fun tx => Date (raw tx))
                      (List.filter (held_eight_years sample_now) rows)
               /\ Forall (fun d => 8 <= dd_years_held d
                                   /\ dd_taxable_gain d
                                      == (2 # 10) * dd_cost_basis d)
                    disposals
          else gain == 0 /\ disposals = [].
Proof.
  intros rows. split; [reflexivity |].
  apply (deemed_disposal_eight_year_rule "VUSA" rows sample_now sample_world).
  reflexivity.
Defined.

End DeemedDisposalExample.

(* ===================================================================== *)
(** * The weighted exchange rate and the reported cost basis *)
(* ===================================================================== *)

Section CostBasis.

(** The loop of [get_weighted_fx_rate]: both totals grow by the weighed
    rows, and the total in the original currency lies between the
    bounds of the rates times the total in euro. *)
Lemma weighted_fx_loop (rows : list Row) (lo hi : Q)
    (original0 eur0 : Q) :
  (forall tx, tx ∈ rows -> fx_weighted tx = true ->
              0 <= TotalAmountEUR tx
              /\ forall rate, FX_Rate (raw tx) = Some rate ->
                              lo <= rate /\ rate <= hi) ->
  let '(original, eur) :=
    fold_left
      (fun (acc : Q * Q) tx =>
         let '(total_amount_original, total_amount_eur) := acc in
         if str_in (TransactionType tx) ["buy"; "sell"]
            && negb (bool_decide (Currency (raw tx) = Some "EUR"))
         then
           match FX_Rate (raw tx) with
           | Some fx_rate =>
               if 0 <? fx_rate then
                 let amount_eur := TotalAmountEUR tx in
                 let amount_original := amount_eur * fx_rate in
                 (total_amount_original + amount_original,
                  total_amount_eur + amount_eur)
               else acc
           | None => acc
           end
         else acc)
      rows (original0, eur0) in
  eur == eur0 + fx_total_eur rows
  /\ 0 <= fx_total_eur rows
  /\ original0 + lo * fx_total_eur rows <= original
  /\ original <= original0 + hi * fx_total_eur rows.
Proof.
  revert original0 eur0.
  induction rows as [| tx rows IH]; intros original0 eur0 Hrows;
    cbn [fold_left].
  - unfold fx_total_eur. cbn [fold_right]. repeat split; lra.
  - assert (Hrest : forall tx0, tx0 ∈ rows -> fx_weighted tx0 = true ->
                      0 <= TotalAmountEUR tx0
                      /\ forall rate, FX_Rate (raw tx0) = Some rate ->
                                      lo <= rate /\ rate <= hi).
    { intros tx0 Hin. apply Hrows. apply elem_of_cons. right. exact Hin. }
    pose proof (Hrows tx (list_elem_of_here _ _)) as Htx.
    unfold fx_total_eur. cbn [fold_right]. fold (fx_total_eur rows).
    unfold fx_weighted in Htx |- *.
    destruct (str_in (TransactionType tx) ["buy"; "sell"]
              && negb (bool_decide (Currency (raw tx) = Some "EUR"))).
    + destruct (FX_Rate (raw tx)) as [rate |].
      * destruct (Qltb_reflect 0 rate) as [Hpos | Hneg]; cbn [andb] in *.
        -- destruct (Htx eq_refl) as [Hamt Hrate].
           destruct (Hrate rate eq_refl) as [Hlo Hhi].
           specialize (IH (original0 + TotalAmountEUR tx * rate)
                         (eur0 + TotalAmountEUR tx) Hrest).
           match goal with
           | |- context [fold_left ?f rows (?o, ?e)] =>
               destruct (fold_left f rows (o, e)) as [original eur]
           end.
           destruct IH as (He & Hnn & Hl & Hh).
           split; [lra |]. split; [lra |]. split; nra.
        -- specialize (IH original0 eur0 Hrest).
           match goal with
           | |- context [fold_left ?f rows (?o, ?e)] =>
               destruct (fold_left f rows (o, e)) as [original eur]
           end.
           exact IH.
      * cbn [andb]. specialize (IH original0 eur0 Hrest).
        match goal with
        | |- context [fold_left ?f rows (?o, ?e)] =>
            destruct (fold_left f rows (o, e)) as [original eur]
        end.
        exact IH.
    + cbn [andb]. specialize (IH original0 eur0 Hrest).
      match goal with
      | |- context [fold_left ?f rows (?o, ?e)] =>
          destruct (fold_left f rows (o, e)) as [original eur]
      end.
      exact IH.
Qed.

(** X10. [get_weighted_fx_rate] is a weighted average.  Only buys and
    sells in another currency than the euro with a positive rate are
    weighed.  When their euro amounts are nonnegative and their rates
    lie between two bounds, the function returns a rate between the
    bounds whenever some weighed amount is positive, and it raises
    [ValueError] exactly when the weighed amounts sum to zero: in
    particular for rows that are all in euro or have no usable rate. *)
Theorem weighted_fx_rate_is_an_average (rows : list Row) (lo hi : Q) :
  (forall tx, tx ∈ rows -> fx_weighted tx = true ->
              0 <= TotalAmountEUR tx
              /\ forall rate, FX_Rate (raw tx) = Some rate ->
                              lo <= rate /\ rate <= hi) ->
  match get_weighted_fx_rate rows with
  | Ok rate => 0 < fx_total_eur rows /\ lo <= rate /\ rate <= hi
  | Raise _ => fx_total_eur rows == 0
  end.
Proof.
  intros Hrows. unfold get_weighted_fx_rate. cbv zeta.
  pose proof (weighted_fx_loop rows lo hi 0 0 Hrows) as Hloop.
  match goal with
  | |- context [fold_left ?f rows (?o, ?e)] =>
      destruct (fold_left f rows (o, e)) as [original eur]
  end.
  destruct Hloop as (He & Hnn & Hl & Hh).
  destruct (Qltb_reflect 0 eur) as [Hpos | Hneg].
  - split; [lra |]. split.
    + apply Qle_shift_div_l; [exact Hpos |]. nra.
    + apply Qle_shift_div_r; [exact Hpos |]. nra.
  - lra.
Qed.

Lemma weighted_fx_rate_is_an_average_witness :
  (forall tx, tx ∈ two_usd_buys -> fx_weighted tx = true ->
              0 <= TotalAmountEUR tx
              /\ forall rate, FX_Rate (raw tx) = Some rate ->
                              (11 # 10) <= rate /\ rate <= (12 # 10))
  /\ match get_weighted_fx_rate two_usd_buys with
     | Ok rate =>
         0 < fx_total_eur two_usd_buys
         /\ (11 # 10) <= rate /\ rate <= (12 # 10)
     | Raise _ => fx_total_eur two_usd_buys == 0
     end.
Proof.
  assert (H : forall tx, tx ∈ two_usd_buys -> fx_weighted tx = true ->
                0 <= TotalAmountEUR tx
                /\ forall rate, FX_Rate (raw tx) = Some rate ->
                                (11 # 10) <= rate /\ rate <= (12 # 10)).
  { intros tx Hin _. unfold two_usd_buys in Hin.
    apply elem_of_cons in Hin as [-> | Hin];
      [| apply elem_of_cons in Hin as [-> | Hin];
         [| apply not_elem_of_nil in Hin; contradiction]];
      (split; [discriminate |]);
      intros rate Hrate; injection Hrate as <-; split; discriminate. }
  split; [exact H |].
  exact (weighted_fx_rate_is_an_average two_usd_buys (11 # 10) (12 # 10) H).
Defined.

Lemma detail_update_other (ticker other : string)
    (f : TickerDetail -> TickerDetail) (results : Results) :
  other <> ticker ->
  ticker_detail (detail_update ticker f results) !! other
  = ticker_detail results !! other.
Proof.
  intros Hne. unfold detail_update. cbn [ticker_detail].
  apply lookup_insert_ne. congruence.
Qed.

(** X11. What [process_transactions] reports as cost basis of a
    holding.  The currency tag is always the currency of the
    instrument's entry, also when no exchange rate is found and the
    average is left in euro.  Without a positive holding the average
    cost is zero.  With a positive holding, the average cost times the
    holding is the total cost in euro for a euro instrument, the total
    cost times the weighted exchange rate for another instrument, and
    the total cost in euro again when [get_weighted_fx_rate] raises.
    Nothing else of the results changes. *)
Theorem report_cost_basis_figures (ticker original_currency : string)
    (ticker_data : list Row) (led : LedgerState) (results : Results) :
  let results' :=
    report_cost_basis ticker original_currency ticker_data led results in
  let detail := detail_of results' ticker in
  currency detail = Some original_currency
  /\ (if 0 <? total_shares led then
        avg_cost_basis detail * total_shares led
        == total_cost led
           * (if bool_decide (original_currency = "EUR") then 1
              else match get_weighted_fx_rate ticker_data with
                   | Ok avg_fx_rate => avg_fx_rate
                   | Raise _ => 1
                   end)
      else avg_cost_basis detail = 0)
  /\ summary results' = summary results
  /\ forall other : string,
       other <> ticker ->
       ticker_detail results' !! other = ticker_detail results !! other.
Proof.
  cbv zeta. unfold report_cost_basis.
  destruct (bool_decide (original_currency = "EUR")) eqn:Eeur.
  - apply bool_decide_eq_true_1 in Eeur. subst original_currency.
    rewrite !detail_of_update. cbn [currency avg_cost_basis set_currency
      set_avg_cost_basis summary detail_update].
    split; [reflexivity |]. split.
    + destruct (Qltb_reflect 0 (total_shares led)); [| reflexivity].
      field. lra.
    + split; [reflexivity |]. intros other Hne.
      rewrite !detail_update_other by exact Hne. reflexivity.
  - destruct (Qltb_reflect 0 (total_shares led)) as [Hpos | Hneg].
    + destruct (get_weighted_fx_rate ticker_data) as [rate | []].
      * rewrite !detail_of_update. cbn [currency avg_cost_basis set_currency
          set_avg_cost_basis summary detail_update].
        split; [reflexivity |]. split; [field; lra |].
        split; [reflexivity |]. intros other Hne.
        rewrite !detail_update_other by exact Hne. reflexivity.
      * rewrite !detail_of_update. cbn [currency avg_cost_basis set_currency
          set_avg_cost_basis summary detail_update].
        split; [reflexivity |]. split; [field; lra |].
        split; [reflexivity |]. intros other Hne.
        rewrite !detail_update_other by exact Hne. reflexivity.
    + rewrite !detail_of_update. cbn [currency avg_cost_basis set_currency
        set_avg_cost_basis summary detail_update].
      split; [reflexivity |]. split; [reflexivity |].
      split; [reflexivity |]. intros other Hne.
      rewrite !detail_update_other by exact Hne. reflexivity.
Qed.

End CostBasis.

(* ===================================================================== *)
(** * Reading the result dictionaries after an update *)
(* ===================================================================== *)

Section ResultUpdates.

Lemma yearly_get_add_at (m : gmap Z Q) (year year' : Z) (x : Q) :
  yearly_get (yearly_add m year x) year'
  == yearly_get m year' + (if decide (year' = year) then x else 0).
Proof.
  unfold yearly_get, yearly_add.
  destruct (decide (year' = year)) as [-> | Hne].
  - rewrite lookup_insert_eq. reflexivity.
  - rewrite lookup_insert_ne by congruence. lra.
Qed.

Lemma summary_of_summary_add (asset_type key asset_type' key' : string)
    (year : Z) (x : Q) (results : Results) :
  summary_of (summary_add asset_type key year x results) asset_type' key'
  = if decide (asset_type' = asset_type /\ key' = key)
    then yearly_add (summary_of results asset_type key) year x
    else summary_of results asset_type' key'.
Proof.
  unfold summary_of, summary_add. cbn [summary].
  destruct (decide (asset_type' = asset_type)) as [-> | Ha].
  - rewrite lookup_insert_eq. cbn [default]. unfold id, yearly_of at 1.
    destruct (decide (key' = key)) as [-> | Hk].
    + rewrite lookup_insert_eq. cbn [default]. unfold id.
      rewrite decide_True by auto. reflexivity.
    + rewrite lookup_insert_ne by congruence.
      rewrite decide_False by tauto. reflexivity.
  - rewrite lookup_insert_ne by congruence.
    rewrite decide_False by tauto. reflexivity.
Qed.

Lemma detail_of_detail_update (ticker ticker' : string)
    (f : TickerDetail -> TickerDetail) (results : Results) :
  detail_of (detail_update ticker f results) ticker'
  = if decide (ticker' = ticker) then f (detail_of results ticker)
    else detail_of results ticker'.
Proof.
  unfold detail_of, detail_update. cbn [ticker_detail].
  destruct (decide (ticker' = ticker)) as [-> | Hne].
  - rewrite lookup_insert_eq. reflexivity.
  - rewrite lookup_insert_ne by congruence. reflexivity.
Qed.

Lemma summary_yearly_summary_add (asset_type key asset_type' key' : string)
    (year year' : Z) (x : Q) (results : Results) :
  summary_yearly (summary_add asset_type key year x results)
    asset_type' key' year'
  == summary_yearly results asset_type' key' year'
     + (if decide (asset_type' = asset_type /\ key' = key /\ year' = year)
        then x else 0).
Proof.
  unfold summary_yearly. rewrite summary_of_summary_add.
  destruct (decide (asset_type' = asset_type /\ key' = key)) as [[-> ->] | Hne].
  - rewrite yearly_get_add_at.
    destruct (decide (year' = year)) as [-> | Hy].
    + rewrite decide_True by auto. reflexivity.
    + rewrite decide_False by tauto. reflexivity.
  - rewrite decide_False by tauto. lra.
Qed.

Lemma summary_yearly_detail_update (ticker : string)
    (f : TickerDetail -> TickerDetail) (results : Results)
    (asset_type key : string) (year : Z) :
  summary_yearly (detail_update ticker f results) asset_type key year
  = summary_yearly results asset_type key year.
Proof. reflexivity. Qed.

Lemma detail_yearly_summary_add (asset_type key : string) (year : Z) (x : Q)
    (results : Results) (ticker key' : string) (year' : Z) :
  detail_yearly (summary_add asset_type key year x results) ticker key' year'
  = detail_yearly results ticker key' year'.
Proof. reflexivity. Qed.

(** An update of a ticker's detail that keeps the yearly dictionaries
    keeps what is read from them. *)
Lemma detail_yearly_detail_update (ticker : string)
    (f : TickerDetail -> TickerDetail) (results : Results)
    (ticker' key : string) (year : Z) :
  (forall d, td_yearly (f d) = td_yearly d) ->
  detail_yearly (detail_update ticker f results) ticker' key year
  = detail_yearly results ticker' key year.
Proof.
  intros Hf. unfold detail_yearly. rewrite detail_of_detail_update.
  destruct (decide (ticker' = ticker)) as [-> | Hne]; [| reflexivity].
  rewrite Hf. reflexivity.
Qed.

Lemma detail_yearly_detail_add (ticker key ticker' key' : string)
    (year year' : Z) (x : Q) (results : Results) :
  detail_yearly (detail_add ticker key year x results) ticker' key' year'
  == detail_yearly results ticker' key' year'
     + (if decide (ticker' = ticker /\ key' = key /\ year' = year)
        then x else 0).
Proof.
  unfold detail_yearly, detail_add. rewrite detail_of_detail_update.
  destruct (decide (ticker' = ticker)) as [-> | Ht].
  - cbn [td_yearly set_td_yearly]. unfold yearly_of at 1.
    destruct (decide (key' = key)) as [-> | Hk].
    + rewrite lookup_insert_eq. cbn [default]. unfold id.
      rewrite yearly_get_add_at.
      destruct (decide (year' = year)) as [-> | Hy].
      * rewrite decide_True by auto. reflexivity.
      * rewrite decide_False by tauto. reflexivity.
    + rewrite lookup_insert_ne by congruence.
      rewrite decide_False by tauto. unfold yearly_of. lra.
  - rewrite decide_False by tauto. lra.
Qed.

Lemma summary_yearly_book (asset_type ticker key asset_type' key' : string)
    (year year' : Z) (x : Q) (results : Results) :
  summary_yearly (book asset_type ticker key year x results)
    asset_type' key' year'
  == summary_yearly results asset_type' key' year'
     + (if decide (asset_type' = asset_type /\ key' = key /\ year' = year)
        then x else 0).
Proof.
  unfold book, detail_add. rewrite summary_yearly_detail_update.
  apply summary_yearly_summary_add.
Qed.

Lemma detail_yearly_book (asset_type ticker key ticker' key' : string)
    (year year' : Z) (x : Q) (results : Results) :
  detail_yearly (book asset_type ticker key year x results) ticker' key' year'
  == detail_yearly results ticker' key' year'
     + (if decide (ticker' = ticker /\ key' = key /\ year' = year)
        then x else 0).
Proof.
  unfold book. rewrite detail_yearly_detail_add.
  rewrite detail_yearly_summary_add. reflexivity.
Qed.

End ResultUpdates.

(* ===================================================================== *)
(** * Dividends and their Irish and foreign parts *)
(* ===================================================================== *)

Section DividendsSplit.

(** A dictionary of empty yearly dictionaries reads as empty at every
    key. *)
Ltac all_empty E :=
  repeat (apply lookup_insert_Some in E as [[_ <-] | [_ E]];
          [reflexivity |]);
  rewrite lookup_empty in E; discriminate E.

Lemma summary_yearly_initial (asset_type key : string) (year : Z) :
  summary_yearly initial_results asset_type key year = 0.
Proof.
  unfold summary_yearly, summary_of, initial_results. cbn [summary].
  assert (Hempty : yearly_of
                     (default ∅
                        ((<["stocks" :=
                             <["realized_gains" := ∅]>
                             (<["unrealized_gains" := ∅]>
                             (<["dividends" := ∅]>
                             (<["dividends_irish" := ∅]>
                             (<["dividends_foreign" := ∅]> ∅))))]>
                          (<["etfs" :=
                             <["realized_gains" := ∅]>
                             (<["unrealized_gains" := ∅]>
                             (<["dividends" := ∅]>
                             (<["dividends_irish" := ∅]>
                             (<["dividends_foreign" := ∅]>
                             (<["deemed_disposal_gains" := ∅]> ∅)))))]> ∅)
                          : gmap string (gmap string (gmap Z Q)))
                         !! asset_type)) key
                   = ∅).
  { destruct (decide (asset_type = "stocks")) as [-> | Hs].
    - rewrite lookup_insert_eq. cbn [default]. unfold id, yearly_of.
      match goal with
      | |- default ∅ (?m !! key) = ∅ => destruct (m !! key) as [v |] eqn:E
      end; [cbn [default]; unfold id; all_empty E | reflexivity].
    - rewrite lookup_insert_ne by congruence.
      destruct (decide (asset_type = "etfs")) as [-> | He].
      + rewrite lookup_insert_eq. cbn [default]. unfold id, yearly_of.
        match goal with
        | |- default ∅ (?m !! key) = ∅ => destruct (m !! key) as [v |] eqn:E
        end; [cbn [default]; unfold id; all_empty E | reflexivity].
      + rewrite lookup_insert_ne by congruence. rewrite lookup_empty.
        cbn [default]. unfold yearly_of. rewrite lookup_empty. reflexivity. }
  rewrite Hempty. unfold yearly_get. rewrite lookup_empty. reflexivity.
Qed.

Lemma detail_yearly_initial (ticker key : string) (year : Z) :
  detail_yearly initial_results ticker key year = 0.
Proof.
  unfold detail_yearly, detail_of, initial_results. cbn [ticker_detail].
  rewrite lookup_empty. cbn [default]. unfold td_default. cbn [td_yearly].
  assert (Hempty : yearly_of
                     (<["realized_gains" := ∅]>
                      (<["unrealized_gains" := ∅]>
                      (<["dividends" := ∅]>
                      (<["dividends_irish" := ∅]>
                      (<["dividends_foreign" := ∅]>
                         (∅ : gmap string (gmap Z Q))))))) key
                   = ∅).
  { unfold yearly_of.
    match goal with
    | |- default ∅ (?m !! key) = ∅ => destruct (m !! key) as [v |] eqn:E
    end; [cbn [default]; unfold id; all_empty E | reflexivity]. }
  rewrite Hempty. unfold yearly_get. rewrite lookup_empty. reflexivity.
Qed.

Lemma dividends_split_initial : dividends_split initial_results.
Proof.
  split; intros; rewrite ?summary_yearly_initial, ?detail_yearly_initial;
    reflexivity.
Qed.

(** Booking under another key than the three of the dividends. *)
Lemma dividends_split_book_other (asset_type ticker key : string) (year : Z)
    (x : Q) (results : Results) :
  key <> "dividends" -> key <> "dividends_irish" ->
  key <> "dividends_foreign" ->
  dividends_split results ->
  dividends_split (book asset_type ticker key year x results).
Proof.
  intros H1 H2 H3 [Hs Hd]. split.
  - intros a y. rewrite !summary_yearly_book.
    rewrite !decide_False by (intros (_ & C & _); congruence).
    specialize (Hs a y). lra.
  - intros t y. rewrite !detail_yearly_book.
    rewrite !decide_False by (intros (_ & C & _); congruence).
    specialize (Hd t y). lra.
Qed.

(** Booking a dividend and then its Irish or foreign part. *)
Lemma dividends_split_book_dividend (asset_type ticker part : string)
    (year : Z) (x : Q) (results : Results) :
  part = "dividends_irish" \/ part = "dividends_foreign" ->
  dividends_split results ->
  dividends_split
    (book asset_type ticker part year x
       (book asset_type ticker "dividends" year x results)).
Proof.
  intros Hpart [Hs Hd]. split.
  - intros a y. rewrite !summary_yearly_book. specialize (Hs a y).
    destruct (decide (a = asset_type /\ y = year)) as [[-> ->] | Hne].
    + destruct Hpart as [-> | ->];
        repeat (first [rewrite decide_True by auto
                      | rewrite decide_False
                          by (intros (_ & C & _); discriminate C)]);
        lra.
    + rewrite !decide_False by tauto. lra.
  - intros t y. rewrite !detail_yearly_book. specialize (Hd t y).
    destruct (decide (t = ticker /\ y = year)) as [[-> ->] | Hne].
    + destruct Hpart as [-> | ->];
        repeat (first [rewrite decide_True by auto
                      | rewrite decide_False
                          by (intros (_ & C & _); discriminate C)]);
        lra.
    + rewrite !decide_False by tauto. lra.
Qed.

Lemma dividends_split_detail_update (ticker : string)
    (f : TickerDetail -> TickerDetail) (results : Results) :
  (forall d, td_yearly (f d) = td_yearly d) ->
  dividends_split results ->
  dividends_split (detail_update ticker f results).
Proof.
  intros Hf [Hs Hd]. split.
  - intros a y. rewrite !summary_yearly_detail_update. apply Hs.
  - intros t y. rewrite !detail_yearly_detail_update by exact Hf. apply Hd.
Qed.

Lemma dividends_split_summary_add (asset_type key : string) (year : Z)
    (x : Q) (results : Results) :
  key <> "dividends" -> key <> "dividends_irish" ->
  key <> "dividends_foreign" ->
  dividends_split results ->
  dividends_split (summary_add asset_type key year x results).
Proof.
  intros H1 H2 H3 [Hs Hd]. split.
  - intros a y. rewrite !summary_yearly_summary_add.
    rewrite !decide_False by (intros (_ & C & _); congruence).
    specialize (Hs a y). lra.
  - intros t y. rewrite !detail_yearly_summary_add. apply Hd.
Qed.

Lemma dividends_split_remember_buy (ticker : string) (row : Row)
    (results : Results) :
  dividends_split results -> dividends_split (remember_buy ticker row results).
Proof. apply dividends_split_detail_update. reflexivity. Qed.

Lemma process_row_dividends_split (ticker asset_type : string) (etf : bool)
    (results results' : Results) (led led' : LedgerState) (row : Row)
    (w w' : World) :
  process_row ticker asset_type etf (results, led) row w
  = (Ok (results', led'), w') ->
  dividends_split results -> dividends_split results'.
Proof.
  unfold process_row. intros H Hsplit.
  destruct (bool_decide (TransactionType row = "dividend")).
  { apply bind_ok in H as (domicile & w1 & _ & H).
    destruct (bool_decide (domicile = "IE")); injection H as <- _ _;
      apply dividends_split_book_dividend; auto. }
  destruct (bool_decide (TransactionType row = "buy")).
  { apply bind_ok in H as (ratio & w1 & _ & H). injection H as <- _ _.
    destruct etf; [apply dividends_split_remember_buy |]; exact Hsplit. }
  destruct (bool_decide (TransactionType row = "sell")).
  { apply bind_ok in H as (ratio & w1 & _ & H).
    destruct (apply_sell ratio row led) as [led1 gain].
    injection H as <- _ _.
    apply dividends_split_book_other; [discriminate .. | exact Hsplit]. }
  destruct (str_in (TransactionType row) ["merger_stock"; "merger"]).
  { injection H as <- _ _. exact Hsplit. }
  destruct (bool_decide (TransactionType row = "merger_cash")).
  { destruct (0 <? TotalAmountEUR row); injection H as <- _ _;
      [apply dividends_split_book_dividend; auto | exact Hsplit]. }
  destruct (bool_decide (TransactionType row = "transfer_merger")).
  { injection H as <- _ _.
    destruct ((0 <? Quantity (raw row)) && etf);
      [apply dividends_split_remember_buy |]; exact Hsplit. }
  injection H as <- _ _. exact Hsplit.
Qed.

Lemma foldM_process_row_dividends_split (ticker asset_type : string)
    (etf : bool) (rows : list Row) (results results' : Results)
    (led led' : LedgerState) (w w' : World) :
  foldM (process_row ticker asset_type etf) (results, led) rows w
  = (Ok (results', led'), w') ->
  dividends_split results -> dividends_split results'.
Proof.
  revert results led w.
  induction rows as [| row rows IH]; intros results led w H Hsplit.
  - injection H as <- _ _. exact Hsplit.
  - cbn [foldM] in H. apply bind_ok in H as ([results1 led1] & w1 & Hrow & H).
    eapply IH; [exact H |].
    eapply process_row_dividends_split; eassumption.
Qed.

Lemma report_cost_basis_dividends_split (ticker original_currency : string)
    (ticker_data : list Row) (led : LedgerState) (results : Results) :
  dividends_split results ->
  dividends_split
    (report_cost_basis ticker original_currency ticker_data led results).
Proof.
  intros Hsplit. unfold report_cost_basis.
  repeat match goal with
         | |- context [if ?c then _ else _] => destruct c
         | |- context [match ?c with Ok _ => _ | Raise _ => _ end] =>
             destruct c as [? | []]
         end;
    repeat (apply dividends_split_detail_update; [reflexivity |]);
    exact Hsplit.
Qed.

Lemma process_ticker_dividends_split (now : Timestamp)
    (relevant_df : list Row) (results results' : Results) (ticker : string)
    (w w' : World) :
  process_ticker now relevant_df results ticker w = (Ok results', w') ->
  dividends_split results -> dividends_split results'.
Proof.
  unfold process_ticker. intros H Hsplit.
  apply bind_ok in H as (etf & wa & _ & H).
  apply bind_ok in H as ([results1 led1] & wb & Hfold & H).
  apply bind_ok in H as (active & wc & _ & H).
  assert (H1 : dividends_split results1).
  { eapply foldM_process_row_dividends_split; [exact Hfold |].
    apply dividends_split_detail_update; [reflexivity | exact Hsplit]. }
  destruct (handle_inactive ticker (if etf then "etfs" else "stocks") active
              (year_of now) (results1, led1)) as [results2 led2] eqn:Hin.
  assert (H2 : dividends_split results2).
  { unfold handle_inactive in Hin.
    destruct (negb active && (0 <? total_shares led1));
      injection Hin as <- _; [| exact H1].
    apply dividends_split_book_other; [discriminate .. | exact H1]. }
  apply bind_ok in H as (results3 & wd & Hdeemed & H).
  assert (H3 : dividends_split results3).
  { destruct (etf && negb (bool_decide
                (buy_transactions (detail_of results2 ticker) = []))).
    - apply bind_ok in Hdeemed as ([[gain liability] ds] & we & _ & Hd).
      destruct (0 <? gain); injection Hd as <- _.
      + apply dividends_split_summary_add; [discriminate .. |].
        apply dividends_split_detail_update; [reflexivity | exact H2].
      + apply dividends_split_detail_update; [reflexivity | exact H2].
    - injection Hdeemed as <- _. exact H2. }
  apply bind_ok in H as (info & we & _ & H).
  destruct info as [info |]; [| discriminate H].
  injection H as <- _.
  apply report_cost_basis_dividends_split.
  apply dividends_split_detail_update; [reflexivity | exact H3].
Qed.

Lemma foldM_process_ticker_dividends_split (now : Timestamp)
    (relevant_df : list Row) (tickers : list string)
    (results results' : Results) (w w' : World) :
  foldM (process_ticker now relevant_df) results tickers w
  = (Ok results', w') ->
  dividends_split results -> dividends_split results'.
Proof.
  revert results w.
  induction tickers as [| t tickers IH]; intros results w H Hsplit.
  - injection H as <- _. exact Hsplit.
  - cbn [foldM] in H. apply bind_ok in H as (results1 & w1 & Ht & H).
    eapply IH; [exact H |].
    eapply process_ticker_dividends_split; eassumption.
Qed.

(** X12. In the results of [process_transactions] the dividends add
    up: for every asset class and every year, and for every ticker and
    every year, the amount under [dividends] is the sum of the amounts
    under [dividends_irish] and [dividends_foreign].  Dividend rows are
    booked once as Irish or as foreign by the domicile of the ticker,
    and the cash of a merger is booked as foreign. *)
Theorem dividends_are_irish_plus_foreign (now : Timestamp)
    (df : list RawRow) (store_transactions : bool) (w w' : World)
    (results : Results) :
  process_transactions now df store_transactions w = (Ok results, w') ->
  dividends_split results.
Proof.
  unfold process_transactions. intros H.
  repeat (apply bind_ok in H as (? & ? & _ & H)).
  eapply foldM_process_ticker_dividends_split; [exact H |].
  apply dividends_split_initial.
Qed.

Lemma dividends_are_irish_plus_foreign_witness :
  exists (results : Results) (w' : World),
    process_transactions sample_now sample_df false sample_world
    = (Ok results, w')
    /\ dividends_split results
    /\ summary_yearly results "stocks" "dividends" 2020 == 3.
Proof.
  destruct (process_transactions sample_now sample_df false sample_world)
    as [[results | e] w'] eqn:E.
  - exists results, w'. split; [reflexivity |].
    split.
    + exact (dividends_are_irish_plus_foreign sample_now sample_df false
               sample_world w' results E).
    + vm_compute in E. injection E as <- _. reflexivity.
  - vm_compute in E. discriminate E.
Defined.

End DividendsSplit.

(* ===================================================================== *)
(** * The columns of the working frame *)
(* ===================================================================== *)

Section Columns.

(** A column that has been computed was computed row by row. *)
Lemma mapM_ok {A B : Type} (f : A -> M B) (l : list A) (bs : list B)
    (w w' : World) :
  mapM f l w = (Ok bs, w') ->
  Forall2 (fun a b => exists w0 w1, f a w0 = (Ok b, w1)) l bs.
Proof.
  revert bs w w'. induction l as [| a l IH]; intros bs w w' H.
  - injection H as <- _. constructor.
  - cbn [mapM] in H.
    apply bind_ok in H as (b & w1 & Hb & H).
    apply bind_ok in H as (bs' & w2 & Hbs & H).
    injection H as <- _.
    constructor; [exists w, w1; exact Hb | eapply IH; exact Hbs].
Qed.

Lemma assign_ok {A : Type} (set : A -> Row -> Row) (f : Row -> M A)
    (rows rows' : list Row) (w w' : World) :
  assign set f rows w = (Ok rows', w') ->
  Forall2 (fun r r' => exists v w0 w1, f r w0 = (Ok v, w1) /\ r' = set v r)
    rows rows'.
Proof.
  unfold assign. intros H. apply mapM_ok in H.
  eapply Forall2_impl; [exact H |].
  intros r r' (w0 & w1 & Hr).
  apply bind_ok in Hr as (v & w2 & Hv & Hr). injection Hr as <- _.
  exists v, w0, w2. split; [exact Hv | reflexivity].
Qed.

(** A column assignment keeps what its setter keeps. *)
Lemma assign_keeps {A B : Type} (proj : Row -> B) (set : A -> Row -> Row)
    (f : Row -> M A) (rows rows' : list Row) (w w' : World) :
  (forall v r, proj (set v r) = proj r) ->
  assign set f rows w = (Ok rows', w') ->
  map proj rows' = map proj rows.
Proof.
  intros Hset H. apply assign_ok in H.
  induction H as [| r r' rows rows' (v & w0 & w1 & _ & ->) _ IH];
    [reflexivity |].
  cbn [map]. rewrite Hset, IH. reflexivity.
Qed.

Lemma map_raw_init_row (df : list RawRow) : map raw (map init_row df) = df.
Proof.
  induction df as [| r df IH]; [reflexivity |].
  cbn [map]. rewrite IH. reflexivity.
Qed.

Lemma convert_to_eur_convertible (amount : Q) (row : RawRow) :
  match convert_to_eur amount (Currency row) (FX_Rate row) with
  | Ok _ => convertible row = true
  | Raise _ => convertible row = false
  end.
Proof.
  unfold convert_to_eur, convertible.
  destruct (bool_decide (Currency row = Some "EUR")); [reflexivity |].
  destruct (FX_Rate row) as [rate |].
  - destruct (bool_decide (Currency row = Some "USD") && (0 <? rate));
      reflexivity.
  - rewrite andb_false_r. reflexivity.
Qed.

(** X13. One row that cannot be converted fails the whole run.  If any
    row of the frame is neither in euro nor in dollars with a positive
    rate, whatever its type says and also when the classification
    ignores the row, [process_transactions] raises [ValueError] and
    returns no results. *)
Theorem unconvertible_row_fails_the_run (now : Timestamp)
    (df : list RawRow) (store_transactions : bool) (w : World)
    (row : RawRow) :
  row ∈ df -> convertible row = false ->
  fst (process_transactions now df store_transactions w) = Raise ValueError.
Proof.
  intros Hin Hconv.
  destruct (process_transactions now df store_transactions w)
    as [[results | []] w'] eqn:H; [exfalso | reflexivity].
  unfold process_transactions in H.
  apply bind_ok in H as (mt & w0 & _ & H).
  apply bind_ok in H as (df1 & w1 & H1 & H).
  apply bind_ok in H as (df2 & w2 & H2 & H).
  apply bind_ok in H as (df3 & w3 & H3 & H).
  apply bind_ok in H as (df4 & w4 & H4 & H).
  apply bind_ok in H as (df5 & w5 & H5 & H).
  apply bind_ok in H as (df6 & w6 & H6 & H).
  apply bind_ok in H as (df7 & w7 & H7 & _).
  apply (assign_keeps raw) in H1; [| reflexivity].
  apply (assign_keeps raw) in H2; [| reflexivity].
  apply (assign_keeps raw) in H3; [| reflexivity].
  apply (assign_keeps raw) in H4; [| reflexivity].
  apply (assign_keeps raw) in H5; [| reflexivity].
  apply (assign_keeps raw) in H6; [| reflexivity].
  assert (Hraw : map raw df6 = df).
  { rewrite H6, H5, H4, H3, H2, H1. apply map_raw_init_row. }
  rewrite <- Hraw in Hin.
  apply list_elem_of_fmap in Hin as (r6 & -> & Hin6).
  apply assign_ok in H7.
  apply list_elem_of_lookup_1 in Hin6 as [i Hi].
  destruct (Forall2_lookup_l _ _ _ _ _ H7 Hi)
    as (r7 & _ & v & wa & wb & Hv & _).
  unfold lift in Hv. injection Hv as Hv _.
  pose proof (convert_to_eur_convertible (TotalAmountFloat r6) (raw r6)) as Hc.
  rewrite Hv in Hc. congruence.
Qed.

(** The sample export with a top-up in sterling appended. *)
Lemma unconvertible_row_fails_the_run_witness :
  let top_up :=
    mk_raw 1600700000 "ACME" "CASH TOP-UP" 0 "" "25" "GBP" None in
  top_up ∈ (sample_df ++ [top_up])%list
  /\ convertible top_up = false
  /\ fst (process_transactions sample_now (sample_df ++ [top_up]) false
            sample_world)
     = Raise ValueError
  /\ exists results,
       fst (process_transactions sample_now sample_df false sample_world)
       = Ok results.
Proof.
  intros top_up.
  assert (Hin : top_up ∈ (sample_df ++ [top_up])%list).
  { apply elem_of_app. right. apply list_elem_of_here. }
  split; [exact Hin |]. split; [reflexivity |].
  split.
  - exact (unconvertible_row_fails_the_run sample_now
             (sample_df ++ [top_up]) false sample_world top_up Hin eq_refl).
  - vm_compute. eexists. reflexivity.
Defined.

End Columns.

(* ===================================================================== *)
(** * The stored transaction history *)
(* ===================================================================== *)

Section StoredHistory.

Lemma history_blind_pure {A : Type} (x : result A) :
  history_blind (fun w => (x, w)).
Proof. intros w h. reflexivity. Qed.

Lemma history_blind_bind {A B : Type} (m : M A) (k : A -> M B) :
  history_blind m -> (forall a, history_blind (k a)) ->
  history_blind (bind m k).
Proof.
  intros Hm Hk w h. unfold bind. rewrite (Hm w h).
  destruct (m w) as [[a | e] w1]; cbn [fst snd]; [apply Hk | reflexivity].
Qed.

Lemma history_blind_mapM {A B : Type} (f : A -> M B) (l : list A) :
  (forall a, history_blind (f a)) -> history_blind (mapM f l).
Proof.
  intros Hf. induction l as [| a l IH]; cbn [mapM].
  - apply history_blind_pure.
  - apply history_blind_bind; [apply Hf | intros b].
    apply history_blind_bind; [exact IH | intros bs].
    apply history_blind_pure.
Qed.

Lemma history_blind_foldM {A S : Type} (f : S -> A -> M S) (l : list A)
    (s : S) :
  (forall s a, history_blind (f s a)) -> history_blind (foldM f s l).
Proof.
  intros Hf. revert s. induction l as [| a l IH]; intros s; cbn [foldM].
  - apply history_blind_pure.
  - apply history_blind_bind; [apply Hf | intros s']. apply IH.
Qed.

Lemma history_blind_get_ticker_info (ticker : option string) :
  history_blind (get_ticker_info ticker).
Proof.
  intros w h. unfold get_ticker_info.
  destruct ticker as [t |]; [| reflexivity].
  destruct (bool_decide (t = "")); [reflexivity |].
  destruct (bool_decide (upper t = "NONE") || bool_decide (upper t = "NAN"));
    [reflexivity |].
  unfold bind, get_world, ret, modify_world, add_missing_ticker_to_cache.
  cbn [ticker_cache set_transaction_history].
  destruct (ticker_cache w !! upper t); [reflexivity |].
  unfold bind, get_world, ret, modify_world.
  cbn [cache_file set_transaction_history].
  destruct (cache_file w !! upper t); reflexivity.
Qed.

(** Blindness follows the shape of the program. *)
Ltac blind_step :=
  match goal with
  | |- history_blind (bind _ _) => apply history_blind_bind; [| intros ?]
  | |- history_blind (ret _) => apply history_blind_pure
  | |- history_blind (raise _) => apply history_blind_pure
  | |- history_blind (lift _) => apply history_blind_pure
  | |- history_blind (get_ticker_info _) => apply history_blind_get_ticker_info
  | |- history_blind (mapM _ _) => apply history_blind_mapM; intros ?
  | |- history_blind (foldM _ _ _) => apply history_blind_foldM; intros ? ?
  | |- history_blind (match ?x with _ => _ end) => destruct x
  end.

Lemma history_blind_normalize_ticker (ticker : option string) :
  history_blind (normalize_ticker ticker).
Proof. unfold normalize_ticker. repeat blind_step. Qed.

Lemma history_blind_get_conversion_ratio (ticker : option string) :
  history_blind (get_conversion_ratio ticker).
Proof. unfold get_conversion_ratio. repeat blind_step. Qed.

Lemma history_blind_is_etf (ticker : option string) :
  history_blind (is_etf ticker).
Proof. unfold is_etf. repeat blind_step. Qed.

Lemma history_blind_is_active (ticker : option string) :
  history_blind (is_active ticker).
Proof. unfold is_active. repeat blind_step. Qed.

Lemma history_blind_get_domicile (ticker : option string) :
  history_blind (get_domicile ticker).
Proof. unfold get_domicile. repeat blind_step. Qed.

Ltac blind_resolver :=
  match goal with
  | |- history_blind (normalize_ticker _) =>
      apply history_blind_normalize_ticker
  | |- history_blind (get_conversion_ratio _) =>
      apply history_blind_get_conversion_ratio
  | |- history_blind (is_etf _) => apply history_blind_is_etf
  | |- history_blind (is_active _) => apply history_blind_is_active
  | |- history_blind (get_domicile _) => apply history_blind_get_domicile
  end.

Ltac blind_all := repeat (blind_resolver || blind_step).

Lemma history_blind_process_row (ticker asset_type : string) (etf : bool)
    (state : Results * LedgerState) (transaction : Row) :
  history_blind (process_row ticker asset_type etf state transaction).
Proof. unfold process_row. blind_all. Qed.

Lemma history_blind_process_ticker (now : Timestamp) (relevant_df : list Row)
    (results : Results) (ticker : string) :
  history_blind (process_ticker now relevant_df results ticker).
Proof.
  unfold process_ticker, calculate_deemed_disposal_liability. blind_all;
    try apply history_blind_process_row; blind_all.
Qed.

Lemma history_blind_assign {A : Type} (set : A -> Row -> Row)
    (f : Row -> M A) (rows : list Row) :
  (forall row, history_blind (f row)) -> history_blind (assign set f rows).
Proof.
  intros Hf. unfold assign. apply history_blind_mapM. intros row.
  apply history_blind_bind; [apply Hf | intros v; apply history_blind_pure].
Qed.

(** A blind computation leaves the history as it was. *)
Lemma history_blind_keeps {A : Type} (m : M A) (w : World) :
  history_blind m -> transaction_history (snd (m w)) = transaction_history w.
Proof.
  intros Hm. specialize (Hm w (transaction_history w)).
  assert (Hw : set_transaction_history (transaction_history w) w = w)
    by (destruct w; reflexivity).
  rewrite Hw in Hm. rewrite Hm at 1. reflexivity.
Qed.

Lemma history_blind_process_transactions (now : Timestamp)
    (df : list RawRow) :
  history_blind (process_transactions now df false).
Proof.
  unfold process_transactions.
  apply history_blind_bind;
    [unfold find_merger_tickers; blind_all | intros ?].
  repeat (apply history_blind_bind;
          [apply history_blind_assign; intros ?;
           unfold classify_transfer; blind_all
          | intros ?]).
  apply history_blind_bind; [apply history_blind_pure | intros ?].
  apply history_blind_foldM. intros ? ?. apply history_blind_process_ticker.
Qed.

(** X14. Storing the transactions changes nothing but the stored
    history.  A run of [process_transactions] that is asked to store
    its working frame has the outcome of the run that is not, results
    or exception, and leaves the same ticker cache and cache file; when
    results are returned it has stored a frame with the rows of the
    input.  The run that is not asked leaves the stored history as it
    was. *)
Theorem store_transactions_only_stores (now : Timestamp) (df : list RawRow)
    (w : World) :
  let run := process_transactions now df false w in
  transaction_history (snd run) = transaction_history w
  /\ exists h : option (list Row),
       process_transactions now df true w
       = (fst run, set_transaction_history h (snd run))
       /\ forall results : Results,
            fst run = Ok results ->
            exists rows, h = Some rows /\ map raw rows = df.
Proof.
  cbv zeta. split.
  { apply history_blind_keeps, history_blind_process_transactions. }
  assert (Heta : forall w0 : World,
             set_transaction_history (transaction_history w0) w0 = w0)
    by (intros w0; destruct w0; reflexivity).
  unfold process_transactions. cbv zeta. unfold bind.
  destruct (find_merger_tickers (map init_row df) w) as [[mt | e] w0];
    [| exists (transaction_history w0); cbn [fst snd]; rewrite Heta;
       split; [reflexivity | discriminate]].
  repeat match goal with
         | |- context [assign ?set ?f ?rows ?w1] =>
             let E := fresh "E" in
             destruct (assign set f rows w1) as [[? | ?] ?] eqn:E;
             [| eexists (transaction_history _); cbn [fst snd];
                rewrite Heta; split; [reflexivity | discriminate]]
         end.
  unfold modify_world, ret.
  match goal with
  | |- context [foldM ?f ?s ?l (set_transaction_history (Some ?rows) ?w9)] =>
      exists (Some rows);
      rewrite (history_blind_foldM f l s
                 (fun s0 a => history_blind_process_ticker now _ s0 a)
                 w9 (Some rows))
  end.
  split; [reflexivity |].
  intros results _. eexists. split; [reflexivity |].
  repeat match goal with
         | E : assign _ _ _ _ = (Ok _, _) |- _ =>
             apply (assign_keeps raw) in E; [| reflexivity]
         end.
  repeat match goal with
         | E : map raw _ = map raw _ |- _ => rewrite E; clear E
         end.
  apply map_raw_init_row.
Qed.

End StoredHistory.

(* ===================================================================== *)
(** * Runs that return results *)
(* ===================================================================== *)

Section RunsToTheEnd.

Lemma mapM_runs {A B : Type} (I : World -> Prop) (Q : A -> B -> Prop)
    (f : A -> M B) (l : list A) :
  (forall a, a ∈ l -> forall w, I w ->
     exists b w', f a w = (Ok b, w') /\ I w' /\ Q a b) ->
  forall w, I w ->
    exists bs w', mapM f l w = (Ok bs, w') /\ I w' /\ Forall2 Q l bs.
Proof.
  induction l as [| a l IH]; intros Hf w HI.
  - exists [], w. split; [reflexivity |]. split; [exact HI | constructor].
  - destruct (Hf a (list_elem_of_here _ _) w HI) as (b & w1 & Eb & HI1 & Hq).
    destruct (IH (fun a' Hin => Hf a' (list_elem_of_further _ _ _ Hin))
                w1 HI1) as (bs & w2 & Ebs & HI2 & HQ).
    exists (b :: bs), w2. cbn [mapM]. unfold bind. rewrite Eb, Ebs.
    split; [reflexivity |]. split; [exact HI2 | constructor; assumption].
Qed.

Lemma foldM_runs {A S : Type} (I : World -> Prop) (f : S -> A -> M S)
    (l : list A) :
  (forall s a, a ∈ l -> forall w, I w ->
     exists s' w', f s a w = (Ok s', w') /\ I w') ->
  forall s w, I w -> exists s' w', foldM f s l w = (Ok s', w') /\ I w'.
Proof.
  induction l as [| a l IH]; intros Hf s w HI.
  - exists s, w. split; [reflexivity | exact HI].
  - destruct (Hf s a (list_elem_of_here _ _) w HI) as (s1 & w1 & E1 & HI1).
    destruct (IH (fun s' a' Hin => Hf s' a' (list_elem_of_further _ _ _ Hin))
                s1 w1 HI1) as (s2 & w2 & E2 & HI2).
    exists s2, w2. cbn [foldM]. unfold bind. rewrite E1. split; assumption.
Qed.

Lemma assign_runs {A : Type} (I : World -> Prop) (J J' : Row -> Prop)
    (set : A -> Row -> Row) (f : Row -> M A) (rows : list Row) :
  (forall r, J r -> forall w, I w ->
     exists v w', f r w = (Ok v, w') /\ I w' /\ J' (set v r)) ->
  Forall J rows ->
  forall w, I w ->
    exists rows' w',
      assign set f rows w = (Ok rows', w') /\ I w' /\ Forall J' rows'.
Proof.
  intros Hf HJ w HI. unfold assign.
  destruct (mapM_runs I (fun _ r' => J' r')
              (fun row => v <- f row ;; ret (set v row)) rows) with (w := w)
    as (rows' & w' & E & HI' & HQ); [| exact HI |].
  - intros r Hin w0 HI0.
    destruct (Hf r (proj1 (Forall_forall _ _) HJ r Hin) w0 HI0)
      as (v & w1 & Ev & HI1 & HJ').
    exists (set v r), w1. unfold bind. rewrite Ev.
    split; [reflexivity |]. split; assumption.
  - exists rows', w'. split; [exact E |]. split; [exact HI' |].
    clear E HJ.
    induction HQ as [| r r' rows0 rows0' Hr _ IH];
      [apply List.Forall_nil | apply List.Forall_cons; [exact Hr | exact IH]].
Qed.

Lemma merge_targets_named_resolve (w w1 : World) :
  (forall key, resolve w1 key = resolve w key) ->
  merge_targets_named w -> merge_targets_named w1.
Proof. intros Hres HI key target. rewrite Hres. apply HI. Qed.

Lemma merge_targets_named_stable {A : Type} (m : M A) (w w1 : World)
    (r : result A) :
  stable m -> m w = (r, w1) ->
  merge_targets_named w -> merge_targets_named w1.
Proof.
  intros Hm H. destruct (Hm _ _ _ H) as (_ & Hres & _).
  apply merge_targets_named_resolve. exact Hres.
Qed.

(** [normalize_ticker] answers a ticker that is looked up, for a
    ticker that is looked up. *)
Lemma normalize_ticker_runs (ticker : option string) (w : World) :
  merge_targets_named w ->
  exists r w1,
    normalize_ticker ticker w = (Ok r, w1)
    /\ merge_targets_named w1
    /\ forall n, r = Some n ->
                 skipped (Some n) = false /\ skipped ticker = false.
Proof.
  intros HI. destruct ticker as [t |].
  - destruct (normalize_ticker_run t w) as (w1 & E & Hw1).
    eexists _, w1. split; [exact E |].
    split; [exact (merge_targets_named_stable _ _ _ _
                     (stable_normalize_ticker (Some t)) E HI) |].
    intros n Hn. destruct (skipped (Some t)) eqn:Hs; [discriminate Hn |].
    injection Hn as <-. split; [| reflexivity].
    destruct (merged_target (resolve w (upper t))) as [target |] eqn:Et;
      cbn [default].
    + exact (HI _ _ Et).
    + rewrite skipped_upper. exact Hs.
  - exists None, w. split; [reflexivity |]. split; [exact HI |].
    intros n Hn. discriminate Hn.
Qed.

(** The resolver answers for a ticker that is looked up. *)
Lemma resolver_runs (ticker : option string) (w : World) :
  skipped ticker = false ->
  exists info w1,
    get_ticker_info ticker w = (Ok (Some info), w1)
    /\ is_etf ticker w = (Ok (bool_decide (ti_type info = "etf")), w1)
    /\ is_active ticker w = (Ok (default true (ti_active info)), w1)
    /\ get_conversion_ratio ticker w
       = (Ok (default 1 (ti_conversion_ratio info)), w1)
    /\ get_domicile ticker w = (Ok (default "Unknown" (ti_domicile info)), w1).
Proof.
  intros Hs. destruct ticker as [t |]; [| discriminate Hs].
  destruct (get_ticker_info_looked_up t w Hs) as (w1 & E & _).
  exists (resolve w (upper t)), w1.
  unfold is_etf, is_active, get_conversion_ratio, get_domicile, bind.
  rewrite E. repeat split.
Qed.

Lemma process_row_runs (ticker asset_type : string) (etf : bool)
    (state : Results * LedgerState) (row : Row) (w : World) :
  skipped (Some ticker) = false ->
  skipped (Ticker (raw row)) = false ->
  exists state' w',
    process_row ticker asset_type etf state row w = (Ok state', w').
Proof.
  intros Ht Hr. destruct state as [results led]. unfold process_row.
  destruct (resolver_runs (Some ticker) w Ht)
    as (info & w1 & _ & _ & _ & _ & Edom).
  destruct (resolver_runs (Ticker (raw row)) w Hr)
    as (info' & w2 & _ & _ & _ & Eratio & _).
  destruct (bool_decide (TransactionType row = "dividend")).
  { unfold bind. rewrite Edom.
    destruct (bool_decide (default "Unknown" (ti_domicile info) = "IE"));
      eexists _, _; reflexivity. }
  destruct (bool_decide (TransactionType row = "buy")).
  { unfold bind. rewrite Eratio. eexists _, _. reflexivity. }
  destruct (bool_decide (TransactionType row = "sell")).
  { unfold bind. rewrite Eratio.
    destruct (apply_sell _ row led). eexists _, _. reflexivity. }
  repeat match goal with
         | |- context [if ?c then _ else _] => destruct c
         end;
    eexists _, _; reflexivity.
Qed.

Lemma process_ticker_runs (now : Timestamp) (relevant_df : list Row)
    (results : Results) (ticker : string) (w : World) :
  skipped (Some ticker) = false ->
  (forall row, row ∈ relevant_df -> NormalizedTicker row = Some ticker ->
               skipped (Ticker (raw row)) = false) ->
  exists results' w',
    process_ticker now relevant_df results ticker w = (Ok results', w').
Proof.
  intros Ht Hrows. unfold process_ticker.
  destruct (resolver_runs (Some ticker) w Ht) as (info & w1 & _ & E1 & _).
  unfold bind at 1. rewrite E1.
  match goal with
  | |- context [foldM ?f0 ?s0 ?l0] =>
      destruct (foldM_runs (fun _ => True) f0 l0) with (s := s0) (w := w1)
        as ([results1 led1] & w2 & E2 & _); [| exact I |]
  end.
  { intros s row Hin w0 _.
    destruct (process_row_runs ticker
                (if bool_decide (ti_type info = "etf") then "etfs"
                 else "stocks")
                (bool_decide (ti_type info = "etf")) s row w0 Ht)
      as (s' & w' & E).
    - apply (proj1 (sort_values_Date_elem _ _)) in Hin.
      apply (proj1 (list_elem_of_In _ _)) in Hin.
      apply (proj1 (filter_In _ _ _)) in Hin as [Hin Hn].
      apply (Hrows row); [apply list_elem_of_In; exact Hin |].
      apply bool_decide_eq_true_1 in Hn. exact Hn.
    - exists s', w'. split; [exact E | exact I]. }
  unfold bind at 1. rewrite E2.
  destruct (resolver_runs (Some ticker) w2 Ht) as (info2 & w3 & _ & _ & E3 & _).
  unfold bind at 1. rewrite E3.
  destruct (handle_inactive ticker _ _ (year_of now) (results1, led1))
    as [results2 led2].
  match goal with
  | |- context [bind ?m ?k] =>
      assert (Hd : exists results3 w4, m w3 = (Ok results3, w4))
  end.
  { destruct (bool_decide (ti_type info = "etf")
              && negb (bool_decide
                         (buy_transactions (detail_of results2 ticker) = []))).
    - unfold calculate_deemed_disposal_liability.
      destruct (resolver_runs (Some ticker) w3 Ht)
        as (info3 & w4 & _ & E4 & _).
      unfold bind. rewrite E4.
      destruct (negb (bool_decide (ti_type info3 = "etf"))).
      + unfold ret. destruct (0 <? 0); eexists _, _; reflexivity.
      + match goal with
        | |- context [fold_left ?f ?l ?a] =>
            destruct (fold_left f l a) as [gain ds]
        end.
        unfold ret. destruct (0 <? gain); eexists _, _; reflexivity.
    - eexists _, _. reflexivity. }
  destruct Hd as (results3 & w4 & E4).
  unfold bind at 1. rewrite E4.
  destruct (resolver_runs (Some ticker) w4 Ht) as (info4 & w5 & E5 & _).
  unfold bind. rewrite E5. eexists _, _. reflexivity.
Qed.

Lemma unique_elem (l : list string) (x : string) : x ∈ unique l -> x ∈ l.
Proof.
  induction l as [| y l IH]; cbn [unique]; intros H; [exact H |].
  apply elem_of_cons in H as [-> | H]; [apply list_elem_of_here |].
  apply list_elem_of_further, IH.
  apply (proj1 (list_elem_of_In _ _)) in H.
  apply (proj1 (filter_In _ _ _)) in H as [H _].
  apply list_elem_of_In. exact H.
Qed.

Lemma parse_amount_returns (cell : option (list N)) :
  exists q, parse_amount cell = Ok q.
Proof.
  unfold parse_amount. destruct cell as [s |]; [| eexists; reflexivity].
  cbv zeta.
  destruct (findall_number _) as [| m ms]; [eexists; reflexivity |].
  destruct (float_of_text m) as [q | []]; eexists; reflexivity.
Qed.

(** X15. When the frame has a row, every row of it can be converted,
    and the resolver names no merge target that is spelled NONE or NAN,
    [process_transactions] returns results: it raises for no type
    text, ticker, quantity or amount cell whatsoever.  (The frame
    without rows is left aside: its columns are not assigned row by
    row.) *)
Theorem process_transactions_returns (now : Timestamp) (df : list RawRow)
    (store_transactions : bool) (w : World) :
  df <> [] ->
  (forall row, row ∈ df -> convertible row = true) ->
  merge_targets_named w ->
  exists results w',
    process_transactions now df store_transactions w = (Ok results, w').
Proof.
  intros _ Hconv HI. unfold process_transactions.
  set (J := fun r : Row =>
              convertible (raw r) = true
              /\ forall n, NormalizedTicker r = Some n ->
                           skipped (Some n) = false
                           /\ skipped (Ticker (raw r)) = false).
  assert (H0 : Forall J (map init_row df)).
  { apply Forall_forall. intros r Hin.
    apply list_elem_of_fmap in Hin as (raw0 & -> & Hin).
    split; [apply Hconv; exact Hin | intros n Hn; discriminate Hn]. }
  (* the merger tickers *)
  destruct (foldM_runs merge_targets_named
              (fun (merger_tickers : gset string) row =>
                 if str_in (TransactionType row)
                      ["merger_stock"; "merger_cash"; "merger"]
                 then
                   ticker <- normalize_ticker (Ticker (raw row)) ;;
                   match ticker with
                   | Some t =>
                       if bool_decide (t = "") then ret merger_tickers
                       else ret ({[t]} ∪ merger_tickers)
                   | None => ret merger_tickers
                   end
                 else ret merger_tickers)
              (map init_row df)) with (s := (∅ : gset string)) (w := w)
    as (mt & w0 & E0 & HI0); [| exact HI |].
  { intros s row _ wa HIa.
    destruct (str_in (TransactionType row)
                ["merger_stock"; "merger_cash"; "merger"]);
      [| exists s, wa; split; [reflexivity | exact HIa]].
    destruct (normalize_ticker_runs (Ticker (raw row)) wa HIa)
      as (r & wb & Er & HIb & _).
    unfold bind. rewrite Er.
    destruct r as [t |]; [destruct (bool_decide (t = "")) |];
      eexists _, wb; (split; [reflexivity | exact HIb]). }
  unfold find_merger_tickers. unfold bind at 1. rewrite E0.
  (* TransactionType *)
  destruct (assign_runs merge_targets_named J J set_TransactionType
              (classify_transfer mt) (map init_row df))
    with (w := w0) as (df1 & w1 & E1 & HI1 & H1); [| exact H0 | exact HI0 |].
  { intros r HJr wa HIa. unfold classify_transfer.
    destruct (bool_decide (TransactionType r = "transfer_broker"));
      [| eexists _, wa; split; [reflexivity |]; split; [exact HIa | exact HJr]].
    destruct (normalize_ticker_runs (Ticker (raw r)) wa HIa)
      as (v & wb & Er & HIb & _).
    unfold bind. rewrite Er.
    destruct v as [t |]; [destruct (bool_decide (t ∈ mt)) |];
      eexists _, wb;
      (split; [reflexivity |]; split; [exact HIb | exact HJr]). }
  unfold bind at 1. rewrite E1.
  (* NormalizedTicker *)
  destruct (assign_runs merge_targets_named J J set_NormalizedTicker
              (fun row =>
                 if str_in (TransactionType row) relevant_types
                 then normalize_ticker (Ticker (raw row))
                 else ret None) df1)
    with (w := w1) as (df2 & w2 & E2 & HI2 & H2); [| exact H1 | exact HI1 |].
  { intros r [HC _] wa HIa.
    destruct (str_in (TransactionType r) relevant_types).
    - destruct (normalize_ticker_runs (Ticker (raw r)) wa HIa)
        as (v & wb & Er & HIb & Hv).
      exists v, wb. split; [exact Er |]. split; [exact HIb |].
      split; [exact HC | exact Hv].
    - exists None, wa. split; [reflexivity |]. split; [exact HIa |].
      split; [exact HC | intros n Hn; discriminate Hn]. }
  unfold bind at 1. rewrite E2.
  (* IsETF and IsActive *)
  destruct (assign_runs (fun _ => True) J J set_IsETF
              (fun row =>
                 match NormalizedTicker row with
                 | Some x => is_etf (Some x)
                 | None => ret false
                 end) df2)
    with (w := w2) as (df3 & w3 & E3 & _ & H3); [| exact H2 | exact I |].
  { intros r HJr wa _. pose proof HJr as [_ HN].
    destruct (NormalizedTicker r) as [x |].
    - destruct (HN x eq_refl) as [Hx _].
      destruct (resolver_runs (Some x) wa Hx) as (info & wb & _ & Eb & _).
      eexists _, wb. split; [exact Eb |]. split; [exact I | exact HJr].
    - eexists _, wa. split; [reflexivity |]. split; [exact I | exact HJr]. }
  unfold bind at 1. rewrite E3.
  destruct (assign_runs (fun _ => True) J J set_IsActive
              (fun row =>
                 match NormalizedTicker row with
                 | Some x => is_active (Some x)
                 | None => ret true
                 end) df3)
    with (w := w3) as (df4 & w4 & E4 & _ & H4); [| exact H3 | exact I |].
  { intros r HJr wa _. pose proof HJr as [_ HN].
    destruct (NormalizedTicker r) as [x |].
    - destruct (HN x eq_refl) as [Hx _].
      destruct (resolver_runs (Some x) wa Hx) as (info & wb & _ & _ & Eb & _).
      eexists _, wb. split; [exact Eb |]. split; [exact I | exact HJr].
    - eexists _, wa. split; [reflexivity |]. split; [exact I | exact HJr]. }
  unfold bind at 1. rewrite E4.
  (* the parsed amounts *)
  destruct (assign_runs (fun _ => True) J J set_TotalAmountFloat
              (fun row => lift (parse_amount (Total_Amount (raw row)))) df4)
    with (w := w4) as (df5 & w5 & E5 & _ & H5); [| exact H4 | exact I |].
  { intros r HJr wa _.
    destruct (parse_amount_returns (Total_Amount (raw r))) as [q Eq].
    exists q, wa. unfold lift. rewrite Eq.
    split; [reflexivity |]. split; [exact I | exact HJr]. }
  unfold bind at 1. rewrite E5.
  destruct (assign_runs (fun _ => True) J J set_PricePerShareFloat
              (fun row => lift (parse_amount (Price_per_share (raw row)))) df5)
    with (w := w5) as (df6 & w6 & E6 & _ & H6); [| exact H5 | exact I |].
  { intros r HJr wa _.
    destruct (parse_amount_returns (Price_per_share (raw r))) as [q Eq].
    exists q, wa. unfold lift. rewrite Eq.
    split; [reflexivity |]. split; [exact I | exact HJr]. }
  unfold bind at 1. rewrite E6.
  (* the converted amounts *)
  destruct (assign_runs (fun _ => True) J J set_TotalAmountEUR
              (fun row =>
                 lift (convert_to_eur (TotalAmountFloat row)
                         (Currency (raw row)) (FX_Rate (raw row)))) df6)
    with (w := w6) as (df7 & w7 & E7 & _ & H7); [| exact H6 | exact I |].
  { intros r HJr wa _. pose proof HJr as [HC _].
    pose proof (convert_to_eur_convertible (TotalAmountFloat r) (raw r)) as Hc.
    destruct (convert_to_eur (TotalAmountFloat r) (Currency (raw r))
                (FX_Rate (raw r))) as [q | e] eqn:Eq; [| congruence].
    exists q, wa. unfold lift. rewrite ?Eq.
    split; [reflexivity |]. split; [exact I | exact HJr]. }
  unfold bind at 1. rewrite E7.
  destruct (assign_runs (fun _ => True) J J set_PricePerShareEUR
              (fun row =>
                 lift (convert_to_eur (PricePerShareFloat row)
                         (Currency (raw row)) (FX_Rate (raw row)))) df7)
    with (w := w7) as (df8 & w8 & E8 & _ & H8); [| exact H7 | exact I |].
  { intros r HJr wa _. pose proof HJr as [HC _].
    pose proof (convert_to_eur_convertible (PricePerShareFloat r) (raw r))
      as Hc.
    destruct (convert_to_eur (PricePerShareFloat r) (Currency (raw r))
                (FX_Rate (raw r))) as [q | e] eqn:Eq; [| congruence].
    exists q, wa. unfold lift. rewrite ?Eq.
    split; [reflexivity |]. split; [exact I | exact HJr]. }
  unfold bind at 1. rewrite E8.
  (* the fees *)
  destruct (assign_runs (fun _ => True) J J set_FeesEUR
              (fun row =>
                 ret (if str_in (TransactionType row) ["buy"; "sell"]
                         && (0 <? Quantity (raw row))
                      then TotalAmountEUR row
                           - PricePerShareEUR row * Quantity (raw row)
                      else 0)) df8)
    with (w := w8) as (df9 & w9 & E9 & _ & H9); [| exact H8 | exact I |].
  { intros r HJr wa _. eexists _, wa.
    split; [reflexivity |]. split; [exact I | exact HJr]. }
  unfold bind at 1. rewrite E9.
  (* the tickers *)
  cbv zeta.
  set (relevant_df :=
         List.filter
           (fun row => negb (bool_decide (NormalizedTicker row = Some "None")))
           (List.filter
              (fun row =>
                 match NormalizedTicker row with
                 | Some _ => true
                 | None => false
                 end)
              (List.filter
                 (fun row => str_in (TransactionType row) relevant_types)
                 df9))).
  assert (Hrel : forall row, row ∈ relevant_df -> J row).
  { intros row Hin. unfold relevant_df in Hin.
    apply (proj1 (list_elem_of_In _ _)) in Hin.
    apply (proj1 (filter_In _ _ _)) in Hin as [Hin _].
    apply (proj1 (filter_In _ _ _)) in Hin as [Hin _].
    apply (proj1 (filter_In _ _ _)) in Hin as [Hin _].
    apply (proj1 (Forall_forall _ _) H9). apply list_elem_of_In. exact Hin. }
  assert (Hfold : forall wa,
             exists results w',
               foldM (process_ticker now relevant_df) initial_results
                 (unique (omap NormalizedTicker relevant_df)) wa
               = (Ok results, w')).
  { intros wa.
    destruct (foldM_runs (fun _ => True) (process_ticker now relevant_df)
                (unique (omap NormalizedTicker relevant_df)))
      with (s := initial_results) (w := wa)
      as (results & w' & E & _); [| exact I | exists results, w'; exact E].
    intros s t Hin wb _.
    apply unique_elem in Hin.
    apply list_elem_of_omap in Hin as (row & Hrow & Hn).
    destruct (Hrel row Hrow) as [_ HN].
    destruct (HN t Hn) as [Ht _].
    destruct (process_ticker_runs now relevant_df s t wb Ht)
      as (results' & w' & E).
    - intros row' Hrow' Hn'. destruct (Hrel row' Hrow') as [_ HN'].
      exact (proj2 (HN' t Hn')).
    - exists results', w'. split; [exact E | exact I]. }
  unfold bind, modify_world, ret.
  destruct store_transactions; apply Hfold.
Qed.

(** The sample export in the sample world. *)
Lemma process_transactions_returns_witness :
  sample_df <> []
  /\ (forall row, row ∈ sample_df -> convertible row = true)
  /\ merge_targets_named sample_world
  /\ exists results w',
       process_transactions sample_now sample_df true sample_world
       = (Ok results, w').
Proof.
  assert (H1 : forall row, row ∈ sample_df -> convertible row = true).
  { intros row Hin. unfold sample_df in Hin.
    repeat (apply elem_of_cons in Hin as [-> | Hin]; [reflexivity |]).
    apply not_elem_of_nil in Hin. contradiction. }
  assert (H2 : merge_targets_named sample_world).
  { intros key target H. unfold resolve in H.
    destruct (ticker_cache sample_world !! key) as [info |] eqn:E.
    - unfold sample_world in E. cbn [ticker_cache] in E.
      repeat (apply lookup_insert_Some in E as [[_ <-] | [_ E]];
              [discriminate H |]).
      rewrite lookup_empty in E. discriminate E.
    - unfold sample_world in H. cbn [cache_file] in H.
      rewrite lookup_empty in H. discriminate H. }
  assert (H0 : sample_df <> []) by discriminate.
  split; [exact H0 |]. split; [exact H1 |]. split; [exact H2 |].
  exact (process_transactions_returns sample_now sample_df true sample_world
           H0 H1 H2).
Defined.

End RunsToTheEnd.

(* ===================================================================== *)
(** * Mergers in the replay *)
(* ===================================================================== *)

Section Mergers.

(** X16. A merger row removes shares without booking anything.  For a
    row of kind [merger_stock] or [merger] with a negative quantity the
    replay leaves the ledger that the consumption loop of a sale of as
    many shares would leave: the removal loop, which the code writes
    out a second time, takes the same lots in the same order.  No gain
    or loss is booked, nothing is looked up, and a row with a quantity
    that is not negative changes nothing at all. *)
Theorem merger_removes_shares_without_gain (ticker asset_type : string)
    (etf : bool) (results : Results) (led : LedgerState) (row : Row)
    (w : World) :
  TransactionType row = "merger_stock" \/ TransactionType row = "merger" ->
  process_row ticker asset_type etf (results, led) row w
  = (Ok (results,
         if Quantity (raw row) <? 0
         then sl_ledger
                (sell_loop (buy_queue led) (Qabs (Quantity (raw row))) 0
                   (total_shares led) (total_cost led))
         else led),
     w).
Proof.
  intros Hkind. unfold process_row.
  assert (Hd : bool_decide (TransactionType row = "dividend") = false)
    by (apply bool_decide_eq_false_2; destruct Hkind as [-> | ->]; discriminate).
  assert (Hb : bool_decide (TransactionType row = "buy") = false)
    by (apply bool_decide_eq_false_2; destruct Hkind as [-> | ->]; discriminate).
  assert (Hs : bool_decide (TransactionType row = "sell") = false)
    by (apply bool_decide_eq_false_2; destruct Hkind as [-> | ->]; discriminate).
  assert (Hm : str_in (TransactionType row) ["merger_stock"; "merger"] = true)
    by (destruct Hkind as [-> | ->]; reflexivity).
  rewrite Hd, Hb, Hs, Hm. unfold ret. f_equal. f_equal. f_equal.
  unfold apply_merger.
  destruct (Quantity (raw row) <? 0); [| reflexivity].
  rewrite (remove_loop_sell_loop _ _ 0). reflexivity.
Qed.

(** Three lots of one share and a merger that takes two of them. *)
Lemma merger_removes_shares_without_gain_witness :
  let led :=
    {| buy_queue := [lot_of 1 10; lot_of 1 20; lot_of 1 30];
       total_shares := 3; total_cost := 60 |} in
  let row := mk_row "ACME" "merger" 2021 (-2) 0 in
  (TransactionType row = "merger_stock" \/ TransactionType row = "merger")
  /\ process_row "ACME" "stocks" false (initial_results, led) row sample_world
     = (Ok (initial_results,
            if Quantity (raw row) <? 0
            then sl_ledger
                   (sell_loop (buy_queue led) (Qabs (Quantity (raw row))) 0
                      (total_shares led) (total_cost led))
            else led),
        sample_world)
  /\ buy_queue
       (sl_ledger
          (sell_loop (buy_queue led) (Qabs (Quantity (raw row))) 0
             (total_shares led) (total_cost led)))
     = [lot_of 1 30].
Proof.
  intros led row.
  split; [right; reflexivity |].
  split; [| reflexivity].
  apply (merger_removes_shares_without_gain "ACME" "stocks" false
           initial_results led row sample_world).
  right. reflexivity.
Defined.

End Mergers.

(* ===================================================================== *)
(** * The number that [parse_amount] reads *)
(* ===================================================================== *)

Section FirstNumber.

Lemma digit_not_minus (c : N) :
  is_digit c = true -> (c =? cp_minus)%N = false.
Proof.
  intros H. destruct (N.eqb_spec c cp_minus) as [-> | Hne]; [| reflexivity].
  vm_compute in H. discriminate H.
Qed.

Lemma run_length_digits (ds tail : list N) :
  Forall (fun c => is_digit c = true) ds ->
  run_length is_digit tail = O ->
  run_length is_digit (ds ++ tail) = length ds.
Proof.
  intros Hds Htail. induction Hds as [| d ds Hd Hds IH]; [exact Htail |].
  cbn [app run_length length]. rewrite Hd, IH. reflexivity.
Qed.

(** The match at a run of digits that ends the text or is followed by a
    character that is neither a digit nor a dot. *)
Lemma match_number_digits (sign ds tail : list N) :
  sign = [] \/ sign = [cp_minus] ->
  ds <> [] -> Forall (fun c => is_digit c = true) ds ->
  match tail with
  | [] => True
  | c :: _ => is_digit c = false /\ c <> cp_dot
  end ->
  match_number (sign ++ ds ++ tail) = Some (sign ++ ds)%list.
Proof.
  intros Hsign Hne Hds Htail.
  assert (Ht0 : run_length is_digit tail = O).
  { destruct tail as [| c tail]; [reflexivity |].
    cbn [run_length]. rewrite (proj1 Htail). reflexivity. }
  assert (Hsplit : match (sign ++ ds ++ tail)%list with
                   | c :: s' =>
                       if (c =? cp_minus)%N then ([c], s')
                       else ([], (sign ++ ds ++ tail)%list)
                   | [] => ([], (sign ++ ds ++ tail)%list)
                   end = (sign, (ds ++ tail)%list)).
  { destruct Hsign as [-> | ->].
    - destruct ds as [| d ds]; [contradiction |].
      cbn [app]. rewrite (digit_not_minus d); [reflexivity |].
      exact (Forall_inv Hds).
    - reflexivity. }
  unfold match_number. rewrite Hsplit.
  rewrite (run_length_digits ds tail Hds Ht0).
  assert (Hlen : exists k, length ds = S k)
    by (destruct ds; [contradiction | eexists; reflexivity]).
  destruct Hlen as [k Hlen].
  rewrite Hlen. cbv beta iota. rewrite <- Hlen.
  rewrite take_app_length, drop_app_length.
  assert (Hdot : match tail with
                 | c :: s' =>
                     if (c =? cp_dot)%N then ([c], s') else ([], tail)
                 | [] => ([], tail)
                 end = (([] : list N), tail)).
  { destruct tail as [| c tail']; [reflexivity |].
    destruct (N.eqb_spec c cp_dot) as [-> | _]; [| reflexivity].
    destruct Htail as [_ C]. contradiction. }
  rewrite Hdot, Ht0. cbn [take app]. rewrite !app_nil_r. reflexivity.
Qed.

(** The first match of a text that begins with characters other than
    digits. *)
Lemma findall_number_first (pre ds tail : list N) :
  no_digit pre ->
  ds <> [] -> Forall (fun c => is_digit c = true) ds ->
  match tail with
  | [] => True
  | c :: _ => is_digit c = false /\ c <> cp_dot
  end ->
  exists rest,
    findall_number (pre ++ ds ++ tail)
    = ((match last pre with
        | Some c => if (c =? cp_minus)%N then [cp_minus] else []
        | None => []
        end) ++ ds)%list :: rest.
Proof.
  intros Hpre Hne Hds Htail. unfold findall_number.
  induction Hpre as [| c pre Hc Hpre IH].
  - cbn [app last].
    assert (Hcons : exists d ds', (ds ++ tail)%list = d :: ds')
      by (destruct ds; [contradiction | eexists _, _; reflexivity]).
    destruct Hcons as (d & ds' & Hcons).
    rewrite Hcons. cbn [findall_number_from]. rewrite <- Hcons.
    pose proof (match_number_digits [] ds tail (or_introl eq_refl)
                  Hne Hds Htail) as Hm.
    cbn [app] in Hm. rewrite Hm. eexists. reflexivity.
  - cbn [app findall_number_from].
    destruct pre as [| c' pre'].
    + cbn [app last] in *.
      destruct (N.eqb_spec c cp_minus) as [-> | Hm].
      * pose proof (match_number_digits [cp_minus] ds tail
                      (or_intror eq_refl) Hne Hds Htail) as Hm.
        cbn [app] in Hm. rewrite Hm. eexists. reflexivity.
      * assert (Hnone : match_number (c :: ds ++ tail) = None).
        { unfold match_number.
          rewrite (proj2 (N.eqb_neq c cp_minus) Hm).
          cbn [run_length]. rewrite Hc. reflexivity. }
        rewrite Hnone. exact IH.
    + rewrite last_cons_cons.
      assert (Hnone : match_number (c :: (c' :: pre') ++ ds ++ tail) = None).
      { unfold match_number.
        pose proof (Forall_inv Hpre) as Hc'. cbn beta in Hc'.
        destruct (c =? cp_minus)%N.
        - cbn [app run_length]. rewrite Hc'. reflexivity.
        - cbn [run_length]. rewrite Hc. reflexivity. }
      rewrite Hnone. exact IH.
Qed.

Lemma run_length_all_digits (ds : list N) :
  Forall (fun c => is_digit c = true) ds ->
  run_length is_digit ds = length ds.
Proof.
  intros H. rewrite <- (app_nil_r ds) at 1.
  apply run_length_digits; [exact H | reflexivity].
Qed.

(** [float] of a run of digits with or without a sign. *)
Lemma float_of_text_digits (negative : bool) (ds : list N) :
  ds <> [] -> Forall (fun c => is_digit c = true) ds ->
  exists q,
    float_of_text ((if negative then [cp_minus] else []) ++ ds) = Ok q
    /\ q == (if negative then -1 else 1)
            * inject_Z (Z.of_N (digits_value ds)).
Proof.
  intros Hne Hds. unfold float_of_text.
  assert (Hsplit : match ((if negative then [cp_minus] else []) ++ ds)%list with
                   | c :: t' =>
                       if (c =? cp_minus)%N then (true, t')
                       else (false,
                             ((if negative then [cp_minus] else []) ++ ds)%list)
                   | [] =>
                       (false,
                        ((if negative then [cp_minus] else []) ++ ds)%list)
                   end = (negative, ds)).
  { destruct negative; [reflexivity |].
    destruct ds as [| d ds']; [contradiction |].
    cbn [app]. rewrite (digit_not_minus d); [reflexivity |].
    exact (Forall_inv Hds). }
  rewrite Hsplit. rewrite (run_length_all_digits ds Hds).
  assert (Hlen : exists k, length ds = S k)
    by (destruct ds; [contradiction | eexists; reflexivity]).
  destruct Hlen as [k Hlen].
  rewrite Hlen. cbv beta iota. rewrite <- Hlen.
  rewrite drop_all, take_ge by reflexivity.
  assert (Hcheck : (length ((if negative then [cp_minus] else []) ++ ds)
                    =? (if negative then 1 else 0) + length ds + 0
                       + length ([] : list N))%nat = true).
  { apply Nat.eqb_eq. rewrite length_app.
    destruct negative; cbn [length]; lia. }
  rewrite Hcheck. eexists. split; [reflexivity |].
  destruct negative; cbn [length digits_value fold_left]; field;
    discriminate.
Qed.

(** X17. [parse_amount] reads the first run of digits of the cleaned
    text and stops at the first character that is neither a digit nor
    a dot.  If the cleaned text is some characters without a digit,
    then a run of digits, then the end of the text or such a
    character, the result is the value of the run, negative exactly
    when a minus sign stands directly before it; what follows is not
    read.  A thousands separator therefore ends the number. *)
Theorem parse_amount_reads_first_number (amount_str pre ds tail : list N) :
  cleaned amount_str = (pre ++ ds ++ tail)%list ->
  no_digit pre ->
  ds <> [] -> Forall (fun c => is_digit c = true) ds ->
  match tail with
  | [] => True
  | c :: _ => is_digit c = false /\ c <> cp_dot
  end ->
  exists q,
    parse_amount (Some amount_str) = Ok q
    /\ q == (match last pre with
             | Some c => if (c =? cp_minus)%N then -1 else 1
             | None => 1
             end) * inject_Z (Z.of_N (digits_value ds)).
Proof.
  intros Hclean Hpre Hne Hds Htail.
  unfold parse_amount. cbv zeta. fold (cleaned amount_str). rewrite Hclean.
  destruct (findall_number_first pre ds tail Hpre Hne Hds Htail)
    as (rest & Hfirst).
  rewrite Hfirst.
  set (negative := match last pre with
                   | Some c => (c =? cp_minus)%N
                   | None => false
                   end).
  destruct (float_of_text_digits negative ds Hne Hds) as (q & Hq & Hval).
  assert (Hsign : match last pre with
                  | Some c => if (c =? cp_minus)%N then [cp_minus] else []
                  | None => []
                  end = if negative then [cp_minus] else []).
  { unfold negative. destruct (last pre) as [c |]; reflexivity. }
  rewrite Hsign, Hq. exists q. split; [reflexivity |].
  rewrite Hval. unfold negative.
  destruct (last pre) as [c |]; [destruct (c =? cp_minus)%N |]; reflexivity.
Qed.

(** The text "$1,234.56" is read as 1. *)
Lemma parse_amount_reads_first_number_witness :
  let amount_str := codepoints "$1,234.56" in
  let ds := codepoints "1" in
  let tail := codepoints ",234.56" in
  cleaned amount_str = ([] ++ ds ++ tail)%list
  /\ no_digit []
  /\ ds <> []
  /\ Forall (fun c => is_digit c = true) ds
  /\ match tail with
     | [] => True
     | c :: _ => is_digit c = false /\ c <> cp_dot
     end
  /\ exists q,
       parse_amount (Some amount_str) = Ok q
       /\ q == (match last ([] : list N) with
                | Some c => if (c =? cp_minus)%N then -1 else 1
                | None => 1
                end) * inject_Z (Z.of_N (digits_value ds)).
Proof.
  intros amount_str ds tail.
  assert (H1 : cleaned amount_str = ([] ++ ds ++ tail)%list) by reflexivity.
  assert (H2 : no_digit []) by constructor.
  assert (H3 : ds <> []) by discriminate.
  assert (H4 : Forall (fun c => is_digit c = true) ds)
    by (repeat constructor).
  assert (H5 : match tail with
               | [] => True
               | c :: _ => is_digit c = false /\ c <> cp_dot
               end) by (split; [reflexivity | discriminate]).
  split; [exact H1 |]. split; [exact H2 |]. split; [exact H3 |].
  split; [exact H4 |]. split; [exact H5 |].
  exact (parse_amount_reads_first_number amount_str [] ds tail H1 H2 H3 H4 H5).
Defined.

End FirstNumber.

(* ===================================================================== *)
(** * A sale in two parts *)
(* ===================================================================== *)

Section SplitSale.

Lemma Qltb_proper (x x' y y' : Q) :
  x == x' -> y == y' -> (x <? y) = (x' <? y').
Proof.
  intros Hx Hy.
  destruct (Qltb_reflect x y); destruct (Qltb_reflect x' y');
    try reflexivity; exfalso; lra.
Qed.

Lemma Qleb_proper (x x' y y' : Q) :
  x == x' -> y == y' -> (x <=? y) = (x' <=? y').
Proof.
  intros Hx Hy.
  destruct (Qleb_reflect x y); destruct (Qleb_reflect x' y');
    try reflexivity; exfalso; lra.
Qed.














End SplitSale.

(* ===================================================================== *)
(** * The ticker details of a run *)
(* ===================================================================== *)

Section TickerDetails.

Lemma same_but_refl (ticker : string) (r : Results) : same_but ticker r r.
Proof. split; [intros; reflexivity | reflexivity]. Qed.

Lemma same_but_trans (ticker : string) (r1 r2 r3 : Results) :
  same_but ticker r1 r2 -> same_but ticker r2 r3 -> same_but ticker r1 r3.
Proof.
  intros [H1 A1] [H2 A2]. split.
  - intros other Hne. rewrite H2, H1 by exact Hne. reflexivity.
  - rewrite A2, A1. reflexivity.
Qed.

Lemma same_but_detail_update (ticker : string)
    (f : TickerDetail -> TickerDetail) (r : Results) :
  (forall d, asset_type (f d) = asset_type d) ->
  same_but ticker r (detail_update ticker f r).
Proof.
  intros Hf. split.
  - intros other Hne. apply detail_update_other. exact Hne.
  - rewrite detail_of_update. apply Hf.
Qed.

Lemma same_but_summary_add (ticker asset_type key : string) (year : Z)
    (x : Q) (r : Results) :
  same_but ticker r (summary_add asset_type key year x r).
Proof. split; [intros; reflexivity | reflexivity]. Qed.

Lemma same_but_book (ticker asset_type key : string) (year : Z) (x : Q)
    (r : Results) :
  same_but ticker r (book asset_type ticker key year x r).
Proof.
  unfold book, detail_add.
  eapply same_but_trans; [apply same_but_summary_add |].
  apply same_but_detail_update. reflexivity.
Qed.

Lemma same_but_remember_buy (ticker : string) (row : Row) (r : Results) :
  same_but ticker r (remember_buy ticker row r).
Proof. apply same_but_detail_update. reflexivity. Qed.

Lemma process_row_same_but (ticker asset_type : string) (etf : bool)
    (results results' : Results) (led led' : LedgerState) (row : Row)
    (w w' : World) :
  process_row ticker asset_type etf (results, led) row w
  = (Ok (results', led'), w') ->
  same_but ticker results results'.
Proof.
  unfold process_row. intros H.
  destruct (bool_decide (TransactionType row = "dividend")).
  { apply bind_ok in H as (domicile & w1 & _ & H).
    destruct (bool_decide (domicile = "IE")); injection H as <- _ _;
      (eapply same_but_trans; [| apply same_but_book]); apply same_but_book. }
  destruct (bool_decide (TransactionType row = "buy")).
  { apply bind_ok in H as (ratio & w1 & _ & H). injection H as <- _ _.
    destruct etf; [apply same_but_remember_buy | apply same_but_refl]. }
  destruct (bool_decide (TransactionType row = "sell")).
  { apply bind_ok in H as (ratio & w1 & _ & H).
    destruct (apply_sell ratio row led) as [led1 gain].
    injection H as <- _ _. apply same_but_book. }
  destruct (str_in (TransactionType row) ["merger_stock"; "merger"]).
  { injection H as <- _ _. apply same_but_refl. }
  destruct (bool_decide (TransactionType row = "merger_cash")).
  { destruct (0 <? TotalAmountEUR row); injection H as <- _ _;
      [| apply same_but_refl].
    eapply same_but_trans; [| apply same_but_book]. apply same_but_book. }
  destruct (bool_decide (TransactionType row = "transfer_merger")).
  { injection H as <- _ _.
    destruct ((0 <? Quantity (raw row)) && etf);
      [apply same_but_remember_buy | apply same_but_refl]. }
  injection H as <- _ _. apply same_but_refl.
Qed.

Lemma foldM_process_row_same_but (ticker asset_type : string) (etf : bool)
    (rows : list Row) (results results' : Results) (led led' : LedgerState)
    (w w' : World) :
  foldM (process_row ticker asset_type etf) (results, led) rows w
  = (Ok (results', led'), w') ->
  same_but ticker results results'.
Proof.
  revert results led w.
  induction rows as [| row rows IH]; intros results led w H.
  - injection H as <- _ _. apply same_but_refl.
  - cbn [foldM] in H. apply bind_ok in H as ([results1 led1] & w1 & Hrow & H).
    eapply same_but_trans; [eapply process_row_same_but; exact Hrow |].
    eapply IH. exact H.
Qed.

Lemma report_cost_basis_same_but (ticker original_currency : string)
    (ticker_data : list Row) (led : LedgerState) (results : Results) :
  same_but ticker results
    (report_cost_basis ticker original_currency ticker_data led results).
Proof.
  unfold report_cost_basis.
  repeat match goal with
         | |- context [if ?c then _ else _] => destruct c
         | |- context [match ?c with Ok _ => _ | Raise _ => _ end] =>
             destruct c as [? | []]
         end;
    repeat (eapply same_but_trans;
            [| apply same_but_detail_update; reflexivity]);
    apply same_but_refl.
Qed.

Lemma report_cost_basis_entry (ticker original_currency : string)
    (ticker_data : list Row) (led : LedgerState) (results : Results) :
  is_Some
    (ticker_detail
       (report_cost_basis ticker original_currency ticker_data led results)
     !! ticker).
Proof.
  unfold report_cost_basis.
  repeat match goal with
         | |- context [if ?c then _ else _] => destruct c
         | |- context [match ?c with Ok _ => _ | Raise _ => _ end] =>
             destruct c as [? | []]
         end;
    unfold detail_update at 1; cbn [ticker_detail];
    rewrite lookup_insert_eq; eexists; reflexivity.
Qed.

(** What the resolver is asked about a ticker that is processed. *)
Lemma is_etf_answer (ticker : string) (etf : bool) (w w1 : World) :
  is_etf (Some ticker) w = (Ok etf, w1) ->
  etf = bool_decide (ti_type (resolve w (upper ticker)) = "etf")
  /\ forall key, resolve w1 key = resolve w key.
Proof.
  intros H. destruct (skipped (Some ticker)) eqn:Hs.
  - unfold is_etf, bind in H.
    rewrite (get_ticker_info_skipped _ w Hs) in H. discriminate H.
  - destruct (get_ticker_info_looked_up ticker w Hs) as (w2 & E & _ & _ & Hres).
    unfold is_etf, bind in H. rewrite E in H. injection H as <- <-.
    split; [reflexivity | exact Hres].
Qed.

Lemma is_active_answer (ticker : string) (active : bool) (w w1 : World) :
  is_active (Some ticker) w = (Ok active, w1) ->
  active = default true (ti_active (resolve w (upper ticker))).
Proof.
  intros H. destruct (skipped (Some ticker)) eqn:Hs.
  - unfold is_active, bind in H.
    rewrite (get_ticker_info_skipped _ w Hs) in H. discriminate H.
  - destruct (get_ticker_info_looked_up ticker w Hs) as (w2 & E & _).
    unfold is_active, bind in H. rewrite E in H. injection H as <- _.
    reflexivity.
Qed.

(** What the processing of one ticker does to the details: the other
    tickers keep theirs, and the ticker has a detail whose asset class
    is the one the resolver names and whose holding is not positive
    when the resolver calls the instrument inactive. *)
Lemma process_ticker_details (now : Timestamp) (relevant_df : list Row)
    (results results' : Results) (ticker : string) (w w' : World) :
  process_ticker now relevant_df results ticker w = (Ok results', w') ->
  (forall other : string,
      other <> ticker ->
      ticker_detail results' !! other = ticker_detail results !! other)
  /\ is_Some (ticker_detail results' !! ticker)
  /\ asset_type (detail_of results' ticker)
     = (if bool_decide (ti_type (resolve w (upper ticker)) = "etf")
        then "etfs" else "stocks")
  /\ (default true (ti_active (resolve w (upper ticker))) = false ->
      current_holdings (detail_of results' ticker) <= 0).
Proof.
  unfold process_ticker. intros H.
  apply bind_ok in H as (etf & wa & Hetf & H).
  destruct (is_etf_answer _ _ _ _ Hetf) as [Eetf Ra].
  apply bind_ok in H as ([results1 led1] & wb & Hfold & H).
  assert (Rb : forall key, resolve wb key = resolve wa key).
  { refine (proj1 (proj2 (stable_foldM _ _ _ _ _ _ _ Hfold))).
    intros s a. apply stable_process_row. }
  apply bind_ok in H as (active & wc & Hact & H).
  apply is_active_answer in Hact. rewrite Rb, Ra in Hact.
  set (results0 :=
         detail_update ticker
           (set_asset_type (if etf then "etfs" else "stocks")) results) in *.
  assert (H0 : (forall other, other <> ticker ->
                  ticker_detail results0 !! other
                  = ticker_detail results !! other)
               /\ asset_type (detail_of results0 ticker)
                  = (if etf then "etfs" else "stocks")).
  { split; [intros other Hne; apply detail_update_other; exact Hne |].
    unfold results0. rewrite detail_of_update. reflexivity. }
  pose proof (foldM_process_row_same_but _ _ _ _ _ _ _ _ _ _ Hfold) as S1.
  destruct (handle_inactive ticker (if etf then "etfs" else "stocks") active
              (year_of now) (results1, led1)) as [results2 led2] eqn:Hin.
  assert (S2 : same_but ticker results1 results2
               /\ (active = false -> total_shares led2 <= 0)).
  { unfold handle_inactive in Hin.
    destruct active; cbn [negb andb] in Hin.
    - injection Hin as <- <-. split; [apply same_but_refl | discriminate].
    - destruct (Qltb_reflect 0 (total_shares led1)) as [Hpos | Hnpos];
        injection Hin as <- <-.
      + split; [apply same_but_book | intros _; apply Qle_refl].
      + split; [apply same_but_refl | intros _; lra]. }
  destruct S2 as [S2 Hheld].
  apply bind_ok in H as (results3 & wd & Hdeemed & H).
  assert (S3 : same_but ticker results2 results3).
  { destruct (etf && negb (bool_decide
                (buy_transactions (detail_of results2 ticker) = []))).
    - apply bind_ok in Hdeemed as ([[gain liability] ds] & we & _ & Hd).
      destruct (0 <? gain); injection Hd as <- _.
      + eapply same_but_trans; [| apply same_but_summary_add].
        apply same_but_detail_update. reflexivity.
      + apply same_but_detail_update. reflexivity.
    - injection Hdeemed as <- _. apply same_but_refl. }
  apply bind_ok in H as (info & we & _ & H).
  destruct info as [info |]; [| discriminate H].
  injection H as <- _.
  assert (S : same_but ticker results0
                (report_cost_basis ticker (default "USD" (ti_currency info))
                   (sort_values_Date
                      (List.filter
                         (fun row =>
                            bool_decide (NormalizedTicker row = Some ticker))
                         relevant_df)) led2
                   (detail_update ticker
                      (set_current_holdings (total_shares led2)) results3))).
  { eapply same_but_trans; [exact S1 |].
    eapply same_but_trans; [exact S2 |].
    eapply same_but_trans; [exact S3 |].
    eapply same_but_trans; [| apply report_cost_basis_same_but].
    apply same_but_detail_update. reflexivity. }
  destruct S as [Sother Sasset]. destruct H0 as [H0 Hasset].
  split; [intros other Hne; rewrite Sother, H0 by exact Hne; reflexivity |].
  split; [apply report_cost_basis_entry |].
  split; [rewrite Sasset, Hasset, Eetf; reflexivity |].
  intros Hinactive.
  rewrite report_cost_basis_holdings, detail_of_update.
  cbn [current_holdings set_current_holdings].
  apply Hheld. rewrite Hact. exact Hinactive.
Qed.

Lemma assign_resolve {A : Type} (set : A -> Row -> Row) (f : Row -> M A)
    (rows rows' : list Row) (w w' : World) :
  (forall r, stable (f r)) ->
  assign set f rows w = (Ok rows', w') ->
  forall key, resolve w' key = resolve w key.
Proof.
  intros Hf H.
  exact (proj1 (proj2 (stable_assign set f rows Hf _ _ _ H))).
Qed.

(** The details after the tickers of a frame, one after the other. *)
Lemma foldM_process_ticker_details (now : Timestamp) (relevant_df : list Row)
    (w : World) (tickers : list string) (results results' : Results)
    (w1 w' : World) :
  foldM (process_ticker now relevant_df) results tickers w1
  = (Ok results', w') ->
  (forall key, resolve w1 key = resolve w key) ->
  (forall t d, ticker_detail results !! t = Some d -> detail_sound w t d) ->
  forall t d, ticker_detail results' !! t = Some d -> detail_sound w t d.
Proof.
  revert results w1.
  induction tickers as [| ticker tickers IH];
    intros results w1 H Hres Hinv.
  - injection H as <- _. exact Hinv.
  - cbn [foldM] in H. apply bind_ok in H as (results1 & wb & Hstep & H).
    pose proof (stable_process_ticker now relevant_df results ticker
                  _ _ _ Hstep) as (_ & Hresb & _).
    assert (Hres1 : forall key, resolve wb key = resolve w key)
      by (intros key; rewrite Hresb; apply Hres).
    apply (IH results1 wb H Hres1).
    intros t d Hd.
    destruct (process_ticker_details _ _ _ _ _ _ _ Hstep)
      as (Hother & _ & Hasset & Hheld).
    destruct (decide (t = ticker)) as [-> | Hne];
      [| rewrite Hother in Hd by exact Hne; exact (Hinv t d Hd)].
    assert (Hdetail : detail_of results1 ticker = d)
      by (unfold detail_of; rewrite Hd; reflexivity).
    rewrite Hdetail, Hres in Hasset, Hheld.
    split; [exact Hasset | exact Hheld].
Qed.

(** X19. The details that [process_transactions] reports.  Every
    ticker detail of the results has the asset class that the resolver
    names for the ticker in the world the run started in, [etfs] for an
    entry of type [etf] and [stocks] for every other; and a ticker that
    the resolver calls inactive is reported with a holding that is
    not positive. *)
Theorem reported_details_are_sound (now : Timestamp) (df : list RawRow)
    (store_transactions : bool) (w w' : World) (results : Results) :
  process_transactions now df store_transactions w = (Ok results, w') ->
  forall t d, ticker_detail results !! t = Some d ->
    asset_type d
    = (if bool_decide (ti_type (resolve w (upper t)) = "etf")
       then "etfs" else "stocks")
    /\ (default true (ti_active (resolve w (upper t))) = false ->
        current_holdings d <= 0).
Proof.
  intros H. unfold process_transactions in H.
  apply bind_ok in H as (mt & w0 & E0 & H).
  pose proof (proj1 (proj2 (stable_find_merger_tickers _ _ _ _ E0))) as R0.
  apply bind_ok in H as (df1 & w1 & E1 & H).
  pose proof (assign_resolve _ _ _ _ _ _
                (stable_classify_transfer mt) E1) as R1.
  apply bind_ok in H as (df2 & w2 & E2 & H).
  assert (R2 : forall key, resolve w2 key = resolve w1 key).
  { refine (assign_resolve _ _ _ _ _ _ _ E2).
    intros r. destruct (str_in (TransactionType r) relevant_types);
      [apply stable_normalize_ticker | apply stable_ret]. }
  apply bind_ok in H as (df3 & w3 & E3 & H).
  assert (R3 : forall key, resolve w3 key = resolve w2 key).
  { refine (assign_resolve _ _ _ _ _ _ _ E3).
    intros r. destruct (NormalizedTicker r);
      [apply stable_is_etf | apply stable_ret]. }
  apply bind_ok in H as (df4 & w4 & E4 & H).
  assert (R4 : forall key, resolve w4 key = resolve w3 key).
  { refine (assign_resolve _ _ _ _ _ _ _ E4).
    intros r. destruct (NormalizedTicker r);
      [apply stable_is_active | apply stable_ret]. }
  apply bind_ok in H as (df5 & w5 & E5 & H).
  pose proof (assign_resolve _ _ _ _ _ _
                (fun r => stable_lift _) E5) as R5.
  apply bind_ok in H as (df6 & w6 & E6 & H).
  pose proof (assign_resolve _ _ _ _ _ _
                (fun r => stable_lift _) E6) as R6.
  apply bind_ok in H as (df7 & w7 & E7 & H).
  pose proof (assign_resolve _ _ _ _ _ _
                (fun r => stable_lift _) E7) as R7.
  apply bind_ok in H as (df8 & w8 & E8 & H).
  pose proof (assign_resolve _ _ _ _ _ _
                (fun r => stable_lift _) E8) as R8.
  apply bind_ok in H as (df9 & w9 & E9 & H).
  pose proof (assign_resolve _ _ _ _ _ _
                (fun r => stable_ret _) E9) as R9.
  apply bind_ok in H as ([] & w10 & E10 & H).
  assert (R10 : forall key, resolve w10 key = resolve w9 key).
  { destruct store_transactions; injection E10 as <-; reflexivity. }
  apply (foldM_process_ticker_details _ _ w _ _ _ _ _ H).
  - intros key.
    rewrite R10, R9, R8, R7, R6, R5, R4, R3, R2, R1, R0. reflexivity.
  - intros t d Hd. unfold initial_results in Hd. cbn [ticker_detail] in Hd.
    rewrite lookup_empty in Hd. discriminate Hd.
Qed.

(** The sample export and a buy of the delisted share: the stock is
    reported as a stock, the fund that the service names as a fund, and
    the delisted share with no holding. *)
Lemma reported_details_are_sound_witness :
  let df :=
    (sample_df
     ++ [mk_raw 1600650000 "DEAD" "BUY - MARKET" 1 "10" "10" "EUR" None])%list in
  exists (results : Results) (w' : World),
    process_transactions sample_now df false sample_world = (Ok results, w')
    /\ (exists d, ticker_detail results !! "ACME" = Some d
                  /\ asset_type d = "stocks")
    /\ (exists d, ticker_detail results !! "VUSA" = Some d
                  /\ asset_type d = "etfs")
    /\ (exists d, ticker_detail results !! "DEAD" = Some d
                  /\ asset_type d = "stocks" /\ current_holdings d <= 0).
Proof.
  intros df.
  destruct (process_transactions sample_now df false sample_world)
    as [[results | e] w'] eqn:E; [| vm_compute in E; discriminate E].
  pose proof (reported_details_are_sound sample_now df false
                sample_world w' results E) as Hsound.
  exists results, w'. split; [reflexivity |].
  assert (Hkeys : is_Some (ticker_detail results !! "ACME")
                  /\ is_Some (ticker_detail results !! "VUSA")
                  /\ is_Some (ticker_detail results !! "DEAD")).
  { clear Hsound. vm_compute in E. injection E as <- _.
    repeat split; vm_compute; eexists; reflexivity. }
  destruct Hkeys as ([d1 H1] & [d2 H2] & [d3 H3]).
  destruct (Hsound _ _ H1) as [A1 _].
  destruct (Hsound _ _ H2) as [A2 _].
  destruct (Hsound _ _ H3) as [A3 L3].
  split; [exists d1; split; [exact H1 | rewrite A1; reflexivity] |].
  split; [exists d2; split; [exact H2 | rewrite A2; reflexivity] |].
  exists d3. split; [exact H3 |].
  split; [rewrite A3; reflexivity | apply L3; reflexivity].
Defined.

End TickerDetails.

(* ===================================================================== *)
(** * Rows that the classification ignores *)
(* ===================================================================== *)

Section IgnoredRows.

Lemma mapM_app {A B : Type} (f : A -> M B) (l1 l2 : list A) (w : World) :
  mapM f (l1 ++ l2) w
  = match mapM f l1 w with
    | (Ok b1, w1) =>
        match mapM f l2 w1 with
        | (Ok b2, w2) => (Ok (b1 ++ b2)%list, w2)
        | (Raise e, w2) => (Raise e, w2)
        end
    | (Raise e, w1) => (Raise e, w1)
    end.
Proof.
  revert w. induction l1 as [| a l1 IH]; intros w.
  - cbn [app mapM]. unfold ret.
    destruct (mapM f l2 w) as [[b2 | e] w2]; reflexivity.
  - cbn [app mapM]. unfold bind.
    destruct (f a w) as [[b | e] w0]; [| reflexivity].
    rewrite IH.
    destruct (mapM f l1 w0) as [[b1 | e] w1]; [| reflexivity].
    unfold ret.
    destruct (mapM f l2 w1) as [[b2 | e] w2]; reflexivity.
Qed.

(** A row whose value is computed without a look at the world can be
    taken out of a column assignment: what follows sees the other rows
    and the world as they would have been. *)
Lemma bind_assign_skip {A B : Type} (R : result B * World ->
                                         result B * World -> Prop)
    (set : A -> Row -> Row) (f : Row -> M A) (x : Row) (y : A)
    (pre post : list Row) (k k' : list Row -> M B) (w : World) :
  (forall e w0, R (Raise e, w0) (Raise e, w0)) ->
  (forall w0, f x w0 = (Ok y, w0)) ->
  (forall pre' post' w',
      R (k (pre' ++ set y x :: post')%list w') (k' (pre' ++ post')%list w')) ->
  R (bind (assign set f (pre ++ x :: post)) k w)
    (bind (assign set f (pre ++ post)) k' w).
Proof.
  intros HR Hx Hk. unfold bind, assign. rewrite !mapM_app.
  destruct (mapM (fun row => v <- f row ;; ret (set v row)) pre w)
    as [[pre' | e] w1]; [| apply HR].
  cbn [mapM]. unfold bind at 1. unfold bind at 1. rewrite Hx.
  unfold ret at 1. unfold bind at 1.
  destruct (mapM (fun row => v <- f row ;; ret (set v row)) post w1)
    as [[post' | e] w2]; [| apply HR].
  unfold ret. apply Hk.
Qed.

Lemma foldM_skip {A S : Type} (f : S -> A -> M S) (x : A)
    (pre post : list A) (s : S) (w : World) :
  (forall s0 w0, f s0 x w0 = (Ok s0, w0)) ->
  foldM f s (pre ++ x :: post) w = foldM f s (pre ++ post) w.
Proof.
  intros Hx. revert s w. induction pre as [| a pre IH]; intros s w.
  - cbn [app foldM]. unfold bind. rewrite Hx. reflexivity.
  - cbn [app foldM]. unfold bind.
    destruct (f s a w) as [[s1 | e] w1]; [apply IH | reflexivity].
Qed.

Lemma bind_foldM_skip {A S B : Type}
    (R : result B * World -> result B * World -> Prop)
    (f : S -> A -> M S) (x : A) (pre post : list A) (s : S)
    (k k' : S -> M B) (w : World) :
  (forall e w0, R (Raise e, w0) (Raise e, w0)) ->
  (forall s0 w0, f s0 x w0 = (Ok s0, w0)) ->
  (forall s' w', R (k s' w') (k' s' w')) ->
  R (bind (foldM f s (pre ++ x :: post)) k w)
    (bind (foldM f s (pre ++ post)) k' w).
Proof.
  intros HR Hx Hk. unfold bind. rewrite foldM_skip by exact Hx.
  destruct (foldM f s (pre ++ post) w) as [[s' | e] w']; [apply Hk | apply HR].
Qed.

Lemma filter_skip {A : Type} (p : A -> bool) (x : A) (pre post : list A) :
  p x = false ->
  List.filter p (pre ++ x :: post) = List.filter p (pre ++ post).
Proof.
  intros Hx. rewrite !List.filter_app. cbn [List.filter]. rewrite Hx.
  reflexivity.
Qed.

Lemma convert_to_eur_returns (amount : Q) (row : RawRow) :
  convertible row = true ->
  exists q, convert_to_eur amount (Currency row) (FX_Rate row) = Ok q.
Proof.
  intros Hc.
  pose proof (convert_to_eur_convertible amount row) as H.
  destruct (convert_to_eur amount (Currency row) (FX_Rate row)) as [q | e];
    [exists q; reflexivity | congruence].
Qed.

(** The run with and without an ignored row, up to a relation that
    holds of equal outcomes and of the two ways to end the run. *)
Lemma process_transactions_skip
    (R : result Results * World -> result Results * World -> Prop)
    (now : Timestamp) (pre post : list RawRow) (row : RawRow)
    (store_transactions : bool) (w : World) :
  (forall x, R x x) ->
  classify_transaction_type (Type_ row) = "ignore" ->
  convertible row = true ->
  (forall (tickers : list string) (relevant_df rows rows' : list Row)
          (w0 : World),
      R (((if store_transactions
           then modify_world (set_transaction_history (Some rows))
           else ret tt) ;;
          foldM (process_ticker now relevant_df) initial_results tickers) w0)
        (((if store_transactions
           then modify_world (set_transaction_history (Some rows'))
           else ret tt) ;;
          foldM (process_ticker now relevant_df) initial_results tickers) w0)) ->
  R (process_transactions now (pre ++ row :: post) store_transactions w)
    (process_transactions now (pre ++ post) store_transactions w).
Proof.
  intros Hrefl Hign Hconv Hend. unfold process_transactions.
  rewrite !map_app. cbn [map].
  assert (HR : forall e w0,
             R (Raise e, w0) (Raise e, w0)) by (intros; apply Hrefl).
  (* the merger tickers *)
  apply (bind_foldM_skip R); [exact HR | |].
  { intros s0 w0. cbn [TransactionType init_row]. rewrite Hign.
    reflexivity. }
  intros mt w0.
  (* TransactionType *)
  apply (bind_assign_skip R set_TransactionType _ _ "ignore"); [exact HR | |].
  { intros wa. unfold classify_transfer. cbn [TransactionType init_row].
    rewrite Hign. reflexivity. }
  intros pre1 post1 w1.
  (* NormalizedTicker *)
  apply (bind_assign_skip R set_NormalizedTicker _ _ None); [exact HR | |].
  { intros wa. reflexivity. }
  intros pre2 post2 w2.
  (* IsETF and IsActive *)
  apply (bind_assign_skip R set_IsETF _ _ false); [exact HR | |].
  { intros wa. reflexivity. }
  intros pre3 post3 w3.
  apply (bind_assign_skip R set_IsActive _ _ true); [exact HR | |].
  { intros wa. reflexivity. }
  intros pre4 post4 w4.
  (* the parsed amounts *)
  destruct (parse_amount_returns (Total_Amount row)) as [total Htotal].
  apply (bind_assign_skip R set_TotalAmountFloat _ _ total); [exact HR | |].
  { intros wa. cbn [raw set_IsActive set_IsETF set_NormalizedTicker
                      set_TransactionType init_row].
    unfold lift. rewrite Htotal. reflexivity. }
  intros pre5 post5 w5.
  destruct (parse_amount_returns (Price_per_share row)) as [price Hprice].
  apply (bind_assign_skip R set_PricePerShareFloat _ _ price); [exact HR | |].
  { intros wa. cbn [raw set_TotalAmountFloat set_IsActive set_IsETF
                      set_NormalizedTicker set_TransactionType init_row].
    unfold lift. rewrite Hprice. reflexivity. }
  intros pre6 post6 w6.
  (* the converted amounts *)
  destruct (convert_to_eur_returns total row Hconv) as [total_eur Hte].
  apply (bind_assign_skip R set_TotalAmountEUR _ _ total_eur); [exact HR | |].
  { intros wa. cbn [raw TotalAmountFloat set_PricePerShareFloat
                      set_TotalAmountFloat set_IsActive set_IsETF
                      set_NormalizedTicker set_TransactionType init_row].
    unfold lift. rewrite Hte. reflexivity. }
  intros pre7 post7 w7.
  destruct (convert_to_eur_returns price row Hconv) as [price_eur Hpe].
  apply (bind_assign_skip R set_PricePerShareEUR _ _ price_eur);
    [exact HR | |].
  { intros wa. cbn [raw PricePerShareFloat set_TotalAmountEUR
                      set_PricePerShareFloat set_TotalAmountFloat set_IsActive
                      set_IsETF set_NormalizedTicker set_TransactionType
                      init_row].
    unfold lift. rewrite Hpe. reflexivity. }
  intros pre8 post8 w8.
  (* the fees *)
  apply (bind_assign_skip R set_FeesEUR _ _ 0); [exact HR | |].
  { intros wa. reflexivity. }
  intros pre9 post9 w9.
  (* the tickers *)
  cbv zeta.
  rewrite (filter_skip
             (fun row0 => str_in (TransactionType row0) relevant_types))
    by reflexivity.
  apply Hend.
Qed.

(** X20. A row that [classify_transaction_type] ignores (a top-up, a
    withdrawal, a fee, an unknown type) and whose currency
    [convert_to_eur] accepts has no effect on a run of
    [process_transactions] over an export that has other rows: without
    storing, the run on the export with the row and the run on the
    export without it have the same outcome, results or exception, and
    leave the same world; with storing they differ in the stored
    history only. *)
Theorem ignored_rows_do_not_count (now : Timestamp) (pre post : list RawRow)
    (row : RawRow) (w : World) :
  (pre ++ post)%list <> [] ->
  classify_transaction_type (Type_ row) = "ignore" ->
  convertible row = true ->
  process_transactions now (pre ++ row :: post) false w
  = process_transactions now (pre ++ post) false w
  /\ exists h : option (list Row),
       process_transactions now (pre ++ row :: post) true w
       = (fst (process_transactions now (pre ++ post) true w),
          set_transaction_history h
            (snd (process_transactions now (pre ++ post) true w))).
Proof.
  intros _ Hign Hconv. split.
  - apply (process_transactions_skip eq); try assumption; reflexivity.
  - apply (process_transactions_skip
             (fun a b =>
                exists h, a = (fst b, set_transaction_history h (snd b))));
      try assumption.
    + intros [r [c f y h]]. exists h. reflexivity.
    + intros tickers relevant_df rows rows' w0.
      unfold bind, modify_world.
      pose proof (history_blind_foldM (process_ticker now relevant_df)
                    tickers initial_results
                    (fun s0 a => history_blind_process_ticker now _ s0 a))
        as Hblind.
      rewrite (Hblind w0 (Some rows)), (Hblind w0 (Some rows')).
      exists (Some rows). cbn [fst snd].
      destruct (snd (foldM (process_ticker now relevant_df) initial_results
                       tickers w0)); reflexivity.
Qed.

(** The sample export with a second top-up in its middle. *)
Lemma ignored_rows_do_not_count_witness :
  let top_up :=
    mk_raw 1600250000 "ACME" "CASH TOP-UP" 0 "" "40" "EUR" None in
  (take 3 sample_df ++ drop 3 sample_df)%list <> []
  /\ classify_transaction_type (Type_ top_up) = "ignore"
  /\ convertible top_up = true
  /\ process_transactions sample_now
       (take 3 sample_df ++ top_up :: drop 3 sample_df) false sample_world
     = process_transactions sample_now (take 3 sample_df ++ drop 3 sample_df)
         false sample_world.
Proof.
  intros top_up.
  assert (H0 : (take 3 sample_df ++ drop 3 sample_df)%list <> [])
    by discriminate.
  split; [exact H0 |]. split; [reflexivity |]. split; [reflexivity |].
  exact (proj1 (ignored_rows_do_not_count sample_now (take 3 sample_df)
                  (drop 3 sample_df) top_up sample_world H0 eq_refl eq_refl)).
Defined.

End IgnoredRows.
